(** * Server configuration loader of hyperfy: a shallow embedding

    The development follows [src/server/config.js] and the token helpers of
    [src/core/utils-server.js].  The JavaScript runtime pieces the two files
    call ([String.prototype.trim], [Number.parseInt], POSIX [node:path],
    [Object.freeze], the WHATWG [URL] class, [jsonwebtoken]) are modelled
    first; the functions of the repository come after them, in the order
    of the source. *)

From Stdlib Require Import ZArith Ascii String.
From stdpp Require Import base tactics option list strings gmap pretty.

Local Open Scope Z_scope.

(** ** Strings

    A JavaScript string is modelled by a Rocq [string]; every character
    stands for one code unit in the range 0..255.  Code units above 255
    are outside the model. *)

Module JsString.

(** [WhiteSpace] and [LineTerminator] code units below 256: TAB, LF, VT,
    FF, CR, SP and NBSP. *)
Definition isWhiteSpace (c : ascii) : bool :=
  match c with
  | "009" | "010" | "011" | "012" | "013" | " " | "160" => true
  | _ => false
  end%char.

Fixpoint trimStart (s : string) : string :=
  match s with
  | EmptyString => EmptyString
  | String c s' => if isWhiteSpace c then trimStart s' else s
  end.

Fixpoint trimEnd (s : string) : string :=
  match s with
  | EmptyString => EmptyString
  | String c s' =>
      match trimEnd s' with
      | EmptyString => if isWhiteSpace c then EmptyString else String c EmptyString
      | t => String c t
      end
  end.

(** [s.trim()] *)
Definition trim (s : string) : string := trimEnd (trimStart s).

Fixpoint isPrefix (p s : string) : bool :=
  match p, s with
  | EmptyString, _ => true
  | String a p', String b s' => bool_decide (a = b) && isPrefix p' s'
  | String _ _, EmptyString => false
  end.

(** [s.startsWith(p)] *)
Definition startsWith (s p : string) : bool := isPrefix p s.

(** [s.endsWith(p)] for a one-character [p]. *)
Fixpoint endsWithChar (s : string) (c : ascii) : bool :=
  match s with
  | EmptyString => false
  | String d EmptyString => bool_decide (d = c)
  | String _ s' => endsWithChar s' c
  end.

(** [s.replace(/\/$/, '')]: the pattern has no [m] flag, so [$] matches
    at the end of the input only, and at most one slash goes. *)
Fixpoint stripTrailingSlash (s : string) : string :=
  match s with
  | EmptyString => EmptyString
  | String c EmptyString => if bool_decide (c = "/"%char) then EmptyString else s
  | String c s' => String c (stripTrailingSlash s')
  end.

(** [s.split(sep)] for a one-character separator. *)
Fixpoint split (sep : ascii) (s : string) : list string :=
  match s with
  | EmptyString => [EmptyString]
  | String c s' =>
      if bool_decide (c = sep) then EmptyString :: split sep s'
      else match split sep s' with
           | h :: t => String c h :: t
           | [] => [String c EmptyString]
           end
  end.

(** [l.join(sep)] *)
Fixpoint join (sep : string) (l : list string) : string :=
  match l with
  | [] => EmptyString
  | [x] => x
  | x :: l' => x +:+ sep +:+ join sep l'
  end.

(** [s.includes(c)] for a one-character [c]. *)
Fixpoint includesChar (s : string) (c : ascii) : bool :=
  match s with
  | EmptyString => false
  | String d s' => bool_decide (d = c) || includesChar s' c
  end.

(** A string made of white space only (the empty string included). *)
Definition blank (s : string) : bool := bool_decide (trim s = EmptyString).

End JsString.

(** ** POSIX [node:path] *)

Module path.
Import JsString.

(** [path.isAbsolute(p)] *)
Definition isAbsolute (p : string) : bool := startsWith p "/".

(** One step of Node's [normalizeString], on the segment that ends at a
    separator; [acc] is the result so far, last segment first. *)
Definition normalizeStep (allowAboveRoot : bool) (acc : list string) (seg : string)
  : list string :=
  if bool_decide (seg = "") || bool_decide (seg = ".") then acc
  else if bool_decide (seg = "..") then
    match acc with
    | top :: rest =>
        if bool_decide (top = "..")
        then (if allowAboveRoot then ".." :: acc else acc)
        else rest
    | [] => if allowAboveRoot then [".."] else []
    end
  else seg :: acc.

Definition normalizeString (p : string) (allowAboveRoot : bool) : string :=
  join "/" (reverse (foldl (normalizeStep allowAboveRoot) [] (split "/" p))).

(** [path.normalize(p)] *)
Definition normalize (p : string) : string :=
  if bool_decide (p = "") then "."
  else
    let isAbs := isAbsolute p in
    let trailingSeparator := endsWithChar p "/" in
    let q := normalizeString p (negb isAbs) in
    if bool_decide (q = "") then
      (if isAbs then "/" else if trailingSeparator then "./" else ".")
    else
      let q := if trailingSeparator then q +:+ "/" else q in
      if isAbs then "/" +:+ q else q.

(** [path.join(...parts)] *)
Definition join (parts : list string) : string :=
  let joined := JsString.join "/" (filter (λ s, s ≠ "") parts) in
  if bool_decide (joined = "") then "." else normalize joined.

End path.

(** ** Values, objects and the heap *)

Definition loc := nat.

(** The numbers of [config.js] all come out of [Number.parseInt] or are
    integer literals, so a number here is NaN, a double that holds an
    integer, given by that integer, or an infinity.  [-0] is [Int 0]:
    nothing in the code tells the two zeros apart. *)
Inductive number :=
| NaN
| Int (z : Z)
| Infinity (negative : bool).

Inductive value :=
| VUndefined
| VNull
| VBool (b : bool)
| VNumber (n : number)
| VString (s : string)
| VObject (l : loc).

Global Instance number_eq_dec : EqDecision number.
Proof. solve_decision. Defined.
Global Instance value_eq_dec : EqDecision value.
Proof. solve_decision. Defined.

(** An object: its own enumerable properties, and whether [Object.freeze]
    went over it. *)
Record object := Obj { props : gmap string value; frozen : bool }.

Inductive exn :=
| Error (message : string)
| TypeError (message : string).

Inductive completion (A : Type) :=
| Normal (a : A)
| Throw (e : exn).
Arguments Normal {A} a.
Arguments Throw {A} e.

(** The mutable world of the process: the heap of objects (an address is an
    index into the list) and [process.env]. *)
Record state := State { heap : list object; env : gmap string value }.

Definition M (A : Type) : Type := state → completion A * state.

Definition ret {A} (a : A) : M A := λ st, (Normal a, st).
Definition throw {A} (e : exn) : M A := λ st, (Throw e, st).
Definition bind {A B} (m : M A) (k : A → M B) : M B :=
  λ st, match m st with
        | (Normal a, st') => k a st'
        | (Throw e, st') => (Throw e, st')
        end.
Definition lift {A} (c : completion A) : M A := λ st, (c, st).

Notation "'let!' x ':=' m 'in' k" := (bind m (λ x, k))
  (at level 10, x binder, m at level 100, k at level 200).

Definition bindC {A B} (c : completion A) (k : A → completion B) : completion B :=
  match c with
  | Normal a => k a
  | Throw e => Throw e
  end.

Notation "'let?' x ':=' c 'in' k" := (bindC c (λ x, k))
  (at level 10, x binder, c at level 100, k at level 200).

(** [if (b) throw e] *)
Definition throwIf (b : bool) (e : exn) : completion unit :=
  if b then Throw e else Normal ().

(** [try { body } catch (err) { handler }] *)
Definition tryCatch {A} (body : completion A) (handler : exn → completion A)
  : completion A :=
  match body with
  | Normal a => Normal a
  | Throw e => handler e
  end.

(** ** Doubles that hold integers *)

Module Double.

(** The double nearest to the integer [z]: 53 significant bits, a tie
    going to the even significand, and an infinity from 2^1024 on. *)
Definition ofZ (z : Z) : number :=
  let a := Z.abs z in
  if a <? 2 ^ 53 then Int z
  else
    let sh := Z.log2 a - 52 in
    let q := Z.shiftr a sh in
    let r := a - Z.shiftl q sh in
    let half := 2 ^ (sh - 1) in
    let q := if (half <? r) || ((r =? half) && Z.odd q) then q + 1 else q in
    let m := Z.shiftl q sh in
    if 2 ^ 1024 <=? m then Infinity (z <? 0) else Int (Z.sgn z * m).

(** The integer [c] reads back as the double [a]. *)
Definition roundsTo (a c : Z) : bool :=
  match ofZ c with
  | Int b => b =? a
  | _ => false
  end.

Definition decimalLength (a : Z) : Z := Z.of_nat (String.length (pretty a)).

(** Among the integers with [k] significant digits, of the decimal length
    [n] of [a], one that reads back as [a]: the nearest to [a], and of two
    equally near the one whose last significant digit is even. *)
Definition shortestAt (a n k : Z) : option Z :=
  let p := 10 ^ (n - k) in
  let s := a / p in
  let c1 := s * p in
  let c2 := (s + 1) * p in
  match roundsTo a c1, roundsTo a c2 with
  | true, true =>
      Some (if (a - c1 <? c2 - a) || ((a - c1 =? c2 - a) && Z.even s) then c1 else c2)
  | true, false => Some c1
  | false, true => Some c2
  | false, false => None
  end.

Fixpoint shortestFrom (fuel : nat) (a n k : Z) : Z :=
  match fuel with
  | O => a
  | S fuel' =>
      match shortestAt a n k with
      | Some c => c
      | None => shortestFrom fuel' a n (k + 1)
      end
  end.

(** The integer with the fewest significant digits that reads back as the
    double [a > 0]: the digits that [Number::toString] prints. *)
Definition shortest (a : Z) : Z :=
  let n := decimalLength a in
  shortestFrom (Z.to_nat n) a n 1.

Fixpoint dropZeros (s : string) : string :=
  match s with
  | EmptyString => EmptyString
  | String c s' =>
      match dropZeros s' with
      | EmptyString => if bool_decide (c = "0"%char) then EmptyString else String c EmptyString
      | t => String c t
      end
  end.

(** [d.ddde+x], or [de+x] for one significant digit. *)
Definition exponential (c : Z) : string :=
  let digits := pretty c in
  let e := pretty (Z.of_nat (String.length digits) - 1) in
  match dropZeros digits with
  | String d EmptyString => String d "e+" +:+ e
  | String d ds => String d "." +:+ ds +:+ "e+" +:+ e
  | EmptyString => digits
  end.

(** [Number::toString] of the double [a > 2^53]: up to 21 digits are
    written out, more go in exponent form. *)
Definition printLarge (a : Z) : string :=
  let c := shortest a in
  if c <? 10 ^ 21 then pretty c else exponential c.

End Double.

Module Js.
Import JsString.

(** [String(n)].  Up to 2^53 every integer is its own shortest form. *)
Definition numberToString (n : number) : string :=
  match n with
  | NaN => "NaN"
  | Int z =>
      if Z.abs z <=? 2 ^ 53 then pretty z
      else (if z <? 0 then "-" else "") +:+ Double.printLarge (Z.abs z)
  | Infinity negative => if negative then "-Infinity" else "Infinity"
  end.

(** [String(v)]; an object prints the way a plain object does. *)
Definition String_ (v : value) : string :=
  match v with
  | VUndefined => "undefined"
  | VNull => "null"
  | VBool true => "true"
  | VBool false => "false"
  | VNumber n => numberToString n
  | VString s => s
  | VObject _ => "[object Object]"
  end.

(** [!!v] *)
Definition truthy (v : value) : bool :=
  match v with
  | VUndefined | VNull => false
  | VBool b => b
  | VNumber NaN => false
  | VNumber (Int z) => negb (z =? 0)
  | VNumber (Infinity _) => true
  | VString s => negb (bool_decide (s = ""))
  | VObject _ => true
  end.

(** [v === undefined || v === null] *)
Definition nullish (v : value) : bool :=
  match v with
  | VUndefined | VNull => true
  | _ => false
  end.

(** [a || b] *)
Definition or (a b : value) : value := if truthy a then a else b.

(** [a ?? b] *)
Definition coalesce (a b : value) : value := if nullish a then b else a.

Definition digit (c : ascii) : option Z :=
  let n := Z.of_nat (nat_of_ascii c) in
  if (48 <=? n) && (n <=? 57) then Some (n - 48) else None.

(** The longest prefix of decimal digits, as a number; [acc] is [None]
    until a digit has been read. *)
Fixpoint parseDigits (acc : option Z) (s : string) : option Z :=
  match s with
  | EmptyString => acc
  | String c s' =>
      match digit c with
      | Some d => parseDigits (Some (10 * default 0 acc + d)) s'
      | None => acc
      end
  end.

(** [Number.parseInt(v, 10)]: leading white space goes, then an optional
    sign, then the longest run of digits; what follows is ignored.  The
    integer read becomes the nearest double. *)
Definition parseInt10 (v : value) : number :=
  let s := trimStart (String_ v) in
  let '(sign, s) :=
    match s with
    | String "-" r => (-1, r)
    | String "+" r => (1, r)
    | _ => (1, s)
    end in
  match parseDigits None s with
  | None => NaN
  | Some m => Double.ofZ (sign * m)
  end.

(** [Number.isFinite(n)] *)
Definition isFinite (n : number) : bool :=
  match n with
  | Int _ => true
  | NaN | Infinity _ => false
  end.

(** [a === b] and [a < b] on numbers; NaN compares false. *)
Definition strictEq (a b : number) : bool :=
  match a, b with
  | Int x, Int y => x =? y
  | Infinity m, Infinity n => bool_decide (m = n)
  | _, _ => false
  end.
Definition lt (a b : number) : bool :=
  match a, b with
  | Int x, Int y => x <? y
  | Infinity true, Int _ | Int _, Infinity false | Infinity true, Infinity false => true
  | _, _ => false
  end.

(** [v.length] of a string; other values have none here. *)
Definition length (v : value) : Z :=
  match v with
  | VString s => Z.of_nat (String.length s)
  | _ => 0
  end.

(** The object at an address. *)
Definition deref (l : loc) (st : state) : option object := heap st !! l.

(** An object literal [{ ... }]. *)
Definition newObject (p : gmap string value) : M loc :=
  λ st, (Normal (List.length (heap st)),
         State (heap st ++ [Obj p false]) (env st)).

(** [o[k]] *)
Definition getProp (l : loc) (k : string) : M value :=
  λ st, match deref l st with
        | Some o => (Normal (default VUndefined (props o !! k)), st)
        | None => (Throw (TypeError "Cannot read properties of undefined"), st)
        end.

(** [v[k]] for a value that should be an object. *)
Definition getField (v : value) (k : string) : M value :=
  match v with
  | VObject l => getProp l k
  | _ => λ st, (Throw (TypeError "Cannot read properties of undefined"), st)
  end.

(** [o[k] = v] in strict mode (an ES module is strict): a frozen object
    refuses it with a TypeError and stays as it was. *)
Definition setProp (l : loc) (k : string) (v : value) : M unit :=
  λ st, match deref l st with
        | Some o =>
            if frozen o
            then (Throw (TypeError "Cannot assign to read only property"), st)
            else (Normal (),
                  State (<[l := Obj (<[k := v]> (props o)) false]> (heap st)) (env st))
        | None => (Throw (TypeError "Cannot set properties of undefined"), st)
        end.

(** [delete o[k]] in strict mode. *)
Definition deleteProp (l : loc) (k : string) : M unit :=
  λ st, match deref l st with
        | Some o =>
            if frozen o
            then match props o !! k with
                 | Some _ => (Throw (TypeError "Cannot delete property"), st)
                 | None => (Normal (), st)
                 end
            else (Normal (),
                  State (<[l := Obj (delete k (props o)) false]> (heap st)) (env st))
        | None => (Throw (TypeError "Cannot convert undefined to object"), st)
        end.

(** [Object.freeze(o)]; it returns its argument. *)
Definition freeze (l : loc) : M loc :=
  λ st, match deref l st with
        | Some o => (Normal l, State (<[l := Obj (props o) true]> (heap st)) (env st))
        | None => (Normal l, st)
        end.

(** [Object.keys(o)] *)
Definition keys (l : loc) : M (list string) :=
  λ st, match deref l st with
        | Some o => (Normal (map_to_list (props o)).*1, st)
        | None => (Throw (TypeError "Cannot convert undefined to object"), st)
        end.

(** [for (const x of xs) body(x)] *)
Fixpoint forOf {A} (xs : list A) (body : A → M unit) : M unit :=
  match xs with
  | [] => ret ()
  | x :: xs' => let! _ := body x in forOf xs' body
  end.

(** [process.env[key]] *)
Definition getEnv (key : string) : M value :=
  λ st, (Normal (default VUndefined (env st !! key)), st).

(** [Object.entries(process.env)] *)
Definition envEntries : M (list (string * value)) :=
  λ st, (Normal (map_to_list (env st)), st).

End Js.

(** ** The validators of [config.js] *)

Record ReadEnvOptions := {
  required : bool;
  defaultValue : value;
  allowEmpty : bool
}.

(** The options a call leaves out: [required = false], no [defaultValue],
    [allowEmpty = false]. *)
Definition readEnvDefaults : ReadEnvOptions :=
  {| required := false; defaultValue := VUndefined; allowEmpty := false |}.

Definition readEnv (key : string) (o : ReadEnvOptions) : M value :=
  let! rawValue := Js.getEnv key in
  if Js.nullish rawValue then
    if negb (bool_decide (defaultValue o = VUndefined)) then ret (defaultValue o)
    else if required o then
      throw (Error ("Environment variable " +:+ key +:+ " is required"))
    else ret VUndefined
  else
    let value := JsString.trim (Js.String_ rawValue) in
    if negb (allowEmpty o) && (String.length value =? 0)%nat then
      if negb (bool_decide (defaultValue o = VUndefined)) then ret (defaultValue o)
      else if required o then
        throw (Error ("Environment variable " +:+ key +:+ " cannot be empty"))
      else ret VUndefined
    else ret (VString value).

(** [path.isAbsolute] and [path.normalize] take strings only; anything else
    is refused by Node with a TypeError. *)
Definition ensureRelativePath (value : value) (key : string) : completion string :=
  match value with
  | VString value =>
      if path.isAbsolute value then
        Throw (Error (key +:+ " must be a relative path inside the repository"))
      else
        let normalised := path.normalize value in
        if JsString.startsWith normalised ".." then
          Throw (Error (key +:+ " must not traverse outside of the repository"))
        else Normal normalised
  | _ => Throw (TypeError "ERR_INVALID_ARG_TYPE")
  end.

Module IntOpts.
Record t := { min : option Z; max : option Z; allowZero : bool }.
(** [allowZero] is [true] when left out; no bound means [undefined]. *)
Definition defaults : t := {| min := None; max := None; allowZero := true |}.
End IntOpts.

Definition parseInteger (value : value) (key : string) (o : IntOpts.t)
  : completion number :=
  let parsed := Js.parseInt10 value in
  let? _ := throwIf (negb (Js.isFinite parsed))
              (Error (key +:+ " must be a valid integer")) in
  let? _ := throwIf (negb (IntOpts.allowZero o) && Js.strictEq parsed (Int 0))
              (Error (key +:+ " cannot be zero")) in
  let? _ := throwIf (match IntOpts.min o with
                     | Some min => Js.lt parsed (Int min)
                     | None => false
                     end)
              (Error (key +:+ " must be >= "
                        +:+ Js.numberToString (Int (default 0 (IntOpts.min o))))) in
  let? _ := throwIf (match IntOpts.max o with
                     | Some max => Js.lt (Int max) parsed
                     | None => false
                     end)
              (Error (key +:+ " must be <= "
                        +:+ Js.numberToString (Int (default 0 (IntOpts.max o))))) in
  Normal parsed.

(** ** The WHATWG [URL] class, as far as [config.js] uses it

    [new URL(s)] either throws or gives an object of which the code reads
    [protocol] and [toString()] (the serialisation, [href]).  The parser is
    the platform's; the development takes it as an interface.  Its one law
    is a fact of the URL Standard: without a base, a string whose first
    code unit is a slash has no scheme and does not parse. *)

Record URL := { protocol : string; href : string }.

Class URLParser := {
  parseURL : string → option URL;
  parseURL_not_rooted :
    ∀ s u, parseURL s = Some u → JsString.startsWith s "/" = false
}.

Section Config.
Context `{URLParser}.

(** [new URL(s)] *)
Definition new_URL (s : string) : completion URL :=
  match parseURL s with
  | Some u => Normal u
  | None => Throw (TypeError "ERR_INVALID_URL")
  end.

(** The [try] block of [normaliseUrl].  [protocolWhitelist] is [None]
    when the call leaves it out; an array, even an empty one, is truthy. *)
Definition normaliseUrlTry (trimmed key : string)
    (protocolWhitelist : option (list string)) : completion string :=
  let? url := new_URL trimmed in
  let? _ := throwIf
              (match protocolWhitelist with
               | Some wl => negb (bool_decide (protocol url ∈ wl))
               | None => false
               end)
              (Error (key +:+ " must use one of the following protocols: "
                        +:+ JsString.join ", " (default [] protocolWhitelist))) in
  Normal (JsString.stripTrailingSlash (href url)).

(** Its [catch] block; the error caught is not looked at. *)
Definition normaliseUrlCatch (trimmed key : string) (err : exn) : completion string :=
  if JsString.startsWith trimmed "/"
  then Normal (JsString.stripTrailingSlash trimmed)
  else Throw (Error (key +:+ " must be a valid absolute URL or start with '/'")).

(** [value.trim()] exists on strings only: reading [trim] off [undefined]
    or [null] throws, and so does calling what another value has there. *)
Definition normaliseUrl (value : value) (key : string)
    (protocolWhitelist : option (list string)) : completion string :=
  match value with
  | VString value =>
      let trimmed := JsString.trim value in
      tryCatch (normaliseUrlTry trimmed key protocolWhitelist)
               (normaliseUrlCatch trimmed key)
  | VUndefined | VNull => Throw (TypeError "Cannot read properties of undefined")
  | _ => Throw (TypeError "value.trim is not a function")
  end.

(** The entry [[key, value]] of [process.env] after the [map] of
    [buildPublicEnv]. *)
Definition publicEntry (e : string * value) : string * value :=
  (e.1, if Js.nullish e.2 then VString "" else VString (Js.String_ e.2)).

(** [overrides] is the object literal of the call; the spread reads its
    properties once, and later sources win. *)
Definition buildPublicEnv (overrides : gmap string value) : M loc :=
  let! entries := Js.envEntries in
  let publicEnvEntries :=
    publicEntry <$> filter (λ e, JsString.startsWith e.1 "PUBLIC_" = true) entries in
  let! merged := Js.newObject (overrides ∪ list_to_map publicEnvEntries) in
  let! ks := Js.keys merged in
  let! _ := Js.forOf ks (λ key,
              let! v := Js.getProp merged key in
              let! _ := Js.setProp merged key (Js.coalesce v (VString "")) in
              let! v := Js.getProp merged key in
              Js.setProp merged key (VString (Js.String_ v))) in
  Js.freeze merged.

Definition withDefault (d : string) : ReadEnvOptions :=
  {| required := false; defaultValue := VString d; allowEmpty := false |}.
Definition isRequired : ReadEnvOptions :=
  {| required := true; defaultValue := VUndefined; allowEmpty := false |}.
Definition mayBeEmpty : ReadEnvOptions :=
  {| required := false; defaultValue := VUndefined; allowEmpty := true |}.

(** [Object.freeze({ ... })] *)
Definition frozenObject (p : list (string * value)) : M loc :=
  let! o := Js.newObject (list_to_map p) in Js.freeze o.

(** [rootDir] is the root after [path.resolve]: [options.rootDir]
    resolved, or the parent of the directory of the module. *)
Definition buildServerConfig (rootDir : string) : M loc :=
  let! world := readEnv "WORLD" isRequired in
  let! worldName := lift (ensureRelativePath world "WORLD") in
  let worldDir := path.join [rootDir; worldName] in
  let assetsDir := path.join [worldDir; "assets"] in
  let collectionsDir := path.join [worldDir; "collections"] in

  let! portEnv := readEnv "PORT" (withDefault "3000") in
  let! port := lift (parseInteger portEnv "PORT"
      {| IntOpts.min := Some 1; IntOpts.max := Some 65535; IntOpts.allowZero := true |}) in

  let! saveEnv := readEnv "SAVE_INTERVAL" (withDefault "60") in
  let! saveInterval := lift (parseInteger saveEnv "SAVE_INTERVAL"
      {| IntOpts.min := Some 0; IntOpts.max := None; IntOpts.allowZero := true |}) in

  let! jwtSecret := readEnv "JWT_SECRET" isRequired in

  let! assetsEnv := readEnv "PUBLIC_ASSETS_URL"
      (withDefault ("http://localhost:" +:+ Js.numberToString port +:+ "/assets")) in
  let! publicAssetsUrl := lift (normaliseUrl assetsEnv "PUBLIC_ASSETS_URL" None) in
  let! apiEnv := readEnv "PUBLIC_API_URL"
      (withDefault ("http://localhost:" +:+ Js.numberToString port +:+ "/api")) in
  let! publicApiUrl := lift (normaliseUrl apiEnv "PUBLIC_API_URL" None) in
  let! wsEnv := readEnv "PUBLIC_WS_URL"
      (withDefault ("ws://localhost:" +:+ Js.numberToString port +:+ "/ws")) in
  let! publicWsUrl := lift (normaliseUrl wsEnv "PUBLIC_WS_URL" (Some ["ws:"; "wss:"])) in
  let! uploadEnv := readEnv "PUBLIC_MAX_UPLOAD_SIZE" (withDefault "12") in
  let! publicMaxUploadSize := lift (parseInteger uploadEnv "PUBLIC_MAX_UPLOAD_SIZE"
      {| IntOpts.min := Some 1; IntOpts.max := None; IntOpts.allowZero := true |}) in

  let! adminCode := readEnv "ADMIN_CODE" mayBeEmpty in
  let hasAdminCode :=
    Js.truthy adminCode && bool_decide (0 < Js.length adminCode) in

  let! commitEnv := readEnv "COMMIT_HASH" mayBeEmpty in
  let commitHash := Js.or commitEnv VNull in

  let! lkWsUrl := readEnv "LIVEKIT_WS_URL" mayBeEmpty in
  let! lkApiKey := readEnv "LIVEKIT_API_KEY" mayBeEmpty in
  let! lkApiSecret := readEnv "LIVEKIT_API_SECRET" mayBeEmpty in
  let! livekit := Js.newObject (list_to_map [
      ("wsUrl", Js.or lkWsUrl VNull);
      ("apiKey", Js.or lkApiKey VNull);
      ("apiSecret", Js.or lkApiSecret VNull)]) in

  let! publicEnv := buildPublicEnv (list_to_map [
      ("PUBLIC_ASSETS_URL", VString publicAssetsUrl);
      ("PUBLIC_API_URL", VString publicApiUrl);
      ("PUBLIC_WS_URL", VString publicWsUrl);
      ("PUBLIC_MAX_UPLOAD_SIZE", VString (Js.String_ (VNumber publicMaxUploadSize)))]) in

  let! world := frozenObject [
      ("name", VString worldName);
      ("dir", VString worldDir);
      ("assetsDir", VString assetsDir);
      ("collectionsDir", VString collectionsDir)] in
  let! server := frozenObject [
      ("port", VNumber port);
      ("saveInterval", VNumber saveInterval)] in
  let! auth := frozenObject [
      ("jwtSecret", jwtSecret);
      ("adminCode", Js.or adminCode VNull);
      ("hasAdminCode", VBool hasAdminCode)] in
  let! public := frozenObject [
      ("assetsUrl", VString publicAssetsUrl);
      ("apiUrl", VString publicApiUrl);
      ("wsUrl", VString publicWsUrl);
      ("maxUploadSize", VNumber publicMaxUploadSize);
      ("env", VObject publicEnv)] in
  let! livekit := Js.freeze livekit in
  frozenObject [
      ("rootDir", VString rootDir);
      ("world", VObject world);
      ("server", VObject server);
      ("auth", VObject auth);
      ("public", VObject public);
      ("livekit", VObject livekit);
      ("commitHash", commitHash)].

(** The module of [config.js] once loaded: its one binding,
    [const serverConfig = buildServerConfig()]. *)
Record ConfigModule := { serverConfig : loc }.

Definition loadConfigModule (rootDir : string) : M ConfigModule :=
  let! c := buildServerConfig rootDir in
  ret {| serverConfig := c |}.

Definition getServerConfig (m : ConfigModule) : M loc :=
  ret (serverConfig m).

End Config.

(** ** A parser for a fragment of the URL Standard

    [Whatwg.parse] follows the basic URL parser of the Standard, without a
    base, on two shapes of input: a special scheme ([http], [https], [ws],
    [wss], [ftp]) with a host name of ASCII letters, digits, [-], [_] and
    [.], an optional port, a path, a query and a fragment; and another
    scheme with an opaque path.  Credentials, IP literals, Punycode labels,
    backslashes, percent signs and code points that the Standard would
    percent-encode lie outside the fragment, and so does [file:]; on them
    [parse] answers [None], like on the strings the Standard rejects. *)

Module Whatwg.

Definition code (c : ascii) : nat := nat_of_ascii c.

Definition isAlpha (c : ascii) : bool :=
  ((65 <=? code c) && (code c <=? 90) || (97 <=? code c) && (code c <=? 122))%nat.
Definition isDigit (c : ascii) : bool :=
  ((48 <=? code c) && (code c <=? 57))%nat.
Definition lower (c : ascii) : ascii :=
  if ((65 <=? code c) && (code c <=? 90))%nat
  then ascii_of_nat (code c + 32) else c.
Definition isC0OrSpace (c : ascii) : bool := (code c <=? 32)%nat.
Definition isTabOrNewline (c : ascii) : bool :=
  bool_decide (code c = 9%nat) || bool_decide (code c = 10%nat)
  || bool_decide (code c = 13%nat).

Fixpoint all (p : ascii → bool) (s : string) : bool :=
  match s with
  | EmptyString => true
  | String c s' => p c && all p s'
  end.

Fixpoint map (f : ascii → ascii) (s : string) : string :=
  match s with
  | EmptyString => EmptyString
  | String c s' => String (f c) (map f s')
  end.

Fixpoint remove (p : ascii → bool) (s : string) : string :=
  match s with
  | EmptyString => EmptyString
  | String c s' => if p c then remove p s' else String c (remove p s')
  end.

Fixpoint dropStart (p : ascii → bool) (s : string) : string :=
  match s with
  | EmptyString => EmptyString
  | String c s' => if p c then dropStart p s' else s
  end.

Fixpoint dropEnd (p : ascii → bool) (s : string) : string :=
  match s with
  | EmptyString => EmptyString
  | String c s' =>
      match dropEnd p s' with
      | EmptyString => if p c then EmptyString else String c EmptyString
      | t => String c t
      end
  end.

(** The input with its leading and trailing C0 controls and spaces
    dropped, then every tab and newline removed. *)
Definition clean (s : string) : string :=
  remove isTabOrNewline (dropEnd isC0OrSpace (dropStart isC0OrSpace s)).

(** [s] cut before the first character satisfying [p]. *)
Fixpoint breakAt (p : ascii → bool) (s : string) : string * string :=
  match s with
  | EmptyString => (EmptyString, EmptyString)
  | String c s' =>
      if p c then (EmptyString, s)
      else let '(a, b) := breakAt p s' in (String c a, b)
  end.

Definition isSchemeChar (c : ascii) : bool :=
  isAlpha c || isDigit c
  || bool_decide (c = "+"%char) || bool_decide (c = "-"%char)
  || bool_decide (c = "."%char).

(** Scheme start state and scheme state: a letter, then scheme characters
    up to a colon; without a base anything else fails. *)
Definition scanScheme (s : string) : option (string * string) :=
  match s with
  | String c _ =>
      if isAlpha c then
        match breakAt (λ c, negb (isSchemeChar c)) s with
        | (scheme, String ":" rest) => Some (map lower scheme, rest)
        | _ => None
        end
      else None
  | EmptyString => None
  end.

Definition defaultPort (scheme : string) : option Z :=
  if bool_decide (scheme = "ftp") then Some 21
  else if bool_decide (scheme = "http") then Some 80
  else if bool_decide (scheme = "https") then Some 443
  else if bool_decide (scheme = "ws") then Some 80
  else if bool_decide (scheme = "wss") then Some 443
  else None.

(** Characters that every state of the fragment keeps as they are. *)
Definition isPlain (c : ascii) : bool :=
  isAlpha c || isDigit c
  || bool_decide (c ∈ ["-"; "."; "_"; "~"; "!"; "$"; "&"; "("; ")"; "*"; "+";
                        ","; ";"; "="; ":"; "@"]%char).

Definition isHostChar (c : ascii) : bool :=
  isAlpha c || isDigit c
  || bool_decide (c = "-"%char) || bool_decide (c = "_"%char)
  || bool_decide (c = "."%char).

(** A host of the fragment: its last label, a final dot apart, begins
    with a letter, so it is no IPv4 address; no label is Punycode. *)
Definition hostOk (h : string) : bool :=
  let labels := JsString.split "." h in
  let labels := match rev labels with
                | EmptyString :: ((_ :: _) as l) => rev l
                | _ => labels
                end in
  negb (bool_decide (h = ""))
  && all isHostChar h
  && forallb (λ l, negb (JsString.startsWith l "xn--")) labels
  && match last labels with
     | Some (String c _) => isAlpha c
     | _ => false
     end.

(** Port state: digits only, at most 65535; the default port of the
    scheme is dropped. *)
Definition parsePort (scheme digits : string) : option (option Z) :=
  if all isDigit digits then
    match Js.parseDigits None digits with
    | None => Some None
    | Some n =>
        if n >? 65535 then None
        else if bool_decide (defaultPort scheme = Some n) then Some None
        else Some (Some n)
    end
  else None.

(** Path state of a special scheme on the segments after the first
    slash: dot segments are resolved as they are met. *)
Fixpoint pathSegments (acc : list string) (segs : list string) : list string :=
  match segs with
  | [] => rev acc
  | seg :: rest =>
      let isLast := match rest with [] => true | _ => false end in
      if bool_decide (seg = "..") then
        pathSegments (if isLast then "" :: tail acc else tail acc) rest
      else if bool_decide (seg = ".") then
        pathSegments (if isLast then "" :: acc else acc) rest
      else pathSegments (seg :: acc) rest
  end.

Definition serializePath (segs : list string) : string :=
  foldr (λ seg r, "/" +:+ seg +:+ r) "" segs.

(** Query and fragment, each with its delimiter when present. *)
Definition parseTail (s : string) : option string :=
  let '(q, f) := breakAt (λ c, bool_decide (c = "#"%char)) s in
  let qOk := match q with
             | EmptyString => true
             | String _ q' =>
                 all (λ c, isPlain c || bool_decide (c = "/"%char)
                           || bool_decide (c = "?"%char)) q'
             end in
  let fOk := match f with
             | EmptyString => true
             | String _ f' =>
                 all (λ c, isPlain c || bool_decide (c = "/"%char)
                           || bool_decide (c = "?"%char)
                           || bool_decide (c = "#"%char)) f'
             end in
  if qOk && fOk then Some s else None.

Definition isPathEnd (c : ascii) : bool :=
  bool_decide (c = "?"%char) || bool_decide (c = "#"%char).
Definition isAuthorityEnd (c : ascii) : bool :=
  bool_decide (c = "/"%char) || bool_decide (c = "\"%char) || isPathEnd c.

Definition parseSpecial (scheme rest : string) : option URL :=
  let rest := dropStart (λ c, bool_decide (c = "/"%char) || bool_decide (c = "\"%char)) rest in
  let '(authority, rest) := breakAt isAuthorityEnd rest in
  let '(host, portPart) := breakAt (λ c, bool_decide (c = ":"%char)) authority in
  let '(pathPart, tailPart) := breakAt isPathEnd rest in
  if hostOk (map lower host)
     && all (λ c, isPlain c || bool_decide (c = "/"%char)) pathPart then
    match parsePort scheme (match portPart with String _ d => d | _ => "" end),
          parseTail tailPart with
    | Some port, Some tl =>
        let segs := match pathPart with
                    | String _ p => JsString.split "/" p
                    | EmptyString => [""]
                    end in
        Some {| protocol := scheme +:+ ":";
                href := scheme +:+ "://" +:+ map lower host
                        +:+ match port with
                            | Some n => ":" +:+ pretty n
                            | None => ""
                            end
                        +:+ serializePath (pathSegments [] segs)
                        +:+ tl |}
    | _, _ => None
    end
  else None.

Definition parseOpaque (scheme rest : string) : option URL :=
  let '(pathPart, tailPart) := breakAt isPathEnd rest in
  match pathPart with
  | String "/" _ => None
  | _ =>
      if all (λ c, isPlain c || bool_decide (c = "/"%char)) pathPart then
        match parseTail tailPart with
        | Some tl =>
            Some {| protocol := scheme +:+ ":";
                    href := scheme +:+ ":" +:+ pathPart +:+ tl |}
        | None => None
        end
      else None
  end.

Definition parse (s : string) : option URL :=
  match scanScheme (clean s) with
  | None => None
  | Some (scheme, rest) =>
      if bool_decide (scheme = "file") then None
      else match defaultPort scheme with
           | Some _ => parseSpecial scheme rest
           | None => parseOpaque scheme rest
           end
  end.

End Whatwg.

(** The fragment parser as the [URLParser] of the examples: a string that
    begins with a slash has no scheme, so [Whatwg.parse] rejects it. *)
#[export] Instance whatwg : URLParser.
Proof.
  refine {| parseURL := Whatwg.parse |}.
  intros [|c s] u; [done|].
  destruct (decide (c = "/"%char)) as [->|Hc].
  - unfold Whatwg.parse, Whatwg.clean. simpl Whatwg.dropStart.
    assert (∃ t, Whatwg.dropEnd Whatwg.isC0OrSpace (String "/" s) = String "/" t)
      as [t ->].
    { simpl. destruct (Whatwg.dropEnd _ s); eauto. }
    by cbn.
  - intros _. unfold JsString.startsWith. simpl.
    by rewrite bool_decide_eq_false_2.
Defined.

(** ** What the rest of the process may do to the configuration

    Code that holds the module can call the accessor, and, like any strict
    mode code, assign to and delete properties of any object it reaches,
    make and freeze objects, and write to [process.env]. *)

Inductive op :=
| OpGetServerConfig
| OpAssign (l : loc) (k : string) (v : value)
| OpDelete (l : loc) (k : string)
| OpNewObject (p : gmap string value)
| OpFreeze (l : loc)
| OpSetEnv (k : string) (v : value)
| OpDeleteEnv (k : string).

Section Client.
Context `{URLParser}.

Definition step (m : ConfigModule) (o : op) : M value :=
  match o with
  | OpGetServerConfig => let! c := getServerConfig m in ret (VObject c)
  | OpAssign l k v => let! _ := Js.setProp l k v in ret v
  | OpDelete l k => let! _ := Js.deleteProp l k in ret (VBool true)
  | OpNewObject p => let! l := Js.newObject p in ret (VObject l)
  | OpFreeze l => let! l := Js.freeze l in ret (VObject l)
  | OpSetEnv k v =>
      λ st, (Normal v, State (heap st) (<[k := VString (Js.String_ v)]> (env st)))
  | OpDeleteEnv k =>
      λ st, (Normal (VBool true), State (heap st) (delete k (env st)))
  end.

(** The operations in order, each caught on its own: what every one
    completed with, and the state at the end. *)
Fixpoint run (m : ConfigModule) (ops : list op) (st : state)
  : list (completion value) * state :=
  match ops with
  | [] => ([], st)
  | o :: ops' =>
      let '(r, st') := step m o st in
      let '(rs, st'') := run m ops' st' in
      (r :: rs, st'')
  end.

End Client.

(** [o.k1.k2...]: the value at the end of a chain of property reads. *)
Fixpoint readPath (st : state) (v : value) (ks : list string) : option value :=
  match ks with
  | [] => Some v
  | k :: ks' =>
      match v with
      | VObject l =>
          match Js.deref l st with
          | Some o => readPath st (default VUndefined (props o !! k)) ks'
          | None => None
          end
      | _ => None
      end
  end.

(** The objects a chain of property reads can arrive at. *)
Inductive reach (st : state) : loc → loc → Prop :=
| reach_here l : reach st l l
| reach_prop l o k l' l'' :
    Js.deref l st = Some o →
    props o !! k = Some (VObject l') →
    reach st l' l'' →
    reach st l l''.

(** ** Tokens ([utils-server.js])

    [jsonwebtoken] is the library's; of [jwt.verify(token, secret, cb)] and
    [jwt.sign(data, secret, cb)] the development keeps the contract: the
    callback is called once, with an error object and no data, or with
    [null] and the result. *)

Inductive outcome :=
| Succeeded (result : value)
| Failed (err : loc).

Class JsonWebToken := {
  jwt_verify : value → value → outcome;
  jwt_sign : value → value → outcome
}.

Inductive promise :=
| Pending
| Fulfilled (v : value)
| Rejected (reason : value).

Module Promise.
(** [resolve(v)] and [reject(e)]: the first settlement stays. *)
Definition resolve (v : value) (p : promise) : promise :=
  match p with
  | Pending => Fulfilled v
  | _ => p
  end.
Definition reject (e : value) (p : promise) : promise :=
  match p with
  | Pending => Rejected e
  | _ => p
  end.

(** [new Promise(executor)], once the callbacks the executor registered
    have run. *)
Definition new
    (executor : (value → promise → promise) → (value → promise → promise)
                → promise → promise) : promise :=
  executor resolve reject Pending.
End Promise.

Section Tokens.
Context `{JsonWebToken}.

(** The library delivering its result to [callback(err, data)]. *)
Definition deliver (r : outcome) (callback : value → value → promise → promise)
  : promise → promise :=
  match r with
  | Succeeded data => callback VNull data
  | Failed err => callback (VObject err) VUndefined
  end.

(** The module of [utils-server.js] once loaded: its one binding,
    [const { auth: { jwtSecret } } = getServerConfig()]. *)
Record UtilsModule := { jwtSecret : value }.

Definition loadUtilsModule (m : ConfigModule) : M UtilsModule :=
  let! c := getServerConfig m in
  let! auth := Js.getProp c "auth" in
  let! jwtSecret := Js.getField auth "jwtSecret" in
  ret {| jwtSecret := jwtSecret |}.

Definition createJWT (u : UtilsModule) (data : value) : promise :=
  Promise.new (λ resolve reject,
    deliver (jwt_sign data (jwtSecret u)) (λ err token,
      if Js.truthy err then reject err else resolve token)).

Definition readJWT (u : UtilsModule) (token : value) : promise :=
  Promise.new (λ resolve reject,
    deliver (jwt_verify token (jwtSecret u)) (λ err data,
      resolve (if Js.truthy err then VNull else data))).

End Tokens.

(** ** Vocabulary of the statements *)

(** The variable is absent: [undefined] or [null]. *)
Definition absent (st : state) (key : string) : Prop :=
  Js.nullish (default VUndefined (env st !! key)) = true.

(** The computation throws. *)
Definition fails {A} (m : M A) (st : state) : Prop := ∃ e, (m st).1 = Throw e.

(** The resolution algorithm of [readEnv] in the words of the
    specification: what a lookup resolves to. *)
Inductive resolution :=
| Resolved (v : value)
| Absent
| MissingRequiredVariable.

(** Return [defaultValue] if provided, else fail if [required], else
    return absent. *)
Definition fallbackSpec (o : ReadEnvOptions) : resolution :=
  if bool_decide (defaultValue o ≠ VUndefined) then Resolved (defaultValue o)
  else if required o then MissingRequiredVariable
  else Absent.

(** If the variable is absent, the fallback; if present, trim, and treat
    a trimmed-empty value as absent unless [allowEmpty]. *)
Definition readEnvSpec (raw : value) (o : ReadEnvOptions) : resolution :=
  if Js.nullish raw then fallbackSpec o
  else
    let trimmed := JsString.trim (Js.String_ raw) in
    if bool_decide (trimmed = "") && negb (allowEmpty o) then fallbackSpec o
    else Resolved (VString trimmed).

(** What a completion of [readEnv] means as a resolution. *)
Definition resolutionOf (c : completion value) : resolution :=
  match c with
  | Normal VUndefined => Absent
  | Normal v => Resolved v
  | Throw _ => MissingRequiredVariable
  end.

(** The calls of [readEnv] in [buildServerConfig], in order; [port] is
    the number the default URLs embed. *)
Definition readEnvCalls (port : number) : list (string * ReadEnvOptions) :=
  [ ("WORLD", isRequired);
    ("PORT", withDefault "3000");
    ("SAVE_INTERVAL", withDefault "60");
    ("JWT_SECRET", isRequired);
    ("PUBLIC_ASSETS_URL",
     withDefault ("http://localhost:" +:+ Js.numberToString port +:+ "/assets"));
    ("PUBLIC_API_URL",
     withDefault ("http://localhost:" +:+ Js.numberToString port +:+ "/api"));
    ("PUBLIC_WS_URL",
     withDefault ("ws://localhost:" +:+ Js.numberToString port +:+ "/ws"));
    ("PUBLIC_MAX_UPLOAD_SIZE", withDefault "12");
    ("ADMIN_CODE", mayBeEmpty);
    ("COMMIT_HASH", mayBeEmpty);
    ("LIVEKIT_WS_URL", mayBeEmpty);
    ("LIVEKIT_API_KEY", mayBeEmpty);
    ("LIVEKIT_API_SECRET", mayBeEmpty) ].

(** A segment that names something: not empty, not a dot segment, and
    without a separator inside. *)
Definition properSegment (seg : string) : Prop :=
  seg ≠ "" ∧ seg ≠ "." ∧ seg ≠ ".." ∧ JsString.includesChar seg "/" = false.

(** The stack of [normalizeString] when going above the root is allowed:
    proper segments on top of a run of [..]. *)
Definition climbing (acc : list string) : Prop :=
  ∃ n reals, acc = reals ++ replicate n ".." ∧ Forall properSegment reals.

(** What the loop of [buildPublicEnv] leaves at a key that held [v]:
    [String(v ?? '')]. *)
Definition stringified (v : value) : value :=
  VString (Js.String_ (Js.coalesce v (VString ""))).

(** The variables of [process.env] whose name starts with [PUBLIC_], each
    as the string the [map] of [buildPublicEnv] makes of it. *)
Definition publicRaw (e : gmap string value) : gmap string value :=
  (λ v, if Js.nullish v then VString "" else VString (Js.String_ v))
    <$> filter (λ kv, JsString.startsWith kv.1 "PUBLIC_" = true) e.

(** The values a successful construction has settled, in the order of
    [buildServerConfig]. *)
Record Settled := {
  r_worldName : string;
  r_port : number;
  r_saveInterval : number;
  r_jwtSecret : value;
  r_assetsUrl : string;
  r_apiUrl : string;
  r_wsUrl : string;
  r_maxUploadSize : number;
  r_adminCode : value;
  r_commitHash : value;
  r_lkWsUrl : value;
  r_lkApiKey : value;
  r_lkApiSecret : value
}.

Section Resolution.
Context `{URLParser}.

(** [r] holds what the validators return on the environment of [st]. *)
Definition resolves (st : state) (r : Settled) : Prop :=
  (∃ v, (readEnv "WORLD" isRequired st).1 = Normal v
        ∧ ensureRelativePath v "WORLD" = Normal (r_worldName r))
  ∧ (∃ v, (readEnv "PORT" (withDefault "3000") st).1 = Normal v
          ∧ parseInteger v "PORT"
              {| IntOpts.min := Some 1; IntOpts.max := Some 65535;
                 IntOpts.allowZero := true |} = Normal (r_port r))
  ∧ (∃ v, (readEnv "SAVE_INTERVAL" (withDefault "60") st).1 = Normal v
          ∧ parseInteger v "SAVE_INTERVAL"
              {| IntOpts.min := Some 0; IntOpts.max := None;
                 IntOpts.allowZero := true |} = Normal (r_saveInterval r))
  ∧ (readEnv "JWT_SECRET" isRequired st).1 = Normal (r_jwtSecret r)
  ∧ (∃ v, (readEnv "PUBLIC_ASSETS_URL"
             (withDefault ("http://localhost:" +:+ Js.numberToString (r_port r)
                             +:+ "/assets")) st).1 = Normal v
          ∧ normaliseUrl v "PUBLIC_ASSETS_URL" None = Normal (r_assetsUrl r))
  ∧ (∃ v, (readEnv "PUBLIC_API_URL"
             (withDefault ("http://localhost:" +:+ Js.numberToString (r_port r)
                             +:+ "/api")) st).1 = Normal v
          ∧ normaliseUrl v "PUBLIC_API_URL" None = Normal (r_apiUrl r))
  ∧ (∃ v, (readEnv "PUBLIC_WS_URL"
             (withDefault ("ws://localhost:" +:+ Js.numberToString (r_port r)
                             +:+ "/ws")) st).1 = Normal v
          ∧ normaliseUrl v "PUBLIC_WS_URL" (Some ["ws:"; "wss:"])
            = Normal (r_wsUrl r))
  ∧ (∃ v, (readEnv "PUBLIC_MAX_UPLOAD_SIZE" (withDefault "12") st).1 = Normal v
          ∧ parseInteger v "PUBLIC_MAX_UPLOAD_SIZE"
              {| IntOpts.min := Some 1; IntOpts.max := None;
                 IntOpts.allowZero := true |} = Normal (r_maxUploadSize r))
  ∧ (readEnv "ADMIN_CODE" mayBeEmpty st).1 = Normal (r_adminCode r)
  ∧ (readEnv "COMMIT_HASH" mayBeEmpty st).1 = Normal (r_commitHash r)
  ∧ (readEnv "LIVEKIT_WS_URL" mayBeEmpty st).1 = Normal (r_lkWsUrl r)
  ∧ (readEnv "LIVEKIT_API_KEY" mayBeEmpty st).1 = Normal (r_lkApiKey r)
  ∧ (readEnv "LIVEKIT_API_SECRET" mayBeEmpty st).1 = Normal (r_lkApiSecret r).
End Resolution.

(** The four derived values laid over the raw public variables. *)
Definition publicOverrides (r : Settled) : gmap string value :=
  list_to_map [
    ("PUBLIC_ASSETS_URL", VString (r_assetsUrl r));
    ("PUBLIC_API_URL", VString (r_apiUrl r));
    ("PUBLIC_WS_URL", VString (r_wsUrl r));
    ("PUBLIC_MAX_UPLOAD_SIZE", VString (Js.String_ (VNumber (r_maxUploadSize r))))].

(** The seven objects of a configuration, the first of them at address
    [base], in the order of their making: [livekit], [public.env],
    [world], [server], [auth], [public] and the configuration itself. *)
Definition configObjects (rootDir : string) (base : loc) (e : gmap string value)
    (r : Settled) : list object :=
  let worldDir := path.join [rootDir; r_worldName r] in
  [ Obj (list_to_map [
        ("wsUrl", Js.or (r_lkWsUrl r) VNull);
        ("apiKey", Js.or (r_lkApiKey r) VNull);
        ("apiSecret", Js.or (r_lkApiSecret r) VNull)]) true;
    Obj (stringified <$> (publicOverrides r ∪ publicRaw e)) true;
    Obj (list_to_map [
        ("name", VString (r_worldName r));
        ("dir", VString worldDir);
        ("assetsDir", VString (path.join [worldDir; "assets"]));
        ("collectionsDir", VString (path.join [worldDir; "collections"]))]) true;
    Obj (list_to_map [
        ("port", VNumber (r_port r));
        ("saveInterval", VNumber (r_saveInterval r))]) true;
    Obj (list_to_map [
        ("jwtSecret", r_jwtSecret r);
        ("adminCode", Js.or (r_adminCode r) VNull);
        ("hasAdminCode",
         VBool (Js.truthy (r_adminCode r)
                && bool_decide (0 < Js.length (r_adminCode r))))]) true;
    Obj (list_to_map [
        ("assetsUrl", VString (r_assetsUrl r));
        ("apiUrl", VString (r_apiUrl r));
        ("wsUrl", VString (r_wsUrl r));
        ("maxUploadSize", VNumber (r_maxUploadSize r));
        ("env", VObject (S base))]) true;
    Obj (list_to_map [
        ("rootDir", VString rootDir);
        ("world", VObject (S (S base)));
        ("server", VObject (S (S (S base))));
        ("auth", VObject (S (S (S (S base)))));
        ("public", VObject (S (S (S (S (S base))))));
        ("livekit", VObject base);
        ("commitHash", Js.or (r_commitHash r) VNull)]) true ].

(** The first value a list of properties gives to a name. *)
Fixpoint assoc (k : string) (l : list (string * value)) : option value :=
  match l with
  | [] => None
  | (k', v) :: l' => if String.eqb k' k then Some v else assoc k l'
  end.

(** A process that starts with an empty heap and the given variables. *)
Definition processWith (vars : list (string * string)) : state :=
  State [] (list_to_map (prod_map id VString <$> vars)).

(** The scheme passes the whitelist, or there is none. *)
Definition allowed (wl : option (list string)) (p : string) : bool :=
  match wl with
  | Some l => bool_decide (p ∈ l)
  | None => true
  end.

(** [r] is [x] with one trailing slash removed, if [x] had one. *)
Definition slashTrimmed (x r : string) : Prop :=
  (r = x ∧ JsString.endsWithChar x "/" = false) ∨ x = r +:+ "/".

Section UrlShapes.
Context `{URLParser}.

(** The field [r] that [normaliseUrl] makes of the trimmed input [t]: the
    serialisation of the URL that [t] parses as, its scheme passing, or
    [t] itself, which begins with a slash and does not parse; either less
    one trailing slash. *)
Definition urlField (wl : option (list string)) (t r : string) : Prop :=
  (∃ u, parseURL t = Some u ∧ allowed wl (protocol u) = true
        ∧ r = JsString.stripTrailingSlash (href u))
  ∨ (parseURL t = None ∧ JsString.startsWith t "/" = true
     ∧ r = JsString.stripTrailingSlash t).

(** A URL field in the words of the specification: an absolute URL whose
    scheme passes the whitelist, or a path that begins with a slash, and
    no trailing slash. *)
Definition urlFieldSpec (wl : option (list string)) (r : string) : Prop :=
  ((∃ u, parseURL r = Some u ∧ allowed wl (protocol u) = true)
   ∨ JsString.startsWith r "/" = true)
  ∧ JsString.endsWithChar r "/" = false.
End UrlShapes.

(** What [readEnv(key, { defaultValue })] returns for a default that is a
    string: the variable, trimmed, or the default when the variable is
    absent or blank. *)
Definition valueOr (st : state) (key dflt : string) : string :=
  let raw := default VUndefined (env st !! key) in
  if Js.nullish raw then dflt
  else
    let t := JsString.trim (Js.String_ raw) in
    if bool_decide (t = "") then dflt else t.

(** The three URL variables with their whitelists. *)
Definition urlVariables : list (string * option (list string)) :=
  [("PUBLIC_ASSETS_URL", None); ("PUBLIC_API_URL", None);
   ("PUBLIC_WS_URL", Some ["ws:"; "wss:"])].

(** A serialisation less its final slash still parses, under the same
    scheme: so it is with the URL class of the platform. *)
Definition reparses `{URLParser} : Prop :=
  ∀ t u, parseURL t = Some u →
         ∃ u', parseURL (JsString.stripTrailingSlash (href u)) = Some u'
               ∧ protocol u' = protocol u.

(** A parser for examples that knows one URL, [wss://example.com/], with
    or without its final slash. *)
Definition oneUrl : URLParser.
Proof.
  refine {| parseURL := λ s,
              if bool_decide (s ∈ ["wss://example.com/"; "wss://example.com"])
              then Some {| protocol := "wss:"; href := "wss://example.com/" |}
              else None |}.
  intros s u. case_bool_decide as Hs; [|done]. intros _.
  by repeat (apply elem_of_cons in Hs as [->|Hs]; [done|]);
    apply elem_of_nil in Hs.
Defined.

(** The names of the four derived public values. *)
Definition derivedNames : list string :=
  ["PUBLIC_ASSETS_URL"; "PUBLIC_API_URL"; "PUBLIC_WS_URL"; "PUBLIC_MAX_UPLOAD_SIZE"].

(** The object at [l] is [o], and [o] is frozen. *)
Definition frozenAt (st : state) (l : loc) (o : object) : Prop :=
  Js.deref l st = Some o ∧ frozen o = true.

(** A library for examples: under the secret [s3cret] the token [good]
    verifies, with the payload [user-1]; nothing else does, under no
    other secret, and signing under that secret gives [good]. *)
Definition sampleJwt : JsonWebToken :=
  {| jwt_verify := λ token secret,
       if bool_decide (token = VString "good")
          && bool_decide (secret = VString "s3cret")
       then Succeeded (VString "user-1")
       else Failed 0%nat;
     jwt_sign := λ _ secret,
       if bool_decide (secret = VString "s3cret") then Succeeded (VString "good")
       else Failed 0%nat |}.

(** ** Vocabulary of the further properties *)

(** The integer passes the checks of [parseInteger]. *)
Definition inBounds (o : IntOpts.t) (z : Z) : Prop :=
  (IntOpts.allowZero o = false → z ≠ 0)
  ∧ (∀ m, IntOpts.min o = Some m → m ≤ z)
  ∧ (∀ m, IntOpts.max o = Some m → z ≤ m).

(** What [readEnv(key, { allowEmpty: true }) || null] makes of a variable:
    [null] when it is absent or blank, the trimmed string otherwise. *)
Definition orNull (st : state) (key : string) : value :=
  let raw := default VUndefined (env st !! key) in
  if Js.nullish raw then VNull
  else
    let t := JsString.trim (Js.String_ raw) in
    if bool_decide (t = "") then VNull else VString t.

(** The computation returns. *)
Definition returns {A} (m : M A) (st : state) : Prop := ∃ a, (m st).1 = Normal a.

(** The variables [buildServerConfig] reads by name; it also reads every
    variable whose name starts with [PUBLIC_]. *)
Definition namedVariables : list string :=
  ["WORLD"; "PORT"; "SAVE_INTERVAL"; "JWT_SECRET"; "ADMIN_CODE"; "COMMIT_HASH";
   "LIVEKIT_WS_URL"; "LIVEKIT_API_KEY"; "LIVEKIT_API_SECRET"].

Definition relevant (k : string) : Prop :=
  k ∈ namedVariables ∨ JsString.startsWith k "PUBLIC_" = true.

(** Two states with the same heap whose environments agree on the
    variables the configuration reads. *)
Definition alike (st1 st2 : state) : Prop :=
  heap st1 = heap st2 ∧ ∀ k, relevant k → env st1 !! k = env st2 !! k.

(** The computation does not tell two such states apart. *)
Definition blind {A} (m : M A) : Prop :=
  ∀ st1 st2, alike st1 st2 → (m st1).1 = (m st2).1 ∧ alike (m st1).2 (m st2).2.

(** [p] is [root] or lies below it. *)
Definition under (root p : string) : Prop :=
  p = root ∨ JsString.startsWith p (root +:+ "/") = true.

(** The path made of the segments, with a trailing separator or not. *)
Definition relativePath (ws : list string) (trailing : bool) : string :=
  match ws with
  | [] => if trailing then "./" else "."
  | _ => JsString.join "/" ws +:+ (if trailing then "/" else "")
  end.

(** * Properties *)

(** ** The runtime model on examples *)

Example trim_spaces : JsString.trim "  a b  " = "a b".
Proof. reflexivity. Qed.

Example normalize_climbs : path.normalize "a/../../b" = "../b".
Proof. reflexivity. Qed.

Example normalize_dot : path.normalize "./a" = "a".
Proof. reflexivity. Qed.

Example normalize_absolute : path.normalize "/etc//x/./y/../" = "/etc/x/".
Proof. reflexivity. Qed.

Example normalize_above_root : path.normalize "/../../etc" = "/etc".
Proof. reflexivity. Qed.

Example join_root : path.join ["/srv/app"; "town/main"] = "/srv/app/town/main".
Proof. reflexivity. Qed.

Example parseInt_prefix : Js.parseInt10 (VString "  -42px") = Int (-42).
Proof. reflexivity. Qed.

Example parseInt_none : Js.parseInt10 (VString "px42") = NaN.
Proof. reflexivity. Qed.

(** Past 2^53 the integer read is rounded to the nearest double, a tie
    going to the even significand, and from 2^1024 on it is an infinity,
    which [parseInteger] refuses. *)
Example parseInt_rounds :
  Js.parseInt10 (VString "9007199254740993") = Int 9007199254740992.
Proof. vm_compute. reflexivity. Qed.

Example parseInt_tie_to_even :
  Js.parseInt10 (VString "9007199254740995") = Int 9007199254740996.
Proof. vm_compute. reflexivity. Qed.

Example parseInt_infinite :
  Js.parseInt10 (VString ("1" +:+ string_of_list_ascii (replicate 309 "0"%char)))
  = Infinity false.
Proof. vm_compute. reflexivity. Qed.

Example parseInteger_infinite :
  parseInteger (VString ("1" +:+ string_of_list_ascii (replicate 309 "0"%char)))
    "SAVE_INTERVAL"
    {| IntOpts.min := Some 0; IntOpts.max := None; IntOpts.allowZero := true |}
  = Throw (Error "SAVE_INTERVAL must be a valid integer").
Proof. vm_compute. reflexivity. Qed.

(** [String] prints the shortest digits that read back as the double, in
    exponent form from 1e21 on. *)
Example String_shortest :
  Js.String_ (VNumber (Js.parseInt10 (VString "12345678901234567890")))
  = "12345678901234567000".
Proof. vm_compute. reflexivity. Qed.

Example String_exponent : Js.numberToString (Int (10 ^ 21)) = "1e+21".
Proof. vm_compute. reflexivity. Qed.

Example String_exponent_digits :
  Js.String_ (VNumber (Js.parseInt10 (VString "-12345678901234567890123")))
  = "-1.2345678901234568e+22".
Proof. vm_compute. reflexivity. Qed.

Example parseInteger_port :
  parseInteger (VString "8080") "PORT"
    {| IntOpts.min := Some 1; IntOpts.max := Some 65535; IntOpts.allowZero := true |}
  = Normal (Int 8080).
Proof. reflexivity. Qed.

Example parseInteger_below :
  parseInteger (VString "0") "PORT"
    {| IntOpts.min := Some 1; IntOpts.max := Some 65535; IntOpts.allowZero := true |}
  = Throw (Error "PORT must be >= 1").
Proof. reflexivity. Qed.

Example parseInteger_above :
  parseInteger (VString "65536") "PORT"
    {| IntOpts.min := Some 1; IntOpts.max := Some 65535; IntOpts.allowZero := true |}
  = Throw (Error "PORT must be <= 65535").
Proof. reflexivity. Qed.

Example parseInteger_zero :
  parseInteger (VString "0") "N"
    {| IntOpts.min := None; IntOpts.max := None; IntOpts.allowZero := false |}
  = Throw (Error "N cannot be zero").
Proof. reflexivity. Qed.

Example parse_wss :
  Whatwg.parse "wss://example.com/"
  = Some {| protocol := "wss:"; href := "wss://example.com/" |}.
Proof. vm_compute. reflexivity. Qed.

(** The host is lowered and the empty path becomes a slash. *)
Example parse_http_host :
  Whatwg.parse "http://Example.com"
  = Some {| protocol := "http:"; href := "http://example.com/" |}.
Proof. vm_compute. reflexivity. Qed.

(** The default port of the scheme is left out. *)
Example parse_default_port :
  Whatwg.parse "ws://localhost:80/ws"
  = Some {| protocol := "ws:"; href := "ws://localhost/ws" |}.
Proof. vm_compute. reflexivity. Qed.

Example parse_trailing_dot :
  Whatwg.parse "https://Example.COM.:443/a?b#c"
  = Some {| protocol := "https:"; href := "https://example.com./a?b#c" |}.
Proof. vm_compute. reflexivity. Qed.

(** Missing slashes are supplied and dot segments resolved. *)
Example parse_lenient :
  Whatwg.parse "HTTP:example.com:8080/a/./b/../c?x=1#f"
  = Some {| protocol := "http:"; href := "http://example.com:8080/a/c?x=1#f" |}.
Proof. vm_compute. reflexivity. Qed.

Example parse_dot_dot_last :
  Whatwg.parse "http://a/b/.." = Some {| protocol := "http:"; href := "http://a/" |}.
Proof. vm_compute. reflexivity. Qed.

Example parse_double_slash :
  Whatwg.parse "http://example.com//"
  = Some {| protocol := "http:"; href := "http://example.com//" |}.
Proof. vm_compute. reflexivity. Qed.

Example parse_opaque :
  Whatwg.parse "mailto:a@b.c"
  = Some {| protocol := "mailto:"; href := "mailto:a@b.c" |}.
Proof. vm_compute. reflexivity. Qed.

Example parse_no_scheme : Whatwg.parse "/api" = None.
Proof. vm_compute. reflexivity. Qed.

Example parse_port_range : Whatwg.parse "http://localhost:65536/" = None.
Proof. vm_compute. reflexivity. Qed.

(** An IPv4 address is outside the fragment. *)
Example parse_outside_fragment : Whatwg.parse "http://127.0.0.1/" = None.
Proof. vm_compute. reflexivity. Qed.

(** With [PORT=80] the default socket URL loses its port: 80 is the
    default port of [ws:], and the serialisation leaves a default port
    out. *)
Example default_ws_url_port_80 :
  let out := buildServerConfig "/srv/hyperfy"
               (processWith [("WORLD", "town/main"); ("JWT_SECRET", "s3cret");
                             ("PORT", "80")]) in
  readPath out.2 (VObject 6%nat) ["server"; "port"] = Some (VNumber (Int 80))
  ∧ readPath out.2 (VObject 6%nat) ["public"; "wsUrl"]
    = Some (VString "ws://localhost/ws").
Proof. cbv zeta. split; vm_compute; reflexivity. Qed.

(** ** The monad *)

Lemma bind_Normal_inv {A B} (m : M A) (k : A → M B) st b st' :
  bind m k st = (Normal b, st') →
  ∃ a st1, m st = (Normal a, st1) ∧ k a st1 = (Normal b, st').
Proof.
  unfold bind. destruct (m st) as [[a|e] st1]; [eauto|discriminate].
Qed.


Lemma run_eq {A} (m : M A) st a : (m st).1 = Normal a → m st = (Normal a, (m st).2).
Proof. destruct (m st) as [c st']. by intros [= ->]. Qed.

Lemma lift_inv {A} (c : completion A) st r st' :
  lift c st = (r, st') → c = r ∧ st' = st.
Proof. by intros [= <- <-]. Qed.

(** ** Trimming *)

Lemma trimStart_head s :
  JsString.trimStart s = ""
  ∨ ∃ c t, JsString.trimStart s = String c t ∧ JsString.isWhiteSpace c = false.
Proof.
  induction s as [|c s IH]; simpl; [by left|].
  destruct (JsString.isWhiteSpace c) eqn:Hc; [done|]. right; eauto.
Qed.

Lemma trimStart_id c t :
  JsString.isWhiteSpace c = false → JsString.trimStart (String c t) = String c t.
Proof. intros Hc. simpl. by rewrite Hc. Qed.

Lemma trimEnd_idemp s : JsString.trimEnd (JsString.trimEnd s) = JsString.trimEnd s.
Proof.
  induction s as [|c s IH]; simpl; [done|].
  destruct (JsString.trimEnd s) as [|d t] eqn:Hs.
  - destruct (JsString.isWhiteSpace c) eqn:Hc; simpl; [done|]. by rewrite Hc.
  - simpl in *. by rewrite IH.
Qed.

Lemma trimEnd_head c t :
  JsString.isWhiteSpace c = false →
  ∃ t', JsString.trimEnd (String c t) = String c t'.
Proof.
  intros Hc. simpl. destruct (JsString.trimEnd t); rewrite ?Hc; eauto.
Qed.

(** Trimming twice is trimming once. *)
Lemma trim_idemp s : JsString.trim (JsString.trim s) = JsString.trim s.
Proof.
  unfold JsString.trim.
  destruct (trimStart_head s) as [->|(c & t & -> & Hc)]; [done|].
  destruct (trimEnd_head c t Hc) as [t' Ht'].
  rewrite <- (trimEnd_idemp (String c t)) at 2.
  rewrite Ht', trimStart_id by done. done.
Qed.

(** A trimmed string is blank only when it is empty. *)
Lemma blank_trim s : JsString.blank (JsString.trim s) = true → JsString.trim s = "".
Proof.
  unfold JsString.blank. rewrite trim_idemp. apply bool_decide_eq_true_1.
Qed.

(** ** [readEnv] *)

Lemma readEnv_state key o st : (readEnv key o st).2 = st.
Proof.
  unfold readEnv, bind, Js.getEnv.
  repeat (match goal with |- context [if ?b then _ else _] => destruct b end);
    reflexivity.
Qed.

Lemma readEnv_run key o st : readEnv key o st = ((readEnv key o st).1, st).
Proof. rewrite <- (readEnv_state key o st) at 3. by destruct (readEnv key o st). Qed.

Lemma readEnv_inv key o st r st' :
  readEnv key o st = (r, st') → (readEnv key o st).1 = r ∧ st' = st.
Proof. rewrite readEnv_run. by intros [= <- <-]. Qed.

Ltac readEnv_cases :=
  unfold readEnv, bind, Js.getEnv, ret, throw;
  cbn [fst snd required defaultValue allowEmpty];
  repeat match goal with
         | |- context [Js.nullish ?v] => destruct (Js.nullish v) eqn:?
         | |- context [bool_decide ?P] => destruct (bool_decide_reflect P)
         | |- context [(String.length ?s =? 0)%nat] =>
             destruct s eqn:?; cbn [String.length Nat.eqb]
         | |- context [if ?b then _ else _] => destruct b eqn:?
         end; cbn [negb andb fst snd] in *.

Lemma readEnv_agrees key o st :
  resolutionOf (readEnv key o st).1
  = readEnvSpec (default VUndefined (env st !! key)) o.
Proof.
  destruct o as [req d ae].
  unfold readEnvSpec, fallbackSpec.
  destruct req, ae; readEnv_cases; try done; try (by destruct d).
Qed.

Lemma readEnv_required_absent key st :
  absent st key →
  (readEnv key isRequired st).1
  = Throw (Error ("Environment variable " +:+ key +:+ " is required")).
Proof.
  unfold absent, readEnv, bind, Js.getEnv. cbn [fst]. by intros ->.
Qed.

(** What [readEnv] hands out with [allowEmpty] off is the default or a
    trimmed, non-empty string. *)
Lemma readEnv_value key o st v :
  (readEnv key o st).1 = Normal v →
  allowEmpty o = false →
  v = defaultValue o
  ∨ ∃ s, v = VString (JsString.trim s) ∧ JsString.trim s ≠ "".
Proof.
  destruct o as [req d ae]. cbn [allowEmpty defaultValue]. intros Hv ->. revert Hv.
  readEnv_cases; intros [= <-]; try (by left); try congruence.
  all: match goal with Ht : JsString.trim ?s = _ |- _ =>
    right; exists s; by rewrite Ht end.
Qed.

(** ** Construction that fails *)

Lemma fails_bind_l {A B} (m : M A) (k : A → M B) st :
  fails m st → fails (bind m k) st.
Proof.
  intros [e He]. exists e. unfold bind.
  destruct (m st) as [[a|e'] st']; cbn [fst] in *; congruence.
Qed.

Lemma fails_bind_readEnv {B} key o (k : value → M B) st :
  (∀ v, (readEnv key o st).1 = Normal v → fails (k v) st) →
  fails (bind (readEnv key o) k) st.
Proof.
  intros Hk. unfold fails, bind. rewrite readEnv_run.
  destruct (readEnv key o st).1 as [v|e]; [by apply Hk|by exists e].
Qed.

Lemma fails_bind_lift {A B} (c : completion A) (k : A → M B) st :
  (∀ a, c = Normal a → fails (k a) st) →
  fails (bind (lift c) k) st.
Proof.
  intros Hk. unfold fails, bind, lift.
  destruct c as [a|e]; [by apply Hk|by exists e].
Qed.

Lemma fails_readEnv_Throw {B} key o (k : value → M B) st e :
  (readEnv key o st).1 = Throw e → fails (bind (readEnv key o) k) st.
Proof. intros He. apply fails_bind_l. by exists e. Qed.

Lemma fails_lift_Throw {A B} (c : completion A) (k : A → M B) st e :
  c = Throw e → fails (bind (lift c) k) st.
Proof. intros ->. apply fails_bind_l. by exists e. Qed.

(** Walk down [buildServerConfig] to the step that throws: [tac] closes
    the goal there. *)
Ltac walk_to tac :=
  repeat first
    [ solve [tac]
    | apply fails_bind_readEnv; intros ? ?
    | apply fails_bind_lift; intros ? ? ].

Section RequiredKeys.
Context `{URLParser}.

Lemma build_fails_without_WORLD root st :
  absent st "WORLD" → fails (buildServerConfig root) st.
Proof.
  intros Ha. unfold buildServerConfig.
  eapply fails_readEnv_Throw. by apply readEnv_required_absent.
Qed.

Lemma build_fails_without_JWT_SECRET root st :
  absent st "JWT_SECRET" → fails (buildServerConfig root) st.
Proof.
  intros Ha. unfold buildServerConfig.
  walk_to ltac:(eapply fails_readEnv_Throw; by apply readEnv_required_absent).
Qed.
End RequiredKeys.

(** ** Splitting and joining *)

Lemma app_cons c s t : String c s +:+ t = String c (s +:+ t).
Proof. reflexivity. Qed.

Lemma app_empty_l t : "" +:+ t = t.
Proof. reflexivity. Qed.

Lemma split_not_nil sep s : JsString.split sep s ≠ [].
Proof.
  destruct s as [|c s]; simpl; [done|].
  case_bool_decide; [done|]. by destruct (JsString.split sep s).
Qed.

Lemma split_no_sep sep s x :
  x ∈ JsString.split sep s → JsString.includesChar x sep = false.
Proof.
  revert x. induction s as [|c s IH]; simpl; intros x Hx.
  - apply list_elem_of_singleton in Hx as ->. done.
  - case_bool_decide as Hc.
    + apply elem_of_cons in Hx as [->|Hx]; [done|by apply IH].
    + destruct (JsString.split sep s) as [|h t] eqn:Hs.
      * by destruct (split_not_nil sep s).
      * apply elem_of_cons in Hx as [->|Hx].
        -- simpl. rewrite bool_decide_eq_false_2 by done.
           apply IH. by left.
        -- apply IH. by right.
Qed.

Lemma split_whole sep x :
  JsString.includesChar x sep = false → JsString.split sep x = [x].
Proof.
  induction x as [|c x IH]; simpl; [done|].
  intros [Hc Hx]%orb_false_iff. rewrite Hc, IH; done.
Qed.

Lemma split_app sep x rest :
  JsString.includesChar x sep = false →
  JsString.split sep (x +:+ String sep rest) = x :: JsString.split sep rest.
Proof.
  induction x as [|c x IH]; intros Hx.
  - rewrite app_empty_l. simpl. by rewrite bool_decide_eq_true_2.
  - simpl in Hx. apply orb_false_iff in Hx as [Hc Hx].
    rewrite app_cons. simpl. rewrite Hc, IH; done.
Qed.

Lemma split_snoc sep s :
  JsString.split sep (s +:+ String sep "") = JsString.split sep s ++ [""].
Proof.
  induction s as [|c s IH].
  - rewrite app_empty_l. simpl. by rewrite bool_decide_eq_true_2.
  - rewrite app_cons. simpl. case_bool_decide; rewrite IH; [done|].
    destruct (JsString.split sep s) eqn:Hs; [|done].
    by destruct (split_not_nil sep s).
Qed.

(** Splitting undoes joining when no piece holds the separator. *)
Lemma split_join sep l :
  l ≠ [] →
  Forall (λ x, JsString.includesChar x sep = false) l →
  JsString.split sep (JsString.join (String sep "") l) = l.
Proof.
  intros Hl Hall. induction Hall as [|x l Hx Hall IH]; [done|].
  destruct l as [|y l].
  - simpl. by apply split_whole.
  - change (JsString.join (String sep "") (x :: y :: l))
      with (x +:+ String sep "" +:+ JsString.join (String sep "") (y :: l)).
    rewrite app_cons, app_empty_l, split_app by done.
    by rewrite IH.
Qed.

Lemma join_head_nonempty sep c x l :
  ∃ t, JsString.join sep (String c x :: l) = String c t.
Proof. destruct l; simpl; eauto. Qed.

(** ** Normalisation of a relative path *)

Lemma normalizeStep_climbing acc seg :
  JsString.includesChar seg "/" = false →
  climbing acc → climbing (path.normalizeStep true acc seg).
Proof.
  intros Hseg (n & reals & -> & Hreals). unfold path.normalizeStep.
  destruct (bool_decide_reflect (seg = "")) as [|Hne]; cbn [orb];
    [by exists n, reals|].
  destruct (bool_decide_reflect (seg = ".")) as [|Hnd]; [by exists n, reals|].
  destruct (bool_decide_reflect (seg = "..")) as [->|Hndd].
  - destruct reals as [|top reals]; cbn [app].
    + destruct n as [|n]; cbn [replicate].
      * by exists 1%nat, [].
      * rewrite bool_decide_eq_true_2 by done. by exists (S (S n)), [].
    + apply Forall_cons in Hreals as [(_ & _ & Htop & _) Hreals].
      rewrite bool_decide_eq_false_2 by done. by exists n, reals.
  - exists n, (seg :: reals). split; [done|].
    apply Forall_cons. by repeat split.
Qed.

Lemma foldl_normalizeStep_climbing segs acc :
  Forall (λ x, JsString.includesChar x "/" = false) segs →
  climbing acc → climbing (foldl (path.normalizeStep true) acc segs).
Proof.
  intros Hsegs. revert acc.
  induction Hsegs as [|seg segs Hseg _ IH]; intros acc Hacc; [done|].
  simpl. apply IH. by apply normalizeStep_climbing.
Qed.

Lemma split_segments s :
  Forall (λ x, JsString.includesChar x "/" = false) (JsString.split "/" s).
Proof. apply Forall_forall. intros x. apply split_no_sep. Qed.

Lemma startsWith_app s t p :
  JsString.startsWith s p = true → JsString.startsWith (s +:+ t) p = true.
Proof.
  unfold JsString.startsWith. revert s.
  induction p as [|a p IH]; intros [|b s]; simpl; try done.
  intros [? ?]%andb_true_iff. rewrite ?app_cons. simpl.
  apply andb_true_iff. split; [done|]. by apply IH.
Qed.

Lemma properSegment_head seg :
  properSegment seg → ∃ c t, seg = String c t ∧ c ≠ "/"%char.
Proof.
  intros (Hne & _ & _ & Hs). destruct seg as [|c t]; [done|].
  exists c, t. split; [done|]. simpl in Hs.
  apply orb_false_iff in Hs as [Hc _]. by apply bool_decide_eq_false_1 in Hc.
Qed.

Lemma properSegment_not_dotdot l :
  Forall properSegment l → ".." ∉ l.
Proof.
  intros Hl Hin. eapply Forall_forall in Hl; [|done].
  by destruct Hl as (_ & _ & Hdd & _).
Qed.

(** A relative path, once normalised, either begins with [..] or has no
    [..] segment at all and is still relative. *)
Lemma normalize_relative s :
  path.isAbsolute s = false →
  JsString.startsWith (path.normalize s) ".." = true
  ∨ ((".." ∉ JsString.split "/" (path.normalize s))
     ∧ path.isAbsolute (path.normalize s) = false).
Proof.
  intros Hrel. unfold path.normalize. rewrite Hrel. cbn [negb].
  case_bool_decide as Hs.
  { right. split; [|done]. by intros [=]%list_elem_of_singleton. }
  unfold path.normalizeString.
  pose proof (foldl_normalizeStep_climbing (JsString.split "/" s) []
                (split_segments s)) as (n & reals & Hacc & Hreals).
  { by exists 0%nat, []. }
  rewrite Hacc, reverse_app, reverse_replicate.
  destruct n as [|n].
  - (* no [..] left *)
    cbn [replicate app]. right.
    assert (Forall properSegment (reverse reals)) as Hrev.
    { by apply Forall_reverse. }
    destruct (reverse reals) as [|seg l] eqn:Hl.
    { simpl. destruct (JsString.endsWithChar s "/"); split; try done.
      - intros [[=]|[[=]|[]%elem_of_nil]%elem_of_cons]%elem_of_cons.
      - by intros [=]%list_elem_of_singleton. }
    assert (Forall (λ x, JsString.includesChar x "/" = false) (seg :: l)) as Hns.
    { eapply Forall_impl; [done|]. by intros x (_ & _ & _ & ?). }
    destruct (properSegment_head seg) as (c & t & -> & Hc).
    { by apply Forall_cons in Hrev as [? _]. }
    destruct (join_head_nonempty "/" c t l) as [q Hq].
    rewrite bool_decide_eq_false_2 by (by rewrite Hq).
    destruct (JsString.endsWithChar s "/").
    + split.
      * change "/" with (String "/"%char "") at 2.
        rewrite split_snoc, split_join by done.
        intros [Hin|[=]%list_elem_of_singleton]%elem_of_app.
        by eapply properSegment_not_dotdot.
      * rewrite Hq, app_cons. unfold path.isAbsolute, JsString.startsWith. simpl.
        by rewrite bool_decide_eq_false_2.
    + split.
      * rewrite split_join by done. by apply properSegment_not_dotdot.
      * rewrite Hq. unfold path.isAbsolute, JsString.startsWith. simpl.
        by rewrite bool_decide_eq_false_2.
  - (* the result begins with [..] *)
    left. cbn [replicate app].
    assert (JsString.startsWith
              (JsString.join "/" (".." :: replicate n ".." ++ reverse reals)) ".." = true)
      as Hq.
    { by destruct (replicate n ".." ++ reverse reals). }
    rewrite bool_decide_eq_false_2.
    + destruct (JsString.endsWithChar s "/"); [by apply startsWith_app|done].
    + intros Hnil. by rewrite Hnil in Hq.
Qed.

(** ** Objects on the heap *)

Lemma deref_new h e o : Js.deref (length h) (State (h ++ [o]) e) = Some o.
Proof. unfold Js.deref. cbn [heap]. by apply list_lookup_middle. Qed.

Lemma insert_new (h : list object) o o' : <[length h := o']> (h ++ [o]) = h ++ [o'].
Proof. rewrite insert_app_r_alt by done. by rewrite Nat.sub_diag. Qed.

Section Heap.
Context `{URLParser}.

Lemma frozenObject_run p st :
  frozenObject p st
  = (Normal (length (heap st)),
     State (heap st ++ [Obj (list_to_map p) true]) (env st)).
Proof.
  unfold frozenObject, bind, Js.newObject, Js.freeze.
  rewrite deref_new. cbn [heap env props]. by rewrite insert_new.
Qed.

Lemma getProp_run l k st o :
  Js.deref l st = Some o →
  Js.getProp l k st = (Normal (default VUndefined (props o !! k)), st).
Proof. intros Hl. unfold Js.getProp. by rewrite Hl. Qed.

Lemma setProp_run l k v st m :
  Js.deref l st = Some (Obj m false) →
  Js.setProp l k v st
  = (Normal (), State (<[l := Obj (<[k := v]> m) false]> (heap st)) (env st)).
Proof. intros Hl. unfold Js.setProp. by rewrite Hl. Qed.

Lemma deref_insert l h e o o' :
  h !! l = Some o → Js.deref l (State (<[l := o']> h) e) = Some o'.
Proof.
  intros Hl. unfold Js.deref. cbn [heap].
  apply list_lookup_insert_eq. by eapply lookup_lt_Some.
Qed.

(** One round of the loop of [buildPublicEnv] on an object that is not
    frozen. *)
Lemma publicEnv_body_run l key m st :
  Js.deref l st = Some (Obj m false) →
  (let! v := Js.getProp l key in
   let! _ := Js.setProp l key (Js.coalesce v (VString "")) in
   let! v := Js.getProp l key in
   Js.setProp l key (VString (Js.String_ v))) st
  = (Normal (),
     State (<[l := Obj (<[key := stringified (default VUndefined (m !! key))]> m) false]>
              (heap st)) (env st)).
Proof.
  intros Hl. unfold bind.
  rewrite (getProp_run _ _ _ _ Hl), (setProp_run _ _ _ _ _ Hl). cbn [props].
  pose proof (deref_insert l (heap st) (env st) _
    (Obj (<[key := Js.coalesce (default VUndefined (m !! key)) (VString "")]> m) false)
    Hl) as Hl'.
  rewrite (getProp_run _ _ _ _ Hl'), (setProp_run _ _ _ _ _ Hl').
  cbn [props heap env]. rewrite lookup_insert_eq. cbn [default].
  by rewrite list_insert_insert_eq, insert_insert_eq.
Qed.

Lemma publicEnv_loop_run l ks m st :
  Js.deref l st = Some (Obj m false) →
  Js.forOf ks (λ key,
     let! v := Js.getProp l key in
     let! _ := Js.setProp l key (Js.coalesce v (VString "")) in
     let! v := Js.getProp l key in
     Js.setProp l key (VString (Js.String_ v))) st
  = (Normal (),
     State (<[l := Obj (foldl (λ m key,
                          <[key := stringified (default VUndefined (m !! key))]> m) m ks)
                       false]> (heap st)) (env st)).
Proof.
  revert m st. induction ks as [|k ks IH]; intros m st Hl.
  - cbn [Js.forOf foldl]. unfold ret. destruct st as [h e].
    cbn [heap env]. by rewrite list_insert_id.
  - cbn [Js.forOf foldl]. unfold bind at 1.
    rewrite (publicEnv_body_run l k m st Hl).
    erewrite IH by (by eapply deref_insert).
    cbn [heap env]. by rewrite list_insert_insert_eq.
Qed.
End Heap.

(** Run over keys that are all present, the loop does to the map what
    [stringified <$>] does. *)
Lemma stringified_idemp v : stringified (stringified v) = stringified v.
Proof. reflexivity. Qed.

Lemma stringify_fold_lookup ks (m : gmap string value) k :
  (∀ k', k' ∈ ks → is_Some (m !! k')) →
  foldl (λ m key, <[key := stringified (default VUndefined (m !! key))]> m) m ks !! k
  = if bool_decide (k ∈ ks) then stringified <$> m !! k else m !! k.
Proof.
  revert m. induction ks as [|k0 ks IH]; intros m Hks; [done|].
  cbn [foldl]. rewrite IH.
  - destruct (Hks k0) as [v0 Hv0]; [by left|]. rewrite Hv0. cbn [default].
    destruct (decide (k = k0)) as [->|Hne].
    + rewrite lookup_insert_eq, Hv0. cbn [fmap option_fmap option_map].
      rewrite (bool_decide_eq_true_2 (k0 ∈ k0 :: ks)) by apply list_elem_of_here.
      by case_bool_decide.
    + rewrite lookup_insert_ne by done.
      apply (f_equal (λ b : bool, if b then stringified <$> m !! k else m !! k)).
      apply bool_decide_ext. rewrite elem_of_cons.
      split; [by right|by intros [?|?]].
  - intros k' Hk'. destruct (decide (k' = k0)) as [->|Hne].
    + rewrite lookup_insert_eq. eauto.
    + rewrite lookup_insert_ne by done. apply Hks. by right.
Qed.

Lemma stringify_fold_keys (m : gmap string value) :
  foldl (λ m key, <[key := stringified (default VUndefined (m !! key))]> m) m
        (map_to_list m).*1
  = stringified <$> m.
Proof.
  apply map_eq. intros k. rewrite stringify_fold_lookup.
  - rewrite lookup_fmap. case_bool_decide as Hk; [done|].
    destruct (m !! k) as [v|] eqn:Hv; [|done].
    destruct Hk. apply list_elem_of_fmap. exists (k, v). split; [done|].
    by apply elem_of_map_to_list.
  - intros k' ((k'' & v) & -> & Hin)%list_elem_of_fmap.
    apply elem_of_map_to_list in Hin. eauto.
Qed.

Section HeapEnv.
Context `{URLParser}.

Lemma buildPublicEnv_run overrides st :
  buildPublicEnv overrides st
  = (Normal (length (heap st)),
     State (heap st ++ [Obj (stringified <$> (overrides ∪ publicRaw (env st))) true])
           (env st)).
Proof.
  unfold buildPublicEnv. unfold bind at 1. unfold Js.envEntries at 1.
  unfold bind at 1. unfold Js.newObject at 1. cbn [heap env].
  unfold bind at 1. unfold Js.keys at 1. rewrite deref_new. cbn [props].
  unfold bind at 1.
  rewrite (publicEnv_loop_run _ _ _ _ (deref_new _ _ _)).
  cbn [heap env]. unfold Js.freeze. rewrite insert_new, deref_new.
  cbn [heap env props]. rewrite insert_new, stringify_fold_keys.
  do 4 f_equal. unfold publicRaw. rewrite map_filter_alt.
  by rewrite <- list_to_map_fmap.
Qed.
End HeapEnv.

Lemma publicRaw_lookup e k :
  publicRaw e !! k
  = if JsString.startsWith k "PUBLIC_"
    then (λ v, if Js.nullish v then VString "" else VString (Js.String_ v)) <$> e !! k
    else None.
Proof.
  unfold publicRaw. rewrite lookup_fmap, map_lookup_filter.
  destruct (e !! k) as [v|]; cbn [mbind option_bind fst].
  - destruct (JsString.startsWith k "PUBLIC_") eqn:Hk.
    + by rewrite option_guard_True.
    + by rewrite option_guard_False.
  - by destruct (JsString.startsWith k "PUBLIC_").
Qed.

(** ** A successful construction *)

Lemma freeze_run h o rest e :
  Js.freeze (length h) (State (h ++ o :: rest) e)
  = (Normal (length h), State (h ++ Obj (props o) true :: rest) e).
Proof.
  unfold Js.freeze, Js.deref. cbn [heap env].
  rewrite list_lookup_middle by done.
  rewrite <- (Nat.add_0_r (length h)) at 2. by rewrite insert_app_r.
Qed.

Section Construction.
Context `{URLParser}.

Ltac known_step Hs :=
  lazymatch type of Hs with
  | readEnv _ _ _ = _ => apply readEnv_inv in Hs as [Hs ->]
  | lift _ _ = _ => apply lift_inv in Hs as [Hs ->]
  | buildPublicEnv _ _ = _ => rewrite buildPublicEnv_run in Hs; injection Hs as <- <-
  | frozenObject _ _ = _ => rewrite frozenObject_run in Hs; injection Hs as <- <-
  | Js.newObject _ _ = _ => unfold Js.newObject in Hs; injection Hs as <- <-
  | Js.freeze _ _ = _ =>
      cbn [heap env] in Hs; rewrite <- !app_assoc in Hs; cbn [app] in Hs;
      rewrite freeze_run in Hs; injection Hs as <- <-
  end.

Ltac build_step Hb :=
  let a := fresh "a" in
  let st1 := fresh "st" in
  let Hs := fresh "Hs" in
  cbv zeta in Hb;
  apply bind_Normal_inv in Hb as (a & st1 & Hs & Hb);
  known_step Hs.


(** A construction that returns has settled every value and has put the
    seven frozen objects at the end of the heap; [process.env] is as it
    was. *)
Lemma buildServerConfig_Normal root st c st' :
  buildServerConfig root st = (Normal c, st') →
  ∃ r, resolves st r
       ∧ c = (length (heap st) + 6)%nat
       ∧ st' = State (heap st ++ configObjects root (length (heap st)) (env st) r)
                     (env st).
Proof.
  intros Hb. unfold buildServerConfig in Hb.
  do 27 build_step Hb.
  rewrite frozenObject_run in Hb. injection Hb as <- <-.
  cbn [heap env]. rewrite !length_app. cbn [length].
  rewrite ?Nat.add_succ_r, ?Nat.add_0_r.
  eexists {| r_worldName := _ |}. split; [|split].
  - unfold resolves. cbn [r_worldName r_port r_saveInterval r_jwtSecret
      r_assetsUrl r_apiUrl r_wsUrl r_maxUploadSize r_adminCode r_commitHash
      r_lkWsUrl r_lkApiKey r_lkApiSecret].
    repeat split; eauto.
  - lia.
  - rewrite <- !app_assoc. reflexivity.
Qed.

End Construction.

(** ** Reading the configuration *)

Lemma list_to_map_assoc (l : list (string * value)) k :
  (list_to_map l : gmap string value) !! k = assoc k l.
Proof.
  induction l as [|[k' v] l IH]; [done|].
  cbn [list_to_map foldr assoc uncurry fst snd].
  destruct (String.eqb_spec k' k) as [->|Hne].
  - by rewrite lookup_insert_eq.
  - by rewrite lookup_insert_ne.
Qed.

Lemma deref_config h e objs l i o :
  l = (length h + i)%nat →
  objs !! i = Some o → Js.deref l (State (h ++ objs) e) = Some o.
Proof.
  intros -> Hi. unfold Js.deref. cbn [heap].
  rewrite lookup_app_r by lia. by replace (length h + i - length h)%nat with i by lia.
Qed.

(** Reads one property of an object of a configuration. *)
Ltac read_object i :=
  erewrite (deref_config _ _ (configObjects _ _ _ _) _ i); [|lia|reflexivity].

Ltac read_config :=
  cbn [readPath];
  first [ read_object 0%nat | read_object 1%nat | read_object 2%nat
        | read_object 3%nat | read_object 4%nat | read_object 5%nat
        | read_object 6%nat ];
  cbn [props]; rewrite list_to_map_assoc;
  cbn [assoc String.eqb Ascii.eqb Bool.eqb default from_option id].

Lemma readEnv_present key o st s :
  env st !! key = Some (VString s) →
  JsString.trim s ≠ "" →
  (readEnv key o st).1 = Normal (VString (JsString.trim s)).
Proof.
  intros He Hs. unfold readEnv, bind, Js.getEnv, ret. cbn [fst]. rewrite He.
  cbn [default Js.nullish Js.String_ from_option id].
  destruct (JsString.trim s); [done|].
  cbn [String.length Nat.eqb]. by rewrite andb_false_r.
Qed.

Lemma readEnv_default key d st :
  absent st key → (readEnv key (withDefault d) st).1 = Normal (VString d).
Proof.
  unfold absent, readEnv, bind, Js.getEnv, ret. cbn [fst]. by intros ->.
Qed.

(** ** C1: the world directory *)

Lemma ensureRelativePath_unfold s key :
  ensureRelativePath (VString s) key
  = if path.isAbsolute s
    then Throw (Error (key +:+ " must be a relative path inside the repository"))
    else if JsString.startsWith (path.normalize s) ".."
         then Throw (Error (key +:+ " must not traverse outside of the repository"))
         else Normal (path.normalize s).
Proof. reflexivity. Qed.

(** An accepted path is the normal form, relative, without [..]. *)
Lemma ensureRelativePath_Normal s key r :
  ensureRelativePath (VString s) key = Normal r →
  r = path.normalize s
  ∧ path.isAbsolute r = false
  ∧ ".." ∉ JsString.split "/" r.
Proof.
  rewrite ensureRelativePath_unfold.
  destruct (path.isAbsolute s) eqn:Habs; [done|].
  destruct (JsString.startsWith (path.normalize s) "..") eqn:Hup; [done|].
  intros [= <-]. destruct (normalize_relative s Habs) as [Hp|[? ?]]; [congruence|done].
Qed.

(** An absolute path, or one with [..] left after normalisation, is
    refused. *)
Lemma ensureRelativePath_Throw s key :
  path.isAbsolute s = true ∨ ".." ∈ JsString.split "/" (path.normalize s) →
  ∃ e, ensureRelativePath (VString s) key = Throw e.
Proof.
  intros Hs. rewrite ensureRelativePath_unfold.
  destruct (path.isAbsolute s) eqn:Habs; [eauto|].
  destruct Hs as [?|Hdd]; [done|].
  destruct (normalize_relative s Habs) as [->|[? ?]]; [eauto|done].
Qed.

(** *** Joining under a normalised root *)

Lemma app_assoc_string (a b c : string) : (a +:+ b) +:+ c = a +:+ b +:+ c.
Proof. induction a as [|x a IH]; [done|]. rewrite !app_cons. by f_equal. Qed.

Lemma join_app sep l1 l2 :
  l1 ≠ [] → l2 ≠ [] →
  JsString.join sep (l1 ++ l2) = JsString.join sep l1 +:+ sep +:+ JsString.join sep l2.
Proof.
  intros Hl1 Hl2. induction l1 as [|x l1 IH]; [done|].
  destruct l1 as [|y l1].
  - destruct l2; [done|]. reflexivity.
  - change (JsString.join sep ((x :: y :: l1) ++ l2))
      with (x +:+ sep +:+ JsString.join sep ((y :: l1) ++ l2)).
    rewrite IH by done.
    change (JsString.join sep (x :: y :: l1))
      with (x +:+ sep +:+ JsString.join sep (y :: l1)).
    by rewrite !app_assoc_string.
Qed.

Lemma foldl_normalizeStep_proper allow l acc :
  Forall properSegment l →
  foldl (path.normalizeStep allow) acc l = reverse l ++ acc.
Proof.
  intros Hl. revert acc. induction Hl as [|x l (Hne & Hnd & Hndd & _) _ IH];
    intros acc; [done|].
  cbn [foldl]. rewrite IH, reverse_cons, <- app_assoc.
  unfold path.normalizeStep.
  by rewrite !bool_decide_eq_false_2.
Qed.

Lemma endsWithChar_cons c d s x :
  JsString.endsWithChar (String c (String d s)) x
  = JsString.endsWithChar (String d s) x.
Proof. reflexivity. Qed.

Lemma endsWithChar_app s t x :
  t ≠ "" → JsString.endsWithChar (s +:+ t) x = JsString.endsWithChar t x.
Proof.
  intros Ht. induction s as [|c s IH]; [done|].
  rewrite app_cons. destruct (s +:+ t) as [|d r] eqn:Hst.
  - destruct s; [by rewrite app_empty_l in Hst|done].
  - by rewrite endsWithChar_cons.
Qed.

Lemma properSegment_no_slash_end seg :
  properSegment seg → JsString.endsWithChar seg "/" = false.
Proof.
  intros (_ & _ & _ & Hs). induction seg as [|c seg IH]; [done|].
  cbn [JsString.includesChar] in Hs. apply orb_false_iff in Hs as [Hc Hs].
  destruct seg as [|d seg]; [exact Hc|].
  rewrite endsWithChar_cons. by apply IH.
Qed.

Lemma join_proper_end l :
  l ≠ [] → Forall properSegment l →
  JsString.endsWithChar (JsString.join "/" l) "/" = false.
Proof.
  intros Hl Hall. induction Hall as [|x l Hx Hall IH]; [done|].
  destruct l as [|y l].
  - by apply properSegment_no_slash_end.
  - change (JsString.join "/" (x :: y :: l))
      with (x +:+ "/" +:+ JsString.join "/" (y :: l)).
    rewrite endsWithChar_app.
    + rewrite endsWithChar_app; [by apply IH|].
      apply Forall_cons in Hall as [Hy _].
      destruct (properSegment_head y Hy) as (c & t & -> & _).
      by destruct (join_head_nonempty "/" c t l) as [q ->].
    + done.
Qed.

Lemma split_rooted x :
  JsString.split "/" ("/" +:+ x) = "" :: JsString.split "/" x.
Proof.
  change ("/" +:+ x) with (String "/" x). cbn [JsString.split].
  by rewrite bool_decide_eq_true_2.
Qed.

(** Under a normalised absolute root, joining a normalised relative path
    is putting a slash between the two. *)
Lemma join_under_root segs wsegs :
  segs ≠ [] → wsegs ≠ [] →
  Forall properSegment segs → Forall properSegment wsegs →
  path.join ["/" +:+ JsString.join "/" segs; JsString.join "/" wsegs]
  = "/" +:+ JsString.join "/" segs +:+ "/" +:+ JsString.join "/" wsegs.
Proof.
  intros Hs Hw Hsegs Hwsegs.
  assert (Forall properSegment (segs ++ wsegs)) as Hall by by apply Forall_app.
  assert (segs ++ wsegs ≠ []) as Hne by by destruct segs.
  assert (∃ c t, JsString.join "/" (segs ++ wsegs) = String c t) as (c & t & Hj).
  { destruct (segs ++ wsegs) as [|x l]; [done|].
    apply Forall_cons in Hall as [Hx _].
    destruct (properSegment_head x Hx) as (c & u & -> & _).
    destruct (join_head_nonempty "/" c u l) as [q ->]. eauto. }
  assert (∃ c t, JsString.join "/" wsegs = String c t) as (cw & tw & Hjw).
  { destruct wsegs as [|x l]; [done|].
    pose proof Hwsegs as [Hx _]%Forall_cons.
    destruct (properSegment_head x Hx) as (c' & u & -> & _).
    destruct (join_head_nonempty "/" c' u l) as [q ->]. eauto. }
  unfold path.join.
  rewrite filter_cons_True by done.
  rewrite filter_cons_True by (by rewrite Hjw).
  rewrite filter_nil.
  change (JsString.join "/" ["/" +:+ JsString.join "/" segs; JsString.join "/" wsegs])
    with (("/" +:+ JsString.join "/" segs) +:+ "/" +:+ JsString.join "/" wsegs).
  rewrite app_assoc_string, <- (join_app "/" segs wsegs) by done.
  rewrite bool_decide_eq_false_2 by done.
  unfold path.normalize. rewrite bool_decide_eq_false_2 by done.
  replace (path.isAbsolute ("/" +:+ JsString.join "/" (segs ++ wsegs))) with true
    by reflexivity.
  cbn [negb].
  replace (JsString.endsWithChar ("/" +:+ JsString.join "/" (segs ++ wsegs)) "/")
    with false.
  2: { rewrite endsWithChar_app by by rewrite Hj. symmetry. by apply join_proper_end. }
  unfold path.normalizeString.
  rewrite split_rooted, split_join; [|done|].
  2: { eapply Forall_impl; [exact Hall|]. by intros x (_ & _ & _ & ?). }
  cbn [foldl]. replace (path.normalizeStep false [] "") with (@nil string)
    by reflexivity.
  rewrite foldl_normalizeStep_proper by done.
  rewrite app_nil_r, reverse_involutive.
  by rewrite bool_decide_eq_false_2 by by rewrite Hj.
Qed.

Lemma readEnv_required_present key st w v :
  env st !! key = Some (VString w) →
  (readEnv key isRequired st).1 = Normal v →
  v = VString (JsString.trim w).
Proof.
  intros He. unfold readEnv, bind, Js.getEnv, ret, throw. cbn [fst]. rewrite He.
  cbn [default Js.nullish Js.String_ from_option id isRequired allowEmpty
       defaultValue required negb andb].
  destruct (JsString.trim w); cbn [String.length Nat.eqb]; [|by intros [= <-]].
  by rewrite bool_decide_eq_true_2.
Qed.

Lemma town_main_segments : Forall properSegment ["town"; "main"].
Proof. repeat apply Forall_cons_2; try apply Forall_nil_2; by repeat split. Qed.

Lemma assets_segment : Forall properSegment ["assets"].
Proof. repeat apply Forall_cons_2; try apply Forall_nil_2; by repeat split. Qed.

(** Under a normalised root other than the file system root, the world
    [town/main] lies at [<root>/town/main] and its assets at
    [<root>/town/main/assets]. *)
Lemma town_main_under_root segs :
  segs ≠ [] → Forall properSegment segs →
  let root := "/" +:+ JsString.join "/" segs in
  path.join [root; "town/main"] = root +:+ "/town/main"
  ∧ path.join [root +:+ "/town/main"; "assets"] = root +:+ "/town/main/assets".
Proof.
  intros Hs Hsegs root. unfold root.
  assert (path.join ["/" +:+ JsString.join "/" segs; "town/main"]
          = "/" +:+ JsString.join "/" segs +:+ "/town/main") as Hd.
  { apply (join_under_root segs ["town"; "main"] Hs); [done|done|].
    apply town_main_segments. }
  split; [by rewrite app_assoc_string|].
  assert (("/" +:+ JsString.join "/" segs) +:+ "/town/main"
          = "/" +:+ JsString.join "/" (segs ++ ["town"; "main"])) as ->.
  { rewrite (join_app "/" segs ["town"; "main"]) by done.
    by rewrite app_assoc_string. }
  pose proof (join_under_root (segs ++ ["town"; "main"]) ["assets"]) as Ha.
  change (JsString.join "/" ["assets"]) with "assets" in Ha.
  rewrite Ha.
  - rewrite (join_app "/" segs ["town"; "main"]) by done.
    rewrite !app_assoc_string. reflexivity.
  - by destruct segs.
  - done.
  - apply Forall_app. split; [done|apply town_main_segments].
  - apply assets_segment.
Qed.

Section World.
Context `{URLParser}.

Lemma world_dirs root st c st' w :
  (readEnv "WORLD" isRequired st).1 = Normal (VString w) →
  buildServerConfig root st = (Normal c, st') →
  ∃ name,
    ensureRelativePath (VString w) "WORLD" = Normal name
    ∧ readPath st' (VObject c) ["world"; "name"] = Some (VString name)
    ∧ readPath st' (VObject c) ["world"; "dir"]
      = Some (VString (path.join [root; name]))
    ∧ readPath st' (VObject c) ["world"; "assetsDir"]
      = Some (VString (path.join [path.join [root; name]; "assets"]))
    ∧ readPath st' (VObject c) ["world"; "collectionsDir"]
      = Some (VString (path.join [path.join [root; name]; "collections"])).
Proof.
  intros Hw (r & Hr & -> & ->)%buildServerConfig_Normal.
  destruct Hr as ((v & Hv & Hname) & _).
  rewrite Hw in Hv. injection Hv as <-.
  exists (r_worldName r). split; [done|].
  repeat split; read_config; by read_config.
Qed.

(** A world name that is absolute, or holds [..] once normalised, makes
    construction fail. *)
Lemma build_fails_world root st w :
  env st !! "WORLD" = Some (VString w) →
  path.isAbsolute (JsString.trim w) = true
  ∨ ".." ∈ JsString.split "/" (path.normalize (JsString.trim w)) →
  fails (buildServerConfig root) st.
Proof.
  intros He Hw. unfold buildServerConfig.
  apply fails_bind_readEnv. intros v ->%(readEnv_required_present _ _ _ _ He).
  destruct (ensureRelativePath_Throw (JsString.trim w) "WORLD" Hw) as [e Hthrow].
  by eapply fails_lift_Throw.
Qed.
End World.

(** C1.  [ensureRelativePath] throws on an absolute path and on a path
    whose normal form starts with [..], and returns the normal form
    otherwise; whatever holds a [..] segment after normalisation is thereby
    refused, construction failing, and what is accepted is relative and
    free of [..].  It refuses [/etc], [../../secrets] and [a/../../b], and
    accepts [a/b] and [./a] (as [a]).  With [WORLD=town/main], [world.dir]
    is the root joined with [town/main] and [world.assetsDir] is that
    joined with [assets]: under a normalised root, [<root>/town/main] and
    [<root>/town/main/assets]. *)
Theorem ensureRelativePath_guards `{URLParser} root st c st' :
  env st !! "WORLD" = Some (VString "town/main") →
  buildServerConfig root st = (Normal c, st') →
  (∀ s key,
     ensureRelativePath (VString s) key
     = if path.isAbsolute s
       then Throw (Error (key +:+ " must be a relative path inside the repository"))
       else if JsString.startsWith (path.normalize s) ".."
            then Throw (Error (key +:+ " must not traverse outside of the repository"))
            else Normal (path.normalize s))
  ∧ (∀ s key,
       path.isAbsolute s = true ∨ ".." ∈ JsString.split "/" (path.normalize s) →
       ∃ e, ensureRelativePath (VString s) key = Throw e)
  ∧ (∀ st0 w,
       env st0 !! "WORLD" = Some (VString w) →
       path.isAbsolute (JsString.trim w) = true
       ∨ ".." ∈ JsString.split "/" (path.normalize (JsString.trim w)) →
       fails (buildServerConfig root) st0)
  ∧ (∀ s key r,
       ensureRelativePath (VString s) key = Normal r →
       r = path.normalize s ∧ path.isAbsolute r = false
       ∧ ".." ∉ JsString.split "/" r)
  ∧ ensureRelativePath (VString "/etc") "WORLD"
    = Throw (Error "WORLD must be a relative path inside the repository")
  ∧ ensureRelativePath (VString "../../secrets") "WORLD"
    = Throw (Error "WORLD must not traverse outside of the repository")
  ∧ path.normalize "a/../../b" = "../b"
  ∧ ensureRelativePath (VString "a/../../b") "WORLD"
    = Throw (Error "WORLD must not traverse outside of the repository")
  ∧ ensureRelativePath (VString "a/b") "WORLD" = Normal "a/b"
  ∧ ensureRelativePath (VString "./a") "WORLD" = Normal "a"
  ∧ readPath st' (VObject c) ["world"; "dir"]
    = Some (VString (path.join [root; "town/main"]))
  ∧ readPath st' (VObject c) ["world"; "assetsDir"]
    = Some (VString (path.join [path.join [root; "town/main"]; "assets"]))
  ∧ (∀ segs,
       segs ≠ [] → Forall properSegment segs →
       root = "/" +:+ JsString.join "/" segs →
       readPath st' (VObject c) ["world"; "dir"]
       = Some (VString (root +:+ "/town/main"))
       ∧ readPath st' (VObject c) ["world"; "assetsDir"]
         = Some (VString (root +:+ "/town/main/assets"))).
Proof.
  intros Hw Hb.
  split; [exact ensureRelativePath_unfold|].
  split; [exact ensureRelativePath_Throw|].
  split; [intros st0 w; apply build_fails_world|].
  split; [exact ensureRelativePath_Normal|].
  do 6 (split; [reflexivity|]).
  destruct (world_dirs root st c st' "town/main") as (name & Hn & _ & Hd & Ha & _);
    [|done|].
  - by apply (readEnv_present "WORLD" isRequired st "town/main").
  - injection Hn as <-. split; [done|]. split; [done|].
    intros segs Hs Hsegs ->.
    destruct (town_main_under_root segs Hs Hsegs) as [Hj1 Hj2].
    cbv zeta in Hj1, Hj2. rewrite Hd, Ha.
    change (path.normalize "town/main") with "town/main".
    by rewrite Hj1, Hj2.
Qed.

(** With the root [/srv/hyperfy] the two directories are
    [/srv/hyperfy/town/main] and [/srv/hyperfy/town/main/assets]. *)
Lemma ensureRelativePath_guards_witness :
  let st := processWith [("WORLD", "town/main"); ("JWT_SECRET", "s3cret")] in
  let out := buildServerConfig "/srv/hyperfy" st in
  out.1 = Normal 6%nat
  ∧ readPath out.2 (VObject 6%nat) ["world"; "dir"]
    = Some (VString "/srv/hyperfy/town/main")
  ∧ readPath out.2 (VObject 6%nat) ["world"; "assetsDir"]
    = Some (VString "/srv/hyperfy/town/main/assets").
Proof.
  intros st out.
  assert (out.1 = Normal 6%nat) as Hout by (vm_compute; reflexivity).
  split; [exact Hout|].
  destruct (ensureRelativePath_guards (H := whatwg) "/srv/hyperfy" st 6%nat out.2)
    as (_ & _ & _ & _ & _ & _ & _ & _ & _ & _ & Hd & Ha & _).
  - vm_compute. reflexivity.
  - by apply run_eq.
  - rewrite Hd, Ha. split; vm_compute; reflexivity.
Defined.

(** ** C2: resolution of a variable *)

Lemma blank_head c t :
  JsString.isWhiteSpace c = false → JsString.blank (String c t) = false.
Proof.
  intros Hc. unfold JsString.blank, JsString.trim. rewrite trimStart_id by done.
  destruct (trimEnd_head c t Hc) as [t' ->]. by apply bool_decide_eq_false_2.
Qed.

(** No call of [readEnv] passes a blank default. *)
Lemma readEnvCalls_defaults port key o d :
  (key, o) ∈ readEnvCalls port → defaultValue o = VString d → JsString.blank d = false.
Proof.
  unfold readEnvCalls. intros Hin Hd.
  repeat (apply elem_of_cons in Hin as [[= -> ->]|Hin];
          [first [ discriminate Hd
                 | injection Hd as <-; first [reflexivity | by apply blank_head] ]|]).
  by apply elem_of_nil in Hin.
Qed.

(** With [allowEmpty] off and no blank default, what [readEnv] returns is
    not blank. *)
Lemma readEnv_not_blank key o st s :
  (readEnv key o st).1 = Normal (VString s) →
  allowEmpty o = false →
  (∀ d, defaultValue o = VString d → JsString.blank d = false) →
  JsString.blank s = false.
Proof.
  intros Hs Hae Hd.
  destruct (readEnv_value key o st _ Hs Hae) as [Hdef|(s' & [= ->] & Hne)].
  - by apply Hd.
  - destruct (JsString.blank (JsString.trim s')) eqn:Hb; [|done].
    by apply blank_trim in Hb.
Qed.

Section Calls.
Context `{URLParser}.

(** In a construction that returns, every call of [readEnv] returned. *)
Lemma resolves_calls st r key o :
  resolves st r → (key, o) ∈ readEnvCalls (r_port r) →
  ∃ v, (readEnv key o st).1 = Normal v.
Proof.
  intros ((vw & Hw & _) & (vp & Hp & _) & (vs & Hs & _) & Hj & (va & Ha & _)
          & (vi & Hi & _) & (vx & Hx & _) & (vu & Hu & _) & Hadmin & Hcommit
          & Hlw & Hlk & Hls) Hin.
  unfold readEnvCalls in Hin.
  repeat (apply elem_of_cons in Hin as [[= -> ->]|Hin]; [eauto|]).
  by apply elem_of_nil in Hin.
Qed.
End Calls.

(** C2.  [readEnv] leaves the state alone and resolves a key the way the
    specification words it: absent gives the default when there is one,
    else a failure when required, else absent; present is trimmed, and
    trimmed-empty without [allowEmpty] is treated as absent.  Leaving out
    [WORLD] or [JWT_SECRET] makes construction fail.  With [allowEmpty]
    false and a default that is not blank, [readEnv] returns no blank
    string; no call in [buildServerConfig] passes a blank default, so in
    a construction that returns each of the thirteen calls has returned,
    and those without [allowEmpty] have returned no blank string. *)
Theorem readEnv_resolution `{URLParser} key o st root :
  (readEnv key o st).2 = st
  ∧ resolutionOf (readEnv key o st).1
    = readEnvSpec (default VUndefined (env st !! key)) o
  ∧ (absent st "WORLD" ∨ absent st "JWT_SECRET" →
     fails (buildServerConfig root) st)
  ∧ (∀ s, (readEnv key o st).1 = Normal (VString s) →
          allowEmpty o = false →
          (∀ d, defaultValue o = VString d → JsString.blank d = false) →
          JsString.blank s = false)
  ∧ (∀ port key' o' d,
       (key', o') ∈ readEnvCalls port →
       defaultValue o' = VString d → JsString.blank d = false)
  ∧ (∀ c st',
       buildServerConfig root st = (Normal c, st') →
       ∃ port,
         readPath st' (VObject c) ["server"; "port"] = Some (VNumber port)
         ∧ ∀ key' o',
             (key', o') ∈ readEnvCalls port →
             ∃ v, (readEnv key' o' st).1 = Normal v
                  ∧ (allowEmpty o' = false →
                     ∀ s, v = VString s → JsString.blank s = false)).
Proof.
  split; [apply readEnv_state|].
  split; [apply readEnv_agrees|].
  split.
  { intros [?|?];
      [by apply build_fails_without_WORLD|by apply build_fails_without_JWT_SECRET]. }
  split; [intros s; apply readEnv_not_blank|].
  split; [exact readEnvCalls_defaults|].
  intros c st' (r & Hr & -> & ->)%buildServerConfig_Normal.
  exists (r_port r). split; [read_config; by read_config|].
  intros key' o' Hin. destruct (resolves_calls st r key' o' Hr Hin) as [v Hv].
  exists v. split; [done|]. intros Hae s ->.
  eapply readEnv_not_blank; [exact Hv|exact Hae|].
  intros d. by apply (readEnvCalls_defaults (r_port r) key').
Qed.

(** Without [WORLD] construction fails; with [WORLD] and [JWT_SECRET], and
    a blank [PORT], the lookup of [PORT] returns its default. *)
Lemma readEnv_resolution_witness :
  let st := processWith [("WORLD", "town/main"); ("JWT_SECRET", "s3cret");
                         ("PORT", "  ")] in
  let out := buildServerConfig "/srv/hyperfy" st in
  fails (buildServerConfig "/srv/hyperfy") (processWith [("JWT_SECRET", "s3cret")])
  ∧ out.1 = Normal 6%nat
  ∧ ∃ v, (readEnv "PORT" (withDefault "3000") st).1 = Normal v
         ∧ ∀ s, v = VString s → JsString.blank s = false.
Proof.
  intros st out. split.
  - apply (readEnv_resolution (H := whatwg) "WORLD" isRequired
             (processWith [("JWT_SECRET", "s3cret")]) "/srv/hyperfy").
    left. vm_compute. reflexivity.
  - assert (out.1 = Normal 6%nat) as Hout by (vm_compute; reflexivity).
    split; [exact Hout|].
    destruct (readEnv_resolution (H := whatwg) "PORT" (withDefault "3000") st
                "/srv/hyperfy") as (_ & _ & _ & _ & _ & Hcalls).
    destruct (Hcalls 6%nat out.2 (run_eq _ _ _ Hout)) as (port & _ & Hall).
    destruct (Hall "PORT" (withDefault "3000")) as (v & Hv & Hb).
    + apply list_elem_of_further, list_elem_of_here.
    + exists v. split; [exact Hv|]. by apply Hb.
Defined.

(** ** URLs *)

Lemma stripTrailingSlash_trimmed x : slashTrimmed x (JsString.stripTrailingSlash x).
Proof.
  unfold slashTrimmed. induction x as [|c x IH]; [by left|].
  destruct x as [|d x].
  - cbn [JsString.stripTrailingSlash JsString.endsWithChar].
    case_bool_decide as Hc; [right; by subst|by left].
  - change (JsString.stripTrailingSlash (String c (String d x)))
      with (String c (JsString.stripTrailingSlash (String d x))).
    change (JsString.endsWithChar (String c (String d x)) "/")
      with (JsString.endsWithChar (String d x) "/").
    destruct IH as [[-> ?]|Hx]; [by left|right].
    rewrite app_cons. by f_equal.
Qed.

Lemma endsWithChar_snoc r c : JsString.endsWithChar (r +:+ String c "") c = true.
Proof.
  induction r as [|d r IH].
  - rewrite app_empty_l. cbn. by rewrite bool_decide_eq_true_2.
  - rewrite app_cons. destruct r as [|e r]; [|exact IH].
    rewrite app_empty_l. cbn. by rewrite bool_decide_eq_true_2.
Qed.

(** A stripped string still ends with a slash only when the string ended
    with two. *)
Lemma slashTrimmed_trailing x r :
  slashTrimmed x r → JsString.endsWithChar r "/" = true →
  ∃ y, x = y +:+ "//".
Proof.
  intros [[-> Hx]| ->] Hr; [congruence|].
  assert (∃ y, r = y +:+ "/") as [y ->].
  { clear -Hr. induction r as [|c r IH]; [done|].
    destruct r as [|d r].
    - cbn in Hr. apply bool_decide_eq_true_1 in Hr as ->. by exists "".
    - destruct IH as [y Hy]; [done|]. exists (String c y).
      by rewrite app_cons, Hy. }
  exists y. clear. induction y as [|c y IH]; [done|].
  rewrite !app_cons. by f_equal.
Qed.

(** Stripping a string that begins with a slash leaves nothing, when the
    string is the slash alone, or a string that begins with a slash. *)
Lemma stripTrailingSlash_rooted t :
  JsString.startsWith t "/" = true →
  (t = "/" ∧ JsString.stripTrailingSlash t = "")
  ∨ JsString.startsWith (JsString.stripTrailingSlash t) "/" = true.
Proof.
  destruct t as [|c [|d t]]; [done| |].
  - unfold JsString.startsWith. cbn [JsString.isPrefix].
    rewrite andb_true_r. intros <-%bool_decide_eq_true_1. left. by split.
  - intros Ht. right.
    change (JsString.stripTrailingSlash (String c (String d t)))
      with (String c (JsString.stripTrailingSlash (String d t))).
    revert Ht. unfold JsString.startsWith. cbn [JsString.isPrefix].
    by rewrite !andb_true_r.
Qed.

Section Urls.
Context `{URLParser}.

Lemma normaliseUrl_unfold s key wl :
  normaliseUrl (VString s) key wl
  = let t := JsString.trim s in
    match parseURL t with
    | Some u =>
        if allowed wl (protocol u)
        then Normal (JsString.stripTrailingSlash (href u))
        else Throw (Error (key +:+ " must be a valid absolute URL or start with '/'"))
    | None =>
        if JsString.startsWith t "/"
        then Normal (JsString.stripTrailingSlash t)
        else Throw (Error (key +:+ " must be a valid absolute URL or start with '/'"))
    end.
Proof.
  unfold normaliseUrl, normaliseUrlTry, normaliseUrlCatch, new_URL.
  cbv zeta. destruct (parseURL (JsString.trim s)) as [u|] eqn:Hu; [|done].
  cbn [bindC tryCatch]. unfold allowed.
  destruct wl as [l|]; [|done].
  destruct (bool_decide (protocol u ∈ l)); [done|].
  cbn [negb throwIf bindC tryCatch]. by rewrite (parseURL_not_rooted _ _ Hu).
Qed.

(** The protocol error thrown in the [try] block never leaves
    [normaliseUrl]: the [catch] block replaces it. *)
Lemma normaliseUrl_masks s key l u :
  parseURL (JsString.trim s) = Some u →
  protocol u ∉ l →
  normaliseUrlTry (JsString.trim s) key (Some l)
  = Throw (Error (key +:+ " must use one of the following protocols: "
                    +:+ JsString.join ", " l))
  ∧ JsString.startsWith (JsString.trim s) "/" = false
  ∧ normaliseUrl (VString s) key (Some l)
    = Throw (Error (key +:+ " must be a valid absolute URL or start with '/'")).
Proof.
  intros Hu Hl. split; [|split].
  - unfold normaliseUrlTry, new_URL. rewrite Hu. cbn [bindC].
    by rewrite bool_decide_eq_false_2.
  - by eapply parseURL_not_rooted.
  - rewrite normaliseUrl_unfold. cbv zeta. rewrite Hu. unfold allowed.
    by rewrite bool_decide_eq_false_2.
Qed.

Lemma normaliseUrl_Normal v key wl r :
  normaliseUrl v key wl = Normal r →
  ∃ s, v = VString s
       ∧ ((∃ u, parseURL (JsString.trim s) = Some u
                ∧ allowed wl (protocol u) = true
                ∧ r = JsString.stripTrailingSlash (href u))
          ∨ (parseURL (JsString.trim s) = None
             ∧ JsString.startsWith (JsString.trim s) "/" = true
             ∧ r = JsString.stripTrailingSlash (JsString.trim s))).
Proof.
  destruct v as [| | | |s|]; try done. rewrite normaliseUrl_unfold. cbv zeta.
  intros Hr. exists s. split; [done|].
  destruct (parseURL (JsString.trim s)) as [u|].
  - destruct (allowed wl (protocol u)) eqn:Ha; [|done].
    injection Hr as <-. left. by exists u.
  - destruct (JsString.startsWith (JsString.trim s) "/") eqn:Hs; [|done].
    injection Hr as <-. by right.
Qed.

(** Whatever is neither throws. *)
Lemma normaliseUrl_Throw v key wl :
  (∀ s, v = VString s →
        (∀ u, parseURL (JsString.trim s) = Some u → allowed wl (protocol u) = false)
        ∧ (parseURL (JsString.trim s) = None →
           JsString.startsWith (JsString.trim s) "/" = false)) →
  ∃ e, normaliseUrl v key wl = Throw e.
Proof.
  intros Hv. destruct (normaliseUrl v key wl) as [r|e] eqn:Hr; [|eauto].
  apply normaliseUrl_Normal in Hr as (s & -> & [(u & Hu & Ha & _)|(Hu & Hs & _)]);
    destruct (Hv s eq_refl) as [H1 H2].
  - by rewrite (H1 u Hu) in Ha.
  - by rewrite (H2 Hu) in Hs.
Qed.

Lemma normaliseUrl_urlField v key wl r :
  normaliseUrl v key wl = Normal r →
  ∃ s, v = VString s ∧ urlField wl (JsString.trim s) r.
Proof.
  intros (s & -> & Hr)%normaliseUrl_Normal. exists s. split; [done|].
  destruct Hr as [(u & Hu & Ha & ->)|(Hu & Hs & ->)]; [left; by exists u|by right].
Qed.

(** An input of which [normaliseUrl] makes no field throws. *)
Lemma normaliseUrl_no_field s key wl :
  (∀ r, ¬ urlField wl (JsString.trim s) r) →
  ∃ e, normaliseUrl (VString s) key wl = Throw e.
Proof.
  intros Hno. destruct (normaliseUrl (VString s) key wl) as [r|e] eqn:Hr; [|eauto].
  apply normaliseUrl_urlField in Hr as (s' & [= <-] & Hf). by destruct (Hno r).
Qed.

Lemma readEnv_withDefault key d st :
  (readEnv key (withDefault d) st).1 = Normal (VString (valueOr st key d)).
Proof.
  unfold readEnv, valueOr, bind, Js.getEnv, ret. cbv zeta.
  cbn [fst withDefault allowEmpty defaultValue negb andb].
  destruct (Js.nullish _); [done|].
  destruct (JsString.trim _) as [|a t]; [done|].
  by rewrite bool_decide_eq_false_2.
Qed.

(** The three URL fields of a configuration are what [normaliseUrl] makes
    of the variables, or of the defaults with the port. *)
Lemma config_url_fields root st c st' :
  buildServerConfig root st = (Normal c, st') →
  ∃ port a p w,
    readPath st' (VObject c) ["server"; "port"] = Some (VNumber port)
    ∧ readPath st' (VObject c) ["public"; "assetsUrl"] = Some (VString a)
    ∧ readPath st' (VObject c) ["public"; "apiUrl"] = Some (VString p)
    ∧ readPath st' (VObject c) ["public"; "wsUrl"] = Some (VString w)
    ∧ urlField None
        (JsString.trim (valueOr st "PUBLIC_ASSETS_URL"
           ("http://localhost:" +:+ Js.numberToString port +:+ "/assets"))) a
    ∧ urlField None
        (JsString.trim (valueOr st "PUBLIC_API_URL"
           ("http://localhost:" +:+ Js.numberToString port +:+ "/api"))) p
    ∧ urlField (Some ["ws:"; "wss:"])
        (JsString.trim (valueOr st "PUBLIC_WS_URL"
           ("ws://localhost:" +:+ Js.numberToString port +:+ "/ws"))) w.
Proof.
  intros (r & Hr & -> & ->)%buildServerConfig_Normal.
  destruct Hr as (_ & _ & _ & _ & (va & Hva & Ha) & (vp & Hvp & Hp)
                  & (vw & Hvw & Hw) & _).
  rewrite readEnv_withDefault in Hva, Hvp, Hvw.
  injection Hva as <-. injection Hvp as <-. injection Hvw as <-.
  apply normaliseUrl_urlField in Ha as (sa & [= <-] & Ha).
  apply normaliseUrl_urlField in Hp as (sp & [= <-] & Hp).
  apply normaliseUrl_urlField in Hw as (sw & [= <-] & Hw).
  exists (r_port r), (r_assetsUrl r), (r_apiUrl r), (r_wsUrl r).
  split; [read_config; by read_config|].
  split; [read_config; by read_config|].
  split; [read_config; by read_config|].
  split; [read_config; by read_config|].
  done.
Qed.

(** A URL variable of which [normaliseUrl] makes no field makes
    construction fail. *)
Lemma build_fails_url root st key wl s :
  (key, wl) ∈ urlVariables →
  env st !! key = Some (VString s) →
  JsString.trim s ≠ "" →
  (∀ r, ¬ urlField wl (JsString.trim s) r) →
  fails (buildServerConfig root) st.
Proof.
  intros Hin He Hne Hno.
  destruct (normaliseUrl_no_field (JsString.trim s) key wl) as [e Hthrow].
  { by rewrite trim_idemp. }
  unfold urlVariables in Hin. unfold buildServerConfig.
  repeat (apply elem_of_cons in Hin as [[= -> ->]|Hin]);
    [..|by apply elem_of_nil in Hin];
    walk_to ltac:(
      idtac;
      match goal with
      | Hr : (readEnv ?k _ st).1 = Normal ?v |- _ =>
          rewrite (readEnv_present _ _ _ _ He Hne) in Hr; injection Hr as <-;
          eapply fails_lift_Throw; exact Hthrow
      end).
Qed.
End Urls.

(** ** C3: the shape of the URL fields *)

(** C3 (as stated, refuted).  With [PUBLIC_ASSETS_URL=/] and
    [PUBLIC_API_URL=/api//] construction succeeds; [public.assetsUrl] is
    the empty string, which is no absolute URL and does not begin with a
    slash, and [public.apiUrl] is [/api/], which carries a trailing
    slash. *)
Lemma normaliseUrl_slash_fields :
  let st := processWith [("WORLD", "town/main"); ("JWT_SECRET", "s3cret");
                         ("PUBLIC_ASSETS_URL", "/"); ("PUBLIC_API_URL", "/api//")] in
  let out := buildServerConfig "/srv/hyperfy" st in
  out.1 = Normal 6%nat
  ∧ readPath out.2 (VObject 6%nat) ["public"; "assetsUrl"] = Some (VString "")
  ∧ ¬ urlFieldSpec None ""
  ∧ readPath out.2 (VObject 6%nat) ["public"; "apiUrl"] = Some (VString "/api/")
  ∧ ¬ urlFieldSpec None "/api/".
Proof.
  cbv zeta. split; [vm_compute; reflexivity|].
  split; [vm_compute; reflexivity|].
  split; [intros [[(u & Hu & _)|Hs] _]; [vm_compute in Hu|]; discriminate|].
  split; [vm_compute; reflexivity|].
  intros [_ He]. vm_compute in He. discriminate.
Qed.

(** C3 (amended).  In a configuration that was built, each of
    [public.assetsUrl], [public.apiUrl] and [public.wsUrl] is what
    [normaliseUrl] makes of its variable, trimmed, or of its default with
    the port when the variable is absent or blank: the serialisation of
    the absolute URL that the input parses as, whose scheme passes the
    whitelist (when one is given), or the input itself, which begins with
    a slash and is no absolute URL, in either case with one trailing slash
    removed if there was one.  So the field still ends with a slash only
    when the string ended with two, and a root-relative input gives the
    empty string when it is the slash alone and a string that begins with
    a slash otherwise.  Where a serialisation less its final slash still
    parses under the same scheme, the field of an absolute URL is itself
    an absolute URL whose scheme passes the whitelist.  A variable of which
    [normaliseUrl] makes no field makes construction fail. *)
Theorem normaliseUrl_fields `{URLParser} root st :
  (∀ c st',
     buildServerConfig root st = (Normal c, st') →
     ∃ port a p w,
       readPath st' (VObject c) ["server"; "port"] = Some (VNumber port)
       ∧ readPath st' (VObject c) ["public"; "assetsUrl"] = Some (VString a)
       ∧ readPath st' (VObject c) ["public"; "apiUrl"] = Some (VString p)
       ∧ readPath st' (VObject c) ["public"; "wsUrl"] = Some (VString w)
       ∧ urlField None
           (JsString.trim (valueOr st "PUBLIC_ASSETS_URL"
              ("http://localhost:" +:+ Js.numberToString port +:+ "/assets"))) a
       ∧ urlField None
           (JsString.trim (valueOr st "PUBLIC_API_URL"
              ("http://localhost:" +:+ Js.numberToString port +:+ "/api"))) p
       ∧ urlField (Some ["ws:"; "wss:"])
           (JsString.trim (valueOr st "PUBLIC_WS_URL"
              ("ws://localhost:" +:+ Js.numberToString port +:+ "/ws"))) w)
  ∧ (∀ wl t r,
       urlField wl t r →
       (∀ u, parseURL t = Some u →
             allowed wl (protocol u) = true
             ∧ slashTrimmed (href u) r
             ∧ (JsString.endsWithChar r "/" = true → ∃ y, href u = y +:+ "//"))
       ∧ (parseURL t = None →
          JsString.startsWith t "/" = true
          ∧ slashTrimmed t r
          ∧ ((t = "/" ∧ r = "") ∨ JsString.startsWith r "/" = true)
          ∧ (JsString.endsWithChar r "/" = true → ∃ y, t = y +:+ "//")))
  ∧ (reparses →
     ∀ wl t r u,
       urlField wl t r → parseURL t = Some u →
       ∃ u', parseURL r = Some u' ∧ allowed wl (protocol u') = true)
  ∧ (∀ key wl s,
       (key, wl) ∈ urlVariables →
       env st !! key = Some (VString s) →
       JsString.trim s ≠ "" →
       (∀ r, ¬ urlField wl (JsString.trim s) r) →
       fails (buildServerConfig root) st).
Proof.
  split; [intros c st'; apply config_url_fields|].
  split.
  { intros wl t r Hf. split.
    - intros u Hu. destruct Hf as [(u' & Hu' & Ha & ->)|(Hn & _)]; [|congruence].
      rewrite Hu in Hu'. injection Hu' as <-.
      split; [done|]. split; [apply stripTrailingSlash_trimmed|].
      apply slashTrimmed_trailing, stripTrailingSlash_trimmed.
    - intros Hn. destruct Hf as [(u' & Hu' & _)|(_ & Hs & ->)]; [congruence|].
      split; [done|]. split; [apply stripTrailingSlash_trimmed|].
      split.
      + destruct (stripTrailingSlash_rooted t Hs) as [[-> ->]|Hr]; [by left|by right].
      + apply slashTrimmed_trailing, stripTrailingSlash_trimmed. }
  split.
  { intros Hlaw wl t r u Hf Hu.
    destruct Hf as [(u0 & Hu0 & Ha & ->)|(Hn & _)]; [|congruence].
    rewrite Hu in Hu0. injection Hu0 as <-.
    destruct (Hlaw t u Hu) as (u' & Hu' & Hp). exists u'. by rewrite Hp. }
  intros key wl s. apply build_fails_url.
Qed.

(** A configuration with a root-relative assets URL, an absolute API URL
    and the default socket URL; an API URL that is neither, on which
    construction fails; and, with the parser that knows one URL,
    [wss://example.com/], whose field is an absolute URL itself. *)
Lemma normaliseUrl_fields_witness :
  let st := processWith [("WORLD", "town/main"); ("JWT_SECRET", "s3cret");
                         ("PUBLIC_ASSETS_URL", " /assets/ ");
                         ("PUBLIC_API_URL", "https://example.com/api/")] in
  let out := buildServerConfig "/srv/hyperfy" st in
  out.1 = Normal 6%nat
  ∧ readPath out.2 (VObject 6%nat) ["public"; "assetsUrl"] = Some (VString "/assets")
  ∧ readPath out.2 (VObject 6%nat) ["public"; "apiUrl"]
    = Some (VString "https://example.com/api")
  ∧ readPath out.2 (VObject 6%nat) ["public"; "wsUrl"]
    = Some (VString "ws://localhost:3000/ws")
  ∧ urlField None "/assets/" "/assets"
  ∧ urlField None "https://example.com/api/" "https://example.com/api"
  ∧ urlField (Some ["ws:"; "wss:"]) "ws://localhost:3000/ws" "ws://localhost:3000/ws"
  ∧ fails (buildServerConfig "/srv/hyperfy")
      (processWith [("WORLD", "town/main"); ("JWT_SECRET", "s3cret");
                    ("PUBLIC_API_URL", "api")])
  ∧ ∃ u', parseURL (URLParser := oneUrl) "wss://example.com" = Some u'
          ∧ allowed (Some ["ws:"; "wss:"]) (protocol u') = true.
Proof.
  intros st out.
  assert (out.1 = Normal 6%nat) as Hout by (vm_compute; reflexivity).
  split; [exact Hout|].
  destruct (normaliseUrl_fields (H := whatwg) "/srv/hyperfy" st) as (Hfields & _).
  destruct (Hfields 6%nat out.2 (run_eq _ _ _ Hout))
    as (port & a & p & w & Hport & Ha & Hp & Hw & Hfa & Hfp & Hfw).
  assert (readPath out.2 (VObject 6%nat) ["server"; "port"]
          = Some (VNumber (Int 3000))) as Hport' by (vm_compute; reflexivity).
  assert (readPath out.2 (VObject 6%nat) ["public"; "assetsUrl"]
          = Some (VString "/assets")) as Ha' by (vm_compute; reflexivity).
  assert (readPath out.2 (VObject 6%nat) ["public"; "apiUrl"]
          = Some (VString "https://example.com/api")) as Hp'
    by (vm_compute; reflexivity).
  assert (readPath out.2 (VObject 6%nat) ["public"; "wsUrl"]
          = Some (VString "ws://localhost:3000/ws")) as Hw'
    by (vm_compute; reflexivity).
  rewrite Hport' in Hport. injection Hport as <-.
  rewrite Ha' in Ha. injection Ha as <-.
  rewrite Hp' in Hp. injection Hp as <-.
  rewrite Hw' in Hw. injection Hw as <-.
  split; [exact Ha'|]. split; [exact Hp'|]. split; [exact Hw'|].
  split; [exact Hfa|]. split; [exact Hfp|]. split; [exact Hfw|].
  split.
  - destruct (normaliseUrl_fields (H := whatwg) "/srv/hyperfy"
                (processWith [("WORLD", "town/main"); ("JWT_SECRET", "s3cret");
                              ("PUBLIC_API_URL", "api")])) as (_ & _ & _ & Hfail).
    apply (Hfail "PUBLIC_API_URL" None "api").
    + apply list_elem_of_further, list_elem_of_here.
    + reflexivity.
    + discriminate.
    + intros r [(u & Hu & _)|(_ & Hs & _)]; discriminate.
  - destruct (normaliseUrl_fields (H := oneUrl) "/srv/hyperfy" st)
      as (_ & _ & Habs & _).
    apply (Habs ltac:(intros t u Hu; unfold parseURL, oneUrl in *;
                      case_bool_decide; [injection Hu as <-|discriminate];
                      eexists; split; reflexivity)
                (Some ["ws:"; "wss:"]) "wss://example.com/" "wss://example.com"
                {| protocol := "wss:"; href := "wss://example.com/" |}).
    + left. eexists. repeat split; reflexivity.
    + reflexivity.
Defined.

(** ** C10: the protocol error is replaced *)

Section WsProtocol.
Context `{URLParser}.

(** A socket URL that parses with a scheme outside the whitelist makes
    construction fail. *)
Lemma build_fails_ws_protocol root st s u :
  env st !! "PUBLIC_WS_URL" = Some (VString s) →
  JsString.trim s ≠ "" →
  parseURL (JsString.trim s) = Some u →
  protocol u ∉ ["ws:"; "wss:"] →
  fails (buildServerConfig root) st.
Proof.
  intros He Hne Hu Hp. unfold buildServerConfig.
  assert (parseURL (JsString.trim (JsString.trim s)) = Some u) as Hu'
    by by rewrite trim_idemp.
  walk_to ltac:(
    idtac;
    match goal with
    | Hr : (readEnv "PUBLIC_WS_URL" _ st).1 = Normal ?v |- _ =>
        rewrite (readEnv_present _ _ _ _ He Hne) in Hr; injection Hr as <-;
        eapply fails_lift_Throw;
        exact (proj2 (proj2 (normaliseUrl_masks _ _ _ _ Hu' Hp)))
    end).
Qed.
End WsProtocol.

(** C10.  When the trimmed value parses as an absolute URL whose scheme is
    outside the whitelist, the [try] block throws the error that names the
    protocols; the value does not begin with a slash, so the [catch] block
    throws, and what leaves [normaliseUrl] is the error that asks for a
    valid absolute URL, a different message.  Construction fails all the
    same. *)
Theorem normaliseUrl_protocol_error_masked `{URLParser} root st s key l u :
  parseURL (JsString.trim s) = Some u →
  protocol u ∉ l →
  normaliseUrlTry (JsString.trim s) key (Some l)
  = Throw (Error (key +:+ " must use one of the following protocols: "
                    +:+ JsString.join ", " l))
  ∧ JsString.startsWith (JsString.trim s) "/" = false
  ∧ normaliseUrl (VString s) key (Some l)
    = Throw (Error (key +:+ " must be a valid absolute URL or start with '/'"))
  ∧ key +:+ " must be a valid absolute URL or start with '/'"
    ≠ key +:+ " must use one of the following protocols: " +:+ JsString.join ", " l
  ∧ (env st !! "PUBLIC_WS_URL" = Some (VString s) →
     JsString.trim s ≠ "" →
     l = ["ws:"; "wss:"] →
     fails (buildServerConfig root) st).
Proof.
  intros Hu Hl.
  destruct (normaliseUrl_masks s key l u Hu Hl) as (Ht & Hs & Hn).
  repeat split; try done.
  - by intros ?%(inj (String.app key)).
  - intros He Hne ->. by eapply build_fails_ws_protocol.
Qed.

(** [http://example.com] under the whitelist of the socket URL. *)
Lemma normaliseUrl_protocol_error_masked_witness :
  normaliseUrlTry "http://example.com" "PUBLIC_WS_URL" (Some ["ws:"; "wss:"])
  = Throw (Error "PUBLIC_WS_URL must use one of the following protocols: ws:, wss:")
  ∧ normaliseUrl (VString "http://example.com") "PUBLIC_WS_URL" (Some ["ws:"; "wss:"])
    = Throw (Error "PUBLIC_WS_URL must be a valid absolute URL or start with '/'")
  ∧ fails (buildServerConfig "/srv/hyperfy")
      (processWith [("WORLD", "town/main"); ("JWT_SECRET", "s3cret");
                    ("PUBLIC_WS_URL", "http://example.com")]).
Proof.
  destruct (normaliseUrl_protocol_error_masked (H := whatwg) "/srv/hyperfy"
              (processWith [("WORLD", "town/main"); ("JWT_SECRET", "s3cret");
                            ("PUBLIC_WS_URL", "http://example.com")])
              "http://example.com" "PUBLIC_WS_URL" ["ws:"; "wss:"]
              {| protocol := "http:"; href := "http://example.com/" |})
    as (Ht & _ & Hn & _ & Hf).
  - vm_compute. reflexivity.
  - vm_compute. intros Hin. by repeat (inversion Hin as [|? ? ? Hin']; subst; clear Hin; rename Hin' into Hin).
  - split; [exact Ht|]. split; [exact Hn|].
    apply Hf; [vm_compute; reflexivity|vm_compute; discriminate|reflexivity].
Defined.

(** ** C4, C5: integers and the port *)

(** Up to 2^53 a number prints as its decimal digits. *)
Lemma numberToString_safe z :
  Z.abs z ≤ 2 ^ 53 → Js.numberToString (Int z) = pretty z.
Proof.
  intros Hz. unfold Js.numberToString. by rewrite (proj2 (Z.leb_le _ _) Hz).
Qed.

(** What [parseInteger] returns is the integer [parseInt] read, within the
    bounds. *)
Lemma parseInteger_Normal v key o n :
  parseInteger v key o = Normal n →
  ∃ z, n = Int z
       ∧ Js.parseInt10 v = Int z
       ∧ (IntOpts.allowZero o = false → z ≠ 0)
       ∧ (∀ m, IntOpts.min o = Some m → m ≤ z)
       ∧ (∀ m, IntOpts.max o = Some m → z ≤ m).
Proof.
  unfold parseInteger. destruct (Js.parseInt10 v) as [|z|neg]; [done| |done].
  cbn [Js.isFinite negb throwIf bindC Js.strictEq].
  destruct o as [mn mx az]. cbn [IntOpts.min IntOpts.max IntOpts.allowZero].
  destruct (negb az && (z =? 0)) eqn:Hz; [done|]. cbn [throwIf bindC].
  destruct mn as [mn|]; destruct mx as [mx|]; cbn [Js.lt];
    repeat match goal with
           | |- context [?a <? ?b] => destruct (Z.ltb_spec a b); cbn [throwIf bindC]
           end; try done;
    intros [= <-]; exists z; repeat split; try done;
    try (intros ->; cbn in Hz; lia); try (by intros ? [= <-]).
Qed.

(** C4.  [parseInteger] goes through [Number.parseInt], which reads the
    longest prefix of digits and drops the rest: [1.5] is taken as 1,
    [8080.5] as 8080 and [12abc] as 12, where the claim has fractional
    and non-numeric input fail; [PORT=8080.5] gives the port 8080. *)
Theorem parseInteger_accepts_fraction :
  let portOpts := {| IntOpts.min := Some 1; IntOpts.max := Some 65535;
                     IntOpts.allowZero := true |} in
  let out := buildServerConfig "/srv/hyperfy"
               (processWith [("WORLD", "town/main"); ("JWT_SECRET", "s3cret");
                             ("PORT", "8080.5")]) in
  parseInteger (VString "1.5") "PORT" portOpts = Normal (Int 1)
  ∧ parseInteger (VString "8080.5") "PORT" portOpts = Normal (Int 8080)
  ∧ parseInteger (VString "12abc") "PORT" portOpts = Normal (Int 12)
  ∧ parseInteger (VString "abc") "PORT" portOpts
    = Throw (Error "PORT must be a valid integer")
  ∧ out.1 = Normal 6%nat
  ∧ readPath out.2 (VObject 6%nat) ["server"; "port"] = Some (VNumber (Int 8080)).
Proof. cbv zeta. repeat split; vm_compute; reflexivity. Qed.

Lemma build_fails_port root st p `{URLParser} :
  env st !! "PORT" = Some (VString p) →
  JsString.trim p ≠ "" →
  (∃ e, parseInteger (VString (JsString.trim p)) "PORT"
          {| IntOpts.min := Some 1; IntOpts.max := Some 65535;
             IntOpts.allowZero := true |} = Throw e) →
  fails (buildServerConfig root) st.
Proof.
  intros He Hne [e Hp]. unfold buildServerConfig.
  walk_to ltac:(
    idtac;
    match goal with
    | Hr : (readEnv "PORT" _ st).1 = Normal ?v |- _ =>
        rewrite (readEnv_present _ _ _ _ He Hne) in Hr; injection Hr as <-;
        eapply fails_lift_Throw; exact Hp
    end).
Qed.

(** The port and the socket URL of a configuration built with the socket
    variable unset. *)
Lemma config_port_ws `{URLParser} root st c st' v z :
  buildServerConfig root st = (Normal c, st') →
  (readEnv "PORT" (withDefault "3000") st).1 = Normal v →
  parseInteger v "PORT"
    {| IntOpts.min := Some 1; IntOpts.max := Some 65535; IntOpts.allowZero := true |}
  = Normal (Int z) →
  readPath st' (VObject c) ["server"; "port"] = Some (VNumber (Int z))
  ∧ (absent st "PUBLIC_WS_URL" →
     ∃ w, normaliseUrl (VString ("ws://localhost:" +:+ pretty z +:+ "/ws"))
            "PUBLIC_WS_URL" (Some ["ws:"; "wss:"]) = Normal w
          ∧ readPath st' (VObject c) ["public"; "wsUrl"] = Some (VString w)).
Proof.
  intros (r & Hr & -> & ->)%buildServerConfig_Normal Hv Hz.
  destruct Hr as (_ & (v' & Hv' & Hport) & _ & _ & _ & _ & (vw & Hvw & Hw) & _).
  rewrite Hv in Hv'. injection Hv' as <-. rewrite Hz in Hport.
  injection Hport as Hport. rewrite <- Hport in Hvw.
  split; [read_config; read_config; by rewrite <- Hport|].
  intros Hws. rewrite (readEnv_default _ _ _ Hws) in Hvw. injection Hvw as <-.
  apply parseInteger_Normal in Hz as (z' & [= <-] & _ & _ & Hmin & Hmax).
  specialize (Hmin 1 eq_refl). specialize (Hmax 65535 eq_refl).
  pose proof (numberToString_safe z ltac:(lia)) as Hsafe.
  unfold Js.numberToString in Hsafe. rewrite Hsafe in Hw.
  exists (r_wsUrl r). split; [exact Hw|].
  read_config. by read_config.
Qed.

(** C5.  [PORT=0], [PORT=65536] and [PORT=abc] make construction fail.
    With [PORT=8080] the port is 8080 and with [PORT] unset it is 3000;
    in both cases, [PUBLIC_WS_URL] being unset, [public.wsUrl] is
    [ws://localhost:<port>/ws] (the URL going through the parser of the
    examples). *)
Theorem port_resolution `{URLParser} root st :
  (∀ p, env st !! "PORT" = Some (VString p) → p ∈ ["0"; "65536"; "abc"] →
        fails (buildServerConfig root) st)
  ∧ (∀ c st',
       buildServerConfig root st = (Normal c, st') →
       (env st !! "PORT" = Some (VString "8080") →
        readPath st' (VObject c) ["server"; "port"] = Some (VNumber (Int 8080)))
       ∧ (absent st "PORT" →
          readPath st' (VObject c) ["server"; "port"] = Some (VNumber (Int 3000))))
  ∧ (∀ c st',
       buildServerConfig (H := whatwg) root st = (Normal c, st') →
       absent st "PUBLIC_WS_URL" →
       (env st !! "PORT" = Some (VString "8080") →
        readPath st' (VObject c) ["public"; "wsUrl"]
        = Some (VString "ws://localhost:8080/ws"))
       ∧ (absent st "PORT" →
          readPath st' (VObject c) ["public"; "wsUrl"]
          = Some (VString "ws://localhost:3000/ws"))).
Proof.
  assert (env st !! "PORT" = Some (VString "8080") →
          (readEnv "PORT" (withDefault "3000") st).1 = Normal (VString "8080")) as H8080.
  { intros He. by apply (readEnv_present "PORT" _ st "8080"). }
  split; [|split].
  - intros p He Hp. eapply build_fails_port; [exact He|..];
      repeat (apply elem_of_cons in Hp as [->|Hp]);
      try (by apply elem_of_nil in Hp); try done;
      eexists; vm_compute; reflexivity.
  - intros c st' Hb. split.
    + intros He.
      by destruct (config_port_ws root st c st' (VString "8080") 8080 Hb (H8080 He)).
    + intros Ha.
      by destruct (config_port_ws root st c st' (VString "3000") 3000 Hb
                     (readEnv_default _ _ _ Ha)).
  - intros c st' Hb Hws. split.
    + intros He.
      destruct (config_port_ws (H := whatwg) root st c st' (VString "8080") 8080
                  Hb (H8080 He)) as (_ & Hw); [done|].
      destruct (Hw Hws) as (w & Hn & ->). vm_compute in Hn. by injection Hn as <-.
    + intros Ha.
      destruct (config_port_ws (H := whatwg) root st c st' (VString "3000") 3000
                  Hb (readEnv_default _ _ _ Ha)) as (_ & Hw); [done|].
      destruct (Hw Hws) as (w & Hn & ->). vm_compute in Hn. by injection Hn as <-.
Qed.

(** [PORT=0] fails; [PORT=8080] gives the port 8080 and the socket URL
    [ws://localhost:8080/ws]. *)
Lemma port_resolution_witness :
  let st := processWith [("WORLD", "town/main"); ("JWT_SECRET", "s3cret");
                         ("PORT", "8080")] in
  let out := buildServerConfig "/srv/hyperfy" st in
  fails (buildServerConfig "/srv/hyperfy")
    (processWith [("WORLD", "town/main"); ("JWT_SECRET", "s3cret"); ("PORT", "0")])
  ∧ out.1 = Normal 6%nat
  ∧ readPath out.2 (VObject 6%nat) ["server"; "port"] = Some (VNumber (Int 8080))
  ∧ readPath out.2 (VObject 6%nat) ["public"; "wsUrl"]
    = Some (VString "ws://localhost:8080/ws").
Proof.
  intros st out. split.
  - apply (proj1 (port_resolution (H := whatwg) "/srv/hyperfy"
             (processWith [("WORLD", "town/main"); ("JWT_SECRET", "s3cret");
                           ("PORT", "0")])) "0").
    + vm_compute. reflexivity.
    + apply list_elem_of_here.
  - assert (out.1 = Normal 6%nat) as Hout by (vm_compute; reflexivity).
    split; [exact Hout|].
    destruct (port_resolution (H := whatwg) "/srv/hyperfy" st) as (_ & Hp & Hw).
    split.
    + apply (Hp 6%nat out.2); [by apply run_eq|vm_compute; reflexivity].
    + apply (Hw 6%nat out.2);
        [by apply run_eq|vm_compute; reflexivity|vm_compute; reflexivity].
Defined.

(** ** C6: the whitelist of the socket URL *)

(** A socket URL that parses with a scheme of the whitelist is kept, in
    its serialisation less one trailing slash. *)
Lemma config_ws_url `{URLParser} root st s u c st' :
  env st !! "PUBLIC_WS_URL" = Some (VString s) →
  JsString.trim s ≠ "" →
  parseURL (JsString.trim s) = Some u →
  protocol u ∈ ["ws:"; "wss:"] →
  buildServerConfig root st = (Normal c, st') →
  readPath st' (VObject c) ["public"; "wsUrl"]
  = Some (VString (JsString.stripTrailingSlash (href u))).
Proof.
  intros He Hne Hu Hp (r & Hr & -> & ->)%buildServerConfig_Normal.
  destruct Hr as (_ & _ & _ & _ & _ & _ & (vw & Hvw & Hw) & _).
  rewrite (readEnv_present _ _ _ _ He Hne) in Hvw. injection Hvw as <-.
  rewrite normaliseUrl_unfold in Hw. cbv zeta in Hw.
  rewrite trim_idemp, Hu in Hw. cbn [allowed] in Hw.
  rewrite bool_decide_eq_true_2 in Hw by done. injection Hw as Hw.
  read_config. read_config. by rewrite <- Hw.
Qed.

(** C6.  A [PUBLIC_WS_URL] that parses as an absolute URL with a scheme
    other than [ws:] and [wss:] makes construction fail, and one with such
    a scheme gives [public.wsUrl] its serialisation less one trailing
    slash.  With the parser of the examples, [http://example.com] makes
    construction fail and [wss://example.com/] gives [wss://example.com]. *)
Theorem ws_url_whitelist `{URLParser} root st :
  (∀ s u,
     env st !! "PUBLIC_WS_URL" = Some (VString s) →
     JsString.trim s ≠ "" →
     parseURL (JsString.trim s) = Some u →
     protocol u ∉ ["ws:"; "wss:"] →
     fails (buildServerConfig root) st)
  ∧ (∀ s u c st',
       env st !! "PUBLIC_WS_URL" = Some (VString s) →
       JsString.trim s ≠ "" →
       parseURL (JsString.trim s) = Some u →
       protocol u ∈ ["ws:"; "wss:"] →
       buildServerConfig root st = (Normal c, st') →
       readPath st' (VObject c) ["public"; "wsUrl"]
       = Some (VString (JsString.stripTrailingSlash (href u))))
  ∧ (env st !! "PUBLIC_WS_URL" = Some (VString "http://example.com") →
     fails (buildServerConfig (H := whatwg) root) st)
  ∧ (env st !! "PUBLIC_WS_URL" = Some (VString "wss://example.com/") →
     ∀ c st',
       buildServerConfig (H := whatwg) root st = (Normal c, st') →
       readPath st' (VObject c) ["public"; "wsUrl"]
       = Some (VString "wss://example.com")).
Proof.
  split; [intros s u; apply build_fails_ws_protocol|].
  split; [intros s u c st'; apply config_ws_url|].
  split.
  - intros He.
    apply (build_fails_ws_protocol (H := whatwg) root st "http://example.com"
             {| protocol := "http:"; href := "http://example.com/" |} He).
    + done.
    + vm_compute. reflexivity.
    + vm_compute. intros Hin.
      by repeat (inversion Hin as [|? ? ? Hin']; subst; clear Hin; rename Hin' into Hin).
  - intros He c st' Hb.
    apply (config_ws_url (H := whatwg) root st "wss://example.com/"
             {| protocol := "wss:"; href := "wss://example.com/" |} c st' He).
    + done.
    + vm_compute. reflexivity.
    + apply list_elem_of_further, list_elem_of_here.
    + exact Hb.
Qed.

(** The two environments of the claim. *)
Lemma ws_url_whitelist_witness :
  let st := processWith [("WORLD", "town/main"); ("JWT_SECRET", "s3cret");
                         ("PUBLIC_WS_URL", "wss://example.com/")] in
  let out := buildServerConfig "/srv/hyperfy" st in
  fails (buildServerConfig "/srv/hyperfy")
    (processWith [("WORLD", "town/main"); ("JWT_SECRET", "s3cret");
                  ("PUBLIC_WS_URL", "http://example.com")])
  ∧ out.1 = Normal 6%nat
  ∧ readPath out.2 (VObject 6%nat) ["public"; "wsUrl"]
    = Some (VString "wss://example.com").
Proof.
  intros st out. split.
  - apply (ws_url_whitelist (H := whatwg) "/srv/hyperfy"
             (processWith [("WORLD", "town/main"); ("JWT_SECRET", "s3cret");
                           ("PUBLIC_WS_URL", "http://example.com")])).
    vm_compute. reflexivity.
  - assert (out.1 = Normal 6%nat) as Hout by (vm_compute; reflexivity).
    split; [exact Hout|].
    apply (ws_url_whitelist (H := whatwg) "/srv/hyperfy" st);
      [vm_compute; reflexivity|].
    by apply run_eq.
Defined.

(** ** C7: the public environment *)

Lemma publicOverrides_other r k :
  k ∉ derivedNames → publicOverrides r !! k = None.
Proof.
  intros Hk. unfold publicOverrides. rewrite list_to_map_assoc. cbn [assoc].
  repeat match goal with
         | |- context [String.eqb ?a k] =>
             destruct (String.eqb_spec a k) as [<-|?];
             [destruct Hk; unfold derivedNames; set_solver|]
         end.
  done.
Qed.

Lemma stringified_string v : ∃ s, stringified v = VString s.
Proof. unfold stringified. eauto. Qed.

(** C7.  In a configuration that was built, [public.env] is a frozen
    object.  Under each of the four derived names it holds the derived
    value, whatever [process.env] has there: the three URLs of [public],
    and [String(public.maxUploadSize)], the number being an integer; up
    to 2^53 that string is its decimal digits.  Under any other
    name it holds what [process.env] has when the name starts with
    [PUBLIC_], as a string, with the empty string for [undefined] and
    [null], and nothing when the name does not start so.  Every value in
    it is a string. *)
Theorem publicEnv_contents `{URLParser} root st c st' :
  buildServerConfig root st = (Normal c, st') →
  ∃ pe penv a p w n,
    readPath st' (VObject c) ["public"; "env"] = Some (VObject pe)
    ∧ Js.deref pe st' = Some (Obj penv true)
    ∧ readPath st' (VObject c) ["public"; "assetsUrl"] = Some (VString a)
    ∧ readPath st' (VObject c) ["public"; "apiUrl"] = Some (VString p)
    ∧ readPath st' (VObject c) ["public"; "wsUrl"] = Some (VString w)
    ∧ readPath st' (VObject c) ["public"; "maxUploadSize"] = Some (VNumber (Int n))
    ∧ 1 ≤ n
    ∧ penv !! "PUBLIC_ASSETS_URL" = Some (VString a)
    ∧ penv !! "PUBLIC_API_URL" = Some (VString p)
    ∧ penv !! "PUBLIC_WS_URL" = Some (VString w)
    ∧ penv !! "PUBLIC_MAX_UPLOAD_SIZE" = Some (VString (Js.numberToString (Int n)))
    ∧ (n ≤ 2 ^ 53 → Js.numberToString (Int n) = pretty n)
    ∧ (∀ k, k ∉ derivedNames →
            penv !! k
            = if JsString.startsWith k "PUBLIC_"
              then (λ v, VString (if Js.nullish v then "" else Js.String_ v))
                     <$> env st !! k
              else None)
    ∧ (∀ k v, penv !! k = Some v → ∃ s, v = VString s).
Proof.
  intros (r & Hr & -> & ->)%buildServerConfig_Normal.
  destruct Hr as (_ & _ & _ & _ & _ & _ & _ & (vu & _ & Hu) & _).
  apply parseInteger_Normal in Hu as (n & Hn & _ & _ & Hmin & _).
  exists (S (length (heap st))),
         (stringified <$> (publicOverrides r ∪ publicRaw (env st))),
         (r_assetsUrl r), (r_apiUrl r), (r_wsUrl r), n.
  split; [read_config; by read_config|].
  split.
  { erewrite (deref_config _ _ (configObjects _ _ _ _) _ 1%nat); [done|lia|done]. }
  split; [read_config; by read_config|].
  split; [read_config; by read_config|].
  split; [read_config; by read_config|].
  split; [read_config; read_config; by rewrite Hn|].
  split; [by apply Hmin|].
  assert (∀ k v, publicOverrides r !! k = Some v →
                 (stringified <$> (publicOverrides r ∪ publicRaw (env st))) !! k
                 = Some (stringified v)) as Hover.
  { intros k v Hk. rewrite lookup_fmap.
    by rewrite (lookup_union_Some_l _ _ _ _ Hk). }
  assert (∀ k v, assoc k [
              ("PUBLIC_ASSETS_URL", VString (r_assetsUrl r));
              ("PUBLIC_API_URL", VString (r_apiUrl r));
              ("PUBLIC_WS_URL", VString (r_wsUrl r));
              ("PUBLIC_MAX_UPLOAD_SIZE",
               VString (Js.String_ (VNumber (r_maxUploadSize r))))] = Some v →
            publicOverrides r !! k = Some v) as Hassoc.
  { intros k v. unfold publicOverrides. by rewrite list_to_map_assoc. }
  split; [exact (Hover "PUBLIC_ASSETS_URL" (VString (r_assetsUrl r))
                   (Hassoc "PUBLIC_ASSETS_URL" _ eq_refl))|].
  split; [exact (Hover "PUBLIC_API_URL" (VString (r_apiUrl r))
                   (Hassoc "PUBLIC_API_URL" _ eq_refl))|].
  split; [exact (Hover "PUBLIC_WS_URL" (VString (r_wsUrl r))
                   (Hassoc "PUBLIC_WS_URL" _ eq_refl))|].
  split.
  { rewrite (Hover "PUBLIC_MAX_UPLOAD_SIZE"
               (VString (Js.String_ (VNumber (r_maxUploadSize r)))))
      by exact (Hassoc "PUBLIC_MAX_UPLOAD_SIZE" _ eq_refl).
    by rewrite Hn. }
  split.
  { intros Hsafe. apply numberToString_safe. specialize (Hmin 1 eq_refl). lia. }
  split.
  - intros k Hk. rewrite lookup_fmap, lookup_union_r by by apply publicOverrides_other.
    rewrite publicRaw_lookup.
    destruct (JsString.startsWith k "PUBLIC_"); [|done].
    destruct (env st !! k) as [v|]; [|done]. cbn. by destruct (Js.nullish v).
  - intros k v. rewrite lookup_fmap.
    destruct ((publicOverrides r ∪ publicRaw (env st)) !! k) as [v'|]; [|done].
    intros [= <-]. apply stringified_string.
Qed.

(** A process with [PUBLIC_FOO], and with a raw [PUBLIC_API_URL] and a raw
    [PUBLIC_MAX_UPLOAD_SIZE] that the derived values replace. *)
Lemma publicEnv_contents_witness :
  let st := processWith [("WORLD", "town/main"); ("JWT_SECRET", "s3cret");
                         ("PUBLIC_FOO", " bar "); ("PUBLIC_API_URL", " /api/ ");
                         ("PUBLIC_MAX_UPLOAD_SIZE", "0020")] in
  let out := buildServerConfig "/srv/hyperfy" st in
  out.1 = Normal 6%nat
  ∧ ∃ pe penv a p w n,
      readPath out.2 (VObject 6%nat) ["public"; "env"] = Some (VObject pe)
      ∧ Js.deref pe out.2 = Some (Obj penv true)
      ∧ readPath out.2 (VObject 6%nat) ["public"; "assetsUrl"] = Some (VString a)
      ∧ readPath out.2 (VObject 6%nat) ["public"; "apiUrl"] = Some (VString p)
      ∧ readPath out.2 (VObject 6%nat) ["public"; "wsUrl"] = Some (VString w)
      ∧ readPath out.2 (VObject 6%nat) ["public"; "maxUploadSize"]
        = Some (VNumber (Int n))
      ∧ 1 ≤ n
      ∧ penv !! "PUBLIC_ASSETS_URL" = Some (VString a)
      ∧ penv !! "PUBLIC_API_URL" = Some (VString p)
      ∧ penv !! "PUBLIC_WS_URL" = Some (VString w)
      ∧ penv !! "PUBLIC_MAX_UPLOAD_SIZE" = Some (VString (Js.numberToString (Int n)))
      ∧ (n ≤ 2 ^ 53 → Js.numberToString (Int n) = pretty n)
      ∧ (∀ k, k ∉ derivedNames →
              penv !! k
              = if JsString.startsWith k "PUBLIC_"
                then (λ v, VString (if Js.nullish v then "" else Js.String_ v))
                       <$> env st !! k
                else None)
      ∧ (∀ k v, penv !! k = Some v → ∃ s, v = VString s).
Proof.
  intros st out.
  assert (out.1 = Normal 6%nat) as Hout by (vm_compute; reflexivity).
  split; [exact Hout|].
  apply (publicEnv_contents (H := whatwg) "/srv/hyperfy" st 6%nat out.2).
  by apply run_eq.
Defined.

(** An upload size of 1e21 is kept, and printed in exponent form. *)
Example publicEnv_large_upload_size :
  let st := processWith [("WORLD", "town/main"); ("JWT_SECRET", "s3cret");
                         ("PUBLIC_MAX_UPLOAD_SIZE", "1000000000000000000000")] in
  let out := buildServerConfig "/srv/hyperfy" st in
  readPath out.2 (VObject 6%nat) ["public"; "maxUploadSize"]
  = Some (VNumber (Int (10 ^ 21)))
  ∧ readPath out.2 (VObject 6%nat) ["public"; "env"; "PUBLIC_MAX_UPLOAD_SIZE"]
    = Some (VString "1e+21").
Proof. cbv zeta. split; vm_compute; reflexivity. Qed.

Example publicEnv_example :
  let st := processWith [("WORLD", "town/main"); ("JWT_SECRET", "s3cret");
                         ("PUBLIC_FOO", " bar "); ("PUBLIC_API_URL", " /api/ ");
                         ("PUBLIC_MAX_UPLOAD_SIZE", "0020")] in
  let out := buildServerConfig "/srv/hyperfy" st in
  readPath out.2 (VObject 6%nat) ["public"; "maxUploadSize"] = Some (VNumber (Int 20))
  ∧ readPath out.2 (VObject 6%nat) ["public"; "env"; "PUBLIC_MAX_UPLOAD_SIZE"]
    = Some (VString "20")
  ∧ readPath out.2 (VObject 6%nat) ["public"; "env"; "PUBLIC_API_URL"]
    = Some (VString "/api")
  ∧ readPath out.2 (VObject 6%nat) ["public"; "env"; "PUBLIC_FOO"]
    = Some (VString " bar ")
  ∧ readPath out.2 (VObject 6%nat) ["public"; "env"; "WORLD"] = Some VUndefined.
Proof. cbv zeta. repeat split; vm_compute; reflexivity. Qed.

(** ** C8: one frozen configuration *)

Section Singleton.
Context `{URLParser}.

(** No operation changes a frozen object. *)
Lemma step_keeps m o st l obj :
  frozenAt st l obj → frozenAt (step m o st).2 l obj.
Proof.
  intros [Hl Hf]. split; [|done].
  assert (l < length (heap st))%nat as Hlt by by eapply lookup_lt_Some.
  destruct o as [|l0 k v|l0 k|p|l0|k v|k]; cbn [step]; try done;
    unfold bind, Js.setProp, Js.deleteProp, Js.newObject, Js.freeze, ret.
  - destruct (Js.deref l0 st) as [o0|] eqn:Hl0; [|done].
    destruct (frozen o0) eqn:Hf0; [done|]. cbn [snd].
    unfold Js.deref. cbn [heap]. rewrite list_lookup_insert_ne; [done|].
    intros ->. rewrite Hl in Hl0. injection Hl0 as <-. congruence.
  - destruct (Js.deref l0 st) as [o0|] eqn:Hl0; [|done].
    destruct (frozen o0) eqn:Hf0.
    + by destruct (props o0 !! k).
    + cbn [snd]. unfold Js.deref. cbn [heap].
      rewrite list_lookup_insert_ne; [done|].
      intros ->. rewrite Hl in Hl0. injection Hl0 as <-. congruence.
  - cbn [snd]. unfold Js.deref. cbn [heap]. by apply lookup_app_l_Some.
  - destruct (Js.deref l0 st) as [o0|] eqn:Hl0; [|done]. cbn [snd].
    unfold Js.deref. cbn [heap].
    destruct (decide (l0 = l)) as [->|Hne].
    + rewrite list_lookup_insert_eq by done.
      rewrite Hl in Hl0. injection Hl0 as <-. destruct obj. cbn in *. by subst.
    + by rewrite list_lookup_insert_ne.
Qed.

Lemma run_cons m o ops st :
  run m (o :: ops) st
  = ((step m o st).1 :: (run m ops (step m o st).2).1,
     (run m ops (step m o st).2).2).
Proof.
  cbn [run]. destruct (step m o st) as [r st1]. cbn [fst snd].
  by destruct (run m ops st1) as [rs st2].
Qed.

Lemma run_keeps m ops st l obj :
  frozenAt st l obj → frozenAt (run m ops st).2 l obj.
Proof.
  revert st. induction ops as [|o ops IH]; intros st Hf; [done|].
  rewrite run_cons. cbn [snd]. apply IH. by apply step_keeps.
Qed.

(** Every call of the accessor completes with the same reference. *)
Lemma run_getServerConfig m ops st i :
  ops !! i = Some OpGetServerConfig →
  (run m ops st).1 !! i = Some (Normal (VObject (serverConfig m))).
Proof.
  revert st i. induction ops as [|o ops IH]; intros st [|i] Hi; try done;
    rewrite run_cons; cbn [fst].
  - by injection Hi as ->.
  - by apply IH.
Qed.

(** Every assignment to a frozen object is refused. *)
Lemma run_assign m ops st i l k v obj :
  frozenAt st l obj →
  ops !! i = Some (OpAssign l k v) →
  (run m ops st).1 !! i
  = Some (Throw (TypeError "Cannot assign to read only property")).
Proof.
  revert st i. induction ops as [|o ops IH]; intros st [|i] Hf Hi; try done;
    rewrite run_cons; cbn [fst].
  - injection Hi as ->. destruct Hf as [Hl Hf].
    cbn [step lookup list_lookup]. unfold bind, Js.setProp. by rewrite Hl, Hf.
  - apply IH; [by apply step_keeps|done].
Qed.

(** The accessor reads neither the heap nor [process.env], and changes
    nothing. *)
Lemma getServerConfig_run m st :
  getServerConfig m st = (Normal (serverConfig m), st).
Proof. reflexivity. Qed.
End Singleton.

Lemma readPath_not_object st v ks :
  (∀ l, v ≠ VObject l) → readPath st v ks = match ks with [] => Some v | _ => None end.
Proof. intros Hv. destruct ks; [done|]. destruct v; try done. by destruct (Hv l). Qed.

(** Reading along properties sees the same in two states that agree on
    the objects reached. *)
Lemma readPath_agree st1 st2 l ks :
  (∀ l', reach st1 l l' → Js.deref l' st2 = Js.deref l' st1) →
  readPath st2 (VObject l) ks = readPath st1 (VObject l) ks.
Proof.
  revert l. induction ks as [|k ks IH]; intros l Hag; [done|].
  cbn [readPath]. rewrite (Hag l) by constructor.
  destruct (Js.deref l st1) as [o|] eqn:Hl; [|done].
  destruct (props o !! k) as [v|] eqn:Hk; cbn [default from_option id].
  - destruct v as [| | | | |l'];
      try (by rewrite !readPath_not_object by done).
    apply IH. intros l'' Hr. apply Hag. by eapply reach_prop.
  - by rewrite !readPath_not_object by done.
Qed.

Lemma readEnv_string_or_default key o st v :
  (readEnv key o st).1 = Normal v → v = defaultValue o ∨ ∃ s, v = VString s.
Proof.
  destruct o as [req d ae]. cbn [defaultValue]. revert v.
  readEnv_cases; intros v [= <-]; cbn [defaultValue] in *; subst;
    try done; eauto.
Qed.

Lemma or_null_not_object v l :
  (v = VUndefined ∨ ∃ s, v = VString s) → Js.or v VNull ≠ VObject l.
Proof. intros [->|[s ->]]; unfold Js.or; cbn; [done|]. by destruct (negb _). Qed.

Section DeepFrozen.
Context `{URLParser}.

(** The optional values of a configuration are strings or [undefined]. *)
Lemma resolves_scalars st r :
  resolves st r →
  Forall (λ v, v = VUndefined ∨ ∃ s, v = VString s)
    [r_jwtSecret r; r_adminCode r; r_commitHash r;
     r_lkWsUrl r; r_lkApiKey r; r_lkApiSecret r].
Proof.
  intros (_ & _ & _ & Hj & _ & _ & _ & _ & Ha & Hc & Hw & Hk & Hs).
  repeat apply Forall_cons_2; try apply Forall_nil_2.
  - exact (readEnv_string_or_default _ _ _ _ Hj).
  - exact (readEnv_string_or_default _ _ _ _ Ha).
  - exact (readEnv_string_or_default _ _ _ _ Hc).
  - exact (readEnv_string_or_default _ _ _ _ Hw).
  - exact (readEnv_string_or_default _ _ _ _ Hk).
  - exact (readEnv_string_or_default _ _ _ _ Hs).
Qed.

Lemma configObjects_frozen root base e r i obj :
  configObjects root base e r !! i = Some obj → frozen obj = true.
Proof.
  unfold configObjects. cbv zeta.
  do 7 (destruct i as [|i]; [by intros [= <-]|]). intros [=].
Qed.

(** A property of an object of a configuration that holds an object
    holds one of the seven. *)
Lemma configObjects_closed st root base e r i obj k l :
  resolves st r →
  configObjects root base e r !! i = Some obj →
  props obj !! k = Some (VObject l) →
  ∃ j, l = (base + j)%nat ∧ (j < 7)%nat.
Proof.
  intros Hr%resolves_scalars.
  apply Forall_cons in Hr as [Hj Hr]. apply Forall_cons in Hr as [Ha Hr].
  apply Forall_cons in Hr as [Hc Hr]. apply Forall_cons in Hr as [Hw Hr].
  apply Forall_cons in Hr as [Hk Hr]. apply Forall_cons in Hr as [Hs _].
  unfold configObjects. cbv zeta.
  destruct i as [|[|[|[|[|[|[|i]]]]]]]; [..|intros [=]];
    (intros [= <-]; cbn [props]).
  2: { rewrite lookup_fmap. by destruct (_ !! k). }
  all: repeat (rewrite lookup_insert; destruct (decide (_ = k));
               [intros [= Hv];
                first [ discriminate
                      | by apply or_null_not_object in Hv
                      | by rewrite Hv in Hj; destruct Hj as [?|[? ?]]
                      | subst l;
                        first [ by exists 0%nat; split; lia
                              | by exists 1%nat; split; lia
                              | by exists 2%nat; split; lia
                              | by exists 3%nat; split; lia
                              | by exists 4%nat; split; lia
                              | by exists 5%nat; split; lia ] ]|]).
  all: by rewrite lookup_empty.
Qed.

(** What can be reached from a configuration is one of its seven
    objects. *)
Lemma config_reach root st r l l' :
  resolves st r →
  let h := heap st in
  let st' := State (h ++ configObjects root (length h) (env st) r) (env st) in
  reach st' l l' →
  (∃ i, l = (length h + i)%nat ∧ (i < 7)%nat) →
  ∃ j, l' = (length h + j)%nat ∧ (j < 7)%nat.
Proof.
  intros Hr h st' Hreach. induction Hreach as [l|l o k l' l'' Hl Hk _ IH]; [done|].
  intros (i & -> & Hi). apply IH.
  unfold Js.deref in Hl. cbn [st' heap] in Hl.
  rewrite lookup_app_r in Hl by lia.
  replace (length h + i - length h)%nat with i in Hl by lia.
  by eapply configObjects_closed.
Qed.

(** After the module has loaded, everything the configuration reaches
    is frozen. *)
Lemma loaded_deep_frozen root st0 m st1 l :
  loadConfigModule root st0 = (Normal m, st1) →
  reach st1 (serverConfig m) l →
  ∃ obj, frozenAt st1 l obj.
Proof.
  unfold loadConfigModule.
  intros (c & st & (r & Hr & -> & ->)%buildServerConfig_Normal & [= <- <-])%bind_Normal_inv.
  cbn [serverConfig]. intros Hreach.
  destruct (config_reach root st0 r _ _ Hr Hreach) as (j & -> & Hj).
  { exists 6%nat. split; lia. }
  destruct (lookup_lt_is_Some_2 (configObjects root (length (heap st0)) (env st0) r) j)
    as [obj Hobj]; [done|].
  exists obj. split.
  - by eapply deref_config.
  - by eapply configObjects_frozen.
Qed.
End DeepFrozen.

(** C8.  Once the module has loaded, the accessor returns the reference
    of [serverConfig] without touching the heap or [process.env].  Let the
    rest of the process run any sequence of accessor calls, assignments,
    deletions, allocations, freezes and writes to [process.env]: every
    accessor call completes with that same reference; every object the
    configuration reaches was frozen and is the same object afterwards;
    every assignment to one of them is refused with a TypeError; and every
    chain of property reads from the configuration gives afterwards what it
    gave before. *)
Theorem config_frozen_singleton `{URLParser} root st0 m st1 ops :
  loadConfigModule root st0 = (Normal m, st1) →
  let c := serverConfig m in
  let rs := (run m ops st1).1 in
  let st2 := (run m ops st1).2 in
  (∀ st, getServerConfig m st = (Normal c, st))
  ∧ (∀ i, ops !! i = Some OpGetServerConfig → rs !! i = Some (Normal (VObject c)))
  ∧ (∀ l, reach st1 c l → ∃ obj, frozenAt st1 l obj ∧ frozenAt st2 l obj)
  ∧ (∀ i l k v,
       reach st1 c l → ops !! i = Some (OpAssign l k v) →
       rs !! i = Some (Throw (TypeError "Cannot assign to read only property")))
  ∧ (∀ ks, readPath st2 (VObject c) ks = readPath st1 (VObject c) ks).
Proof.
  intros Hload c rs st2.
  split; [done|].
  split; [intros i; apply run_getServerConfig|].
  assert (∀ l, reach st1 c l → ∃ obj, frozenAt st1 l obj ∧ frozenAt st2 l obj) as Hkeep.
  { intros l Hl. destruct (loaded_deep_frozen root st0 m st1 l Hload Hl) as [obj Hobj].
    exists obj. split; [done|]. by apply run_keeps. }
  split; [exact Hkeep|].
  split.
  - intros i l k v Hl Hi. destruct (Hkeep l Hl) as (obj & Hobj & _).
    by eapply run_assign.
  - intros ks. apply readPath_agree. intros l Hl.
    destruct (Hkeep l Hl) as (obj & [H1 _] & [H2 _]). by rewrite H1, H2.
Qed.

(** A process that tries to change the root, the port and the secret, and
    rewrites [PORT] in [process.env], then asks for the configuration. *)
Lemma config_frozen_singleton_witness :
  let st0 := processWith [("WORLD", "town/main"); ("JWT_SECRET", "s3cret")] in
  let out := loadConfigModule "/srv/hyperfy" st0 in
  let m := {| serverConfig := 6%nat |} in
  let ops := [OpAssign 6%nat "rootDir" (VString "/tmp");
              OpAssign 3%nat "port" (VNumber (Int 1));
              OpDelete 4%nat "jwtSecret";
              OpSetEnv "PORT" (VString "9999");
              OpNewObject ∅;
              OpGetServerConfig] in
  out.1 = Normal m
  ∧ (run m ops out.2).1 !! 5%nat = Some (Normal (VObject 6%nat))
  ∧ (run m ops out.2).1 !! 0%nat
    = Some (Throw (TypeError "Cannot assign to read only property"))
  ∧ readPath (run m ops out.2).2 (VObject 6%nat) ["server"; "port"]
    = Some (VNumber (Int 3000))
  ∧ readPath (run m ops out.2).2 (VObject 6%nat) ["auth"; "jwtSecret"]
    = Some (VString "s3cret").
Proof.
  intros st0 out m ops.
  assert (out.1 = Normal m) as Hout by (vm_compute; reflexivity).
  split; [exact Hout|].
  destruct (config_frozen_singleton (H := whatwg) "/srv/hyperfy" st0 m out.2 ops)
    as (_ & Hget & _ & Hassign & Hread); [by apply run_eq|].
  split; [by apply Hget|].
  split; [apply (Hassign 0%nat 6%nat "rootDir" (VString "/tmp")); [constructor|done]|].
  rewrite !Hread. split; vm_compute; reflexivity.
Defined.

(** ** C9: reading a token *)

(** The secret of the tokens is the [JWT_SECRET] of the configuration. *)
Lemma loadUtilsModule_secret `{URLParser} root st0 m st1 :
  loadConfigModule root st0 = (Normal m, st1) →
  ∃ secret,
    (readEnv "JWT_SECRET" isRequired st0).1 = Normal secret
    ∧ loadUtilsModule m st1 = (Normal {| jwtSecret := secret |}, st1).
Proof.
  unfold loadConfigModule.
  intros (c & st & (r & Hr & -> & ->)%buildServerConfig_Normal & [= <- <-])%bind_Normal_inv.
  exists (r_jwtSecret r). split; [apply Hr|].
  unfold loadUtilsModule, getServerConfig, bind, ret. cbn [serverConfig].
  unfold Js.getProp.
  erewrite (deref_config _ _ (configObjects _ _ _ _) _ 6%nat); [|lia|reflexivity].
  cbn [props]. rewrite list_to_map_assoc.
  cbn [assoc String.eqb Ascii.eqb Bool.eqb default from_option id Js.getField].
  unfold Js.getProp.
  erewrite (deref_config _ _ (configObjects _ _ _ _) _ 4%nat); [|lia|reflexivity].
  cbn [props]. rewrite list_to_map_assoc.
  by cbn [assoc String.eqb Ascii.eqb Bool.eqb default from_option id].
Qed.

(** A required variable that [readEnv] returns is the variable trimmed,
    and not empty. *)
Lemma readEnv_isRequired key st v :
  (readEnv key isRequired st).1 = Normal v →
  let s := JsString.trim (Js.String_ (default VUndefined (env st !! key))) in
  v = VString s ∧ s ≠ "".
Proof.
  unfold readEnv, bind, Js.getEnv, ret, throw. cbv zeta.
  cbn [fst isRequired allowEmpty defaultValue required negb andb].
  destruct (Js.nullish _); [by rewrite bool_decide_eq_true_2|].
  destruct (JsString.trim _) as [|a t]; cbn [String.length Nat.eqb].
  - by rewrite bool_decide_eq_true_2.
  - by intros [= <-].
Qed.

(** The destructuring [const { auth: { jwtSecret } } = getServerConfig()]
    on a heap that holds the configuration and its [auth]. *)
Lemma loadUtilsModule_run m st o la oa :
  Js.deref (serverConfig m) st = Some o →
  props o !! "auth" = Some (VObject la) →
  Js.deref la st = Some oa →
  loadUtilsModule m st
  = (Normal {| jwtSecret := default VUndefined (props oa !! "jwtSecret") |}, st).
Proof.
  intros Ho Hauth Hoa.
  unfold loadUtilsModule, getServerConfig, bind, ret, Js.getProp.
  rewrite Ho, Hauth. cbn [default from_option id Js.getField].
  unfold Js.getProp. by rewrite Hoa.
Qed.

(** The configuration and its [auth] among the seven objects. *)
Lemma configObjects_auth root base e r :
  ∃ o oa,
    configObjects root base e r !! 6%nat = Some o
    ∧ configObjects root base e r !! 4%nat = Some oa
    ∧ props o !! "auth" = Some (VObject (base + 4)%nat)
    ∧ props oa !! "jwtSecret" = Some (r_jwtSecret r).
Proof.
  eexists _, _. split; [reflexivity|]. split; [reflexivity|].
  cbn [props]. rewrite !list_to_map_assoc.
  cbn [assoc String.eqb Ascii.eqb Bool.eqb].
  split; [|done]. do 2 f_equal. lia.
Qed.

(** The promise of [readJWT] is fulfilled, whatever the module holds. *)
Lemma readJWT_settles `{JsonWebToken} u token :
  readJWT u token
  = Fulfilled (match jwt_verify token (jwtSecret u) with
               | Succeeded payload => payload
               | Failed _ => VNull
               end).
Proof.
  unfold readJWT, Promise.new, deliver.
  by destruct (jwt_verify token (jwtSecret u)).
Qed.

(** [createJWT], by contrast, rejects when signing fails. *)
Lemma createJWT_rejects `{JsonWebToken} u data err :
  jwt_sign data (jwtSecret u) = Failed err →
  createJWT u data = Rejected (VObject err).
Proof. intros Hs. unfold createJWT, Promise.new, deliver. by rewrite Hs. Qed.

(** Once [config.js] has loaded, whatever the process does before
    [utils-server.js] loads, the binding [jwtSecret] is [JWT_SECRET] as
    it was when the configuration was built, trimmed, and not empty. *)
Lemma loadUtilsModule_after `{URLParser} root st0 m st1 ops :
  loadConfigModule root st0 = (Normal m, st1) →
  let st2 := (run m ops st1).2 in
  let secret :=
    JsString.trim (Js.String_ (default VUndefined (env st0 !! "JWT_SECRET"))) in
  secret ≠ ""
  ∧ readPath st1 (VObject (serverConfig m)) ["auth"; "jwtSecret"]
    = Some (VString secret)
  ∧ loadUtilsModule m st2 = (Normal {| jwtSecret := VString secret |}, st2).
Proof.
  intros Hload st2 secret.
  pose proof Hload as Hload'. unfold loadConfigModule in Hload'.
  apply bind_Normal_inv in Hload'
    as (c & st & (r & Hr & -> & ->)%buildServerConfig_Normal & [= <- <-]).
  cbn [serverConfig] in *.
  destruct Hr as (_ & _ & _ & Hj & _).
  apply readEnv_isRequired in Hj as [Hsecret Hne]. cbv zeta in Hsecret, Hne.
  fold secret in Hsecret, Hne.
  set (objs := configObjects root (length (heap st0)) (env st0) r) in *.
  set (st1 := State (heap st0 ++ objs) (env st0)) in *.
  destruct (configObjects_auth root (length (heap st0)) (env st0) r)
    as (o & oa & Ho & Hoa & Hauth & Hjwt).
  fold objs in Ho, Hoa.
  assert (frozenAt st1 (length (heap st0) + 6)%nat o) as Hfo.
  { split; [by eapply deref_config|by eapply configObjects_frozen]. }
  assert (frozenAt st1 (length (heap st0) + 4)%nat oa) as Hfa.
  { split; [by eapply deref_config|by eapply configObjects_frozen]. }
  apply (run_keeps {| serverConfig := (length (heap st0) + 6)%nat |} ops) in Hfo
    as [Ho2 _].
  apply (run_keeps {| serverConfig := (length (heap st0) + 6)%nat |} ops) in Hfa
    as [Hoa2 _].
  split; [done|].
  split.
  { unfold st1, objs. read_config. read_config. by rewrite Hsecret. }
  rewrite (loadUtilsModule_run {| serverConfig := (length (heap st0) + 6)%nat |}
             st2 o _ oa Ho2 Hauth Hoa2), Hjwt.
  cbn [default from_option id]. by rewrite Hsecret.
Qed.

(** C9.  Once [config.js] has loaded, let the process run any operations
    and then load [utils-server.js]: its binding [jwtSecret] is
    [auth.jwtSecret] of the configuration, which is [JWT_SECRET] as it was
    when the configuration was built, trimmed, and not empty.  Whatever
    the token, the promise of [readJWT] is fulfilled: with the decoded
    payload when verification against that secret succeeds, and with
    [null] when it fails, for whatever reason the library gives.  It is
    never rejected. *)
Theorem readJWT_never_rejects `{URLParser} `{JsonWebToken} root st0 m st1 ops token :
  loadConfigModule root st0 = (Normal m, st1) →
  let st2 := (run m ops st1).2 in
  ∃ secret u,
    secret = JsString.trim (Js.String_ (default VUndefined (env st0 !! "JWT_SECRET")))
    ∧ secret ≠ ""
    ∧ readPath st1 (VObject (serverConfig m)) ["auth"; "jwtSecret"]
      = Some (VString secret)
    ∧ loadUtilsModule m st2 = (Normal u, st2)
    ∧ jwtSecret u = VString secret
    ∧ readJWT u token
      = Fulfilled (match jwt_verify token (VString secret) with
                   | Succeeded payload => payload
                   | Failed _ => VNull
                   end)
    ∧ (∀ payload, jwt_verify token (VString secret) = Succeeded payload →
                  readJWT u token = Fulfilled payload)
    ∧ (∀ err, jwt_verify token (VString secret) = Failed err →
              readJWT u token = Fulfilled VNull)
    ∧ (∀ reason, readJWT u token ≠ Rejected reason)
    ∧ readJWT u token ≠ Pending.
Proof.
  intros Hload st2.
  destruct (loadUtilsModule_after root st0 m st1 ops Hload) as (Hne & Hread & Hu).
  eexists _, {| jwtSecret := VString _ |}.
  split; [reflexivity|]. split; [exact Hne|]. split; [exact Hread|].
  split; [exact Hu|]. split; [reflexivity|].
  rewrite readJWT_settles. cbn [jwtSecret].
  split; [done|].
  split; [by intros payload ->|].
  split; [by intros err ->|].
  split; [by intros reason|done].
Qed.

(** The configuration is built with [JWT_SECRET= s3cret ]; the process
    then rewrites the variable and tries to change the secret.  With the
    sample library, the token [good] still reads as its payload and a
    forged one as [null]. *)
Lemma readJWT_never_rejects_witness :
  let st0 := processWith [("WORLD", "town/main"); ("JWT_SECRET", " s3cret ")] in
  let out := loadConfigModule "/srv/hyperfy" st0 in
  let m := {| serverConfig := 6%nat |} in
  let ops := [OpSetEnv "JWT_SECRET" (VString "other");
              OpAssign 4%nat "jwtSecret" (VString "other")] in
  let st2 := (run m ops out.2).2 in
  out.1 = Normal m
  ∧ ∃ u, loadUtilsModule m st2 = (Normal u, st2)
         ∧ jwtSecret u = VString "s3cret"
         ∧ readJWT (H := sampleJwt) u (VString "good") = Fulfilled (VString "user-1")
         ∧ readJWT (H := sampleJwt) u (VString "forged") = Fulfilled VNull.
Proof.
  intros st0 out m ops st2.
  assert (out.1 = Normal m) as Hout by (vm_compute; reflexivity).
  split; [exact Hout|].
  destruct (readJWT_never_rejects (H := whatwg) (H0 := sampleJwt) "/srv/hyperfy"
              st0 m out.2 ops (VString "good") (run_eq _ _ _ Hout))
    as (secret & u & Hs & _ & _ & Hu & Hsec & _ & Hgood & _).
  destruct (readJWT_never_rejects (H := whatwg) (H0 := sampleJwt) "/srv/hyperfy"
              st0 m out.2 ops (VString "forged") (run_eq _ _ _ Hout))
    as (secret' & u' & Hs' & _ & _ & Hu' & _ & _ & _ & Hforged & _).
  assert (secret = "s3cret") as -> by (rewrite Hs; vm_compute; reflexivity).
  assert (secret' = "s3cret") as -> by (rewrite Hs'; vm_compute; reflexivity).
  unfold st2. rewrite Hu in Hu'. apply (f_equal fst) in Hu'. cbn [fst] in Hu'.
  injection Hu' as <-.
  exists u. split; [exact Hu|]. split; [exact Hsec|].
  split; [by apply Hgood|]. by apply (Hforged 0%nat).
Defined.

(** * Further properties of the code *)

(** ** When [readEnv] throws *)

(** X8.  [readEnv] throws exactly when the key is required, no default was
    given, and the variable is absent, the message then ending on
    [is required], or present and empty once trimmed with [allowEmpty]
    off, the message then ending on [cannot be empty].  A default
    silences [required]. *)
Theorem readEnv_throws key o st e :
  (readEnv key o st).1 = Throw e
  ↔ required o = true ∧ defaultValue o = VUndefined
    ∧ ((absent st key
        ∧ e = Error ("Environment variable " +:+ key +:+ " is required"))
       ∨ (¬ absent st key ∧ allowEmpty o = false
          ∧ JsString.trim (Js.String_ (default VUndefined (env st !! key))) = ""
          ∧ e = Error ("Environment variable " +:+ key +:+ " cannot be empty"))).
Proof.
  destruct o as [req d ae]. unfold absent, readEnv, bind, Js.getEnv, ret, throw.
  cbn [fst snd required defaultValue allowEmpty].
  destruct (Js.nullish (default VUndefined (env st !! key))) eqn:Hn.
  - destruct (bool_decide_reflect (d = VUndefined)) as [->|Hd]; cbn [negb].
    + destruct req; cbn [fst]; split; try done.
      * intros [= <-]. split; [done|]. split; [done|]. by left.
      * intros (_ & _ & [[_ ->]|[Hna _]]); [done|by destruct Hna].
      * by intros (? & _).
    + cbn [fst]. split; [done|]. by intros (_ & ? & _).
  - destruct (JsString.trim (Js.String_ (default VUndefined (env st !! key))))
      as [|c t] eqn:Ht; cbn [String.length Nat.eqb].
    + destruct ae; cbn [negb andb fst].
      * split; [done|]. intros (_ & _ & [[? _]|(_ & ? & _)]); done.
      * destruct (bool_decide_reflect (d = VUndefined)) as [->|Hd]; cbn [negb].
        -- destruct req; cbn [fst]; split; try done.
           ++ intros [= <-]. split; [done|]. split; [done|]. right. by repeat split.
           ++ intros (_ & _ & [[? _]|(_ & _ & _ & ->)]); done.
           ++ by intros (? & _).
        -- cbn [fst]. split; [done|]. by intros (_ & ? & _).
    + rewrite andb_false_r. cbn [fst]. split; [done|].
      intros (_ & _ & [[? _]|(_ & _ & ? & _)]); done.
Qed.

(** ** [parseInteger] *)


Lemma parseInteger_accepts v key o z :
  Js.parseInt10 v = Int z → inBounds o z → parseInteger v key o = Normal (Int z).
Proof.
  intros Hp (Hz & Hmin & Hmax). unfold parseInteger. rewrite Hp.
  cbn [Js.isFinite negb throwIf bindC Js.strictEq].
  destruct o as [mn mx az]. cbn [IntOpts.min IntOpts.max IntOpts.allowZero] in *.
  assert (negb az && (z =? 0) = false) as ->.
  { destruct az; [done|]. cbn [negb andb]. apply Z.eqb_neq. by apply Hz. }
  cbn [throwIf bindC].
  destruct mn as [mn|]; cbn [Js.lt].
  - specialize (Hmin mn eq_refl). destruct (Z.ltb_spec z mn); [lia|].
    cbn [throwIf bindC]. destruct mx as [mx|]; [|done].
    specialize (Hmax mx eq_refl). by destruct (Z.ltb_spec mx z); [lia|].
  - cbn [throwIf bindC]. destruct mx as [mx|]; [|done].
    specialize (Hmax mx eq_refl). by destruct (Z.ltb_spec mx z); [lia|].
Qed.

Lemma parseInteger_returns v key o n :
  parseInteger v key o = Normal n
  ↔ ∃ z, n = Int z ∧ Js.parseInt10 v = Int z ∧ inBounds o z.
Proof.
  split.
  - intros (z & -> & Hp & Hb)%parseInteger_Normal. by exists z.
  - intros (z & -> & Hp & Hb). by apply parseInteger_accepts.
Qed.

(** ** Printing and reading back an integer *)

Lemma digit_pretty_N_char d :
  (d < 10)%N → Js.digit (pretty_N_char d) = Some (Z.of_N d).
Proof.
  intros Hd.
  assert (d = 0 ∨ d = 1 ∨ d = 2 ∨ d = 3 ∨ d = 4 ∨ d = 5 ∨ d = 6 ∨ d = 7
          ∨ d = 8 ∨ d = 9)%N as Hc by lia.
  repeat (destruct Hc as [->|Hc]; [reflexivity|]). by subst.
Qed.

Lemma pretty_N_go_head x s :
  (0 < x)%N →
  ∃ d rest, (d < 10)%N ∧ pretty_N_go x s = String (pretty_N_char d) rest.
Proof.
  revert s. induction (N.lt_wf_0 x) as [x _ IH]. intros s Hx.
  rewrite pretty_N_go_step by done.
  destruct (decide (x `div` 10 = 0)%N) as [->|Hq].
  - rewrite pretty_N_go_0. exists (x `mod` 10)%N, s. split; [|done].
    by apply N.mod_lt.
  - apply IH; [by apply N.div_lt|by apply N.neq_0_lt_0].
Qed.

Lemma parseDigits_pretty_N_go x s acc :
  (0 < x)%N →
  ∃ k, 0 ≤ k
       ∧ Js.parseDigits acc (pretty_N_go x s)
         = Js.parseDigits (Some (default 0 acc * 10 ^ k + Z.of_N x)) s.
Proof.
  revert s acc. induction (N.lt_wf_0 x) as [x _ IH]. intros s acc Hx.
  rewrite pretty_N_go_step by done.
  assert (x `mod` 10 < 10)%N as Hd by by apply N.mod_lt.
  pose proof (N.div_mod x 10 ltac:(done)) as Hdm.
  destruct (decide (x `div` 10 = 0)%N) as [Hq|Hq].
  - rewrite Hq, pretty_N_go_0. exists 1. split; [done|].
    cbn [Js.parseDigits]. rewrite digit_pretty_N_char by done.
    do 2 f_equal. lia.
  - destruct (IH (x `div` 10)%N ltac:(by apply N.div_lt)
                (String (pretty_N_char (x `mod` 10)) s) acc
                ltac:(by apply N.neq_0_lt_0))
      as (k & Hk & ->).
    exists (k + 1). split; [lia|].
    cbn [Js.parseDigits]. rewrite digit_pretty_N_char by done.
    cbn [default from_option id]. do 2 f_equal.
    rewrite Z.pow_add_r by lia. lia.
Qed.

Lemma parseDigits_pretty_N x :
  (0 < x)%N → Js.parseDigits None (pretty_N_go x "") = Some (Z.of_N x).
Proof.
  intros Hx. destruct (parseDigits_pretty_N_go x "" None Hx) as (k & _ & ->).
  cbn [Js.parseDigits default from_option id]. f_equal; lia.
Qed.

Lemma parseInt10_digits d rest :
  (d < 10)%N →
  let s := String (pretty_N_char d) rest in
  Js.parseInt10 (VString s)
  = match Js.parseDigits None s with Some m => Double.ofZ (1 * m) | None => NaN end
  ∧ Js.parseInt10 (VString (String "-" s))
    = match Js.parseDigits None s with
      | Some m => Double.ofZ (-1 * m)
      | None => NaN
      end.
Proof.
  intros Hd.
  assert (d = 0 ∨ d = 1 ∨ d = 2 ∨ d = 3 ∨ d = 4 ∨ d = 5 ∨ d = 6 ∨ d = 7
          ∨ d = 8 ∨ d = 9)%N as Hc by lia.
  repeat (destruct Hc as [->|Hc]; [by split|]). by subst.
Qed.

Lemma ofZ_safe z : Z.abs z ≤ 2 ^ 53 → Double.ofZ z = Int z.
Proof.
  intros Hz. unfold Double.ofZ. cbv zeta.
  destruct (Z.ltb_spec (Z.abs z) (2 ^ 53)) as [|Hge]; [done|].
  assert (Z.abs z = 2 ^ 53) as Ha by lia. rewrite Ha.
  assert (z = 2 ^ 53 ∨ z = - 2 ^ 53) as [-> | ->] by lia; reflexivity.
Qed.

Lemma parseInt10_pretty z :
  Z.abs z ≤ 2 ^ 53 → Js.parseInt10 (VString (pretty z)) = Int z.
Proof.
  intros Hsafe.
  destruct z as [|p|p]; [reflexivity|..];
    destruct (pretty_N_go_head (N.pos p) "" ltac:(done)) as (d & rest & Hd & Hs);
    destruct (parseInt10_digits d rest Hd) as [Hpos Hneg];
    pose proof (parseDigits_pretty_N (N.pos p) ltac:(done)) as Hdig;
    rewrite Hs in Hdig; cbv zeta in Hpos, Hneg; rewrite Hdig in Hpos, Hneg.
  - change (pretty (Z.pos p)) with (pretty_N_go (N.pos p) "").
    rewrite Hs, Hpos. by apply ofZ_safe.
  - change (pretty (Z.neg p)) with ("-" +:+ pretty_N_go (N.pos p) "").
    rewrite Hs, app_cons, app_empty_l, Hneg. by apply ofZ_safe.
Qed.

Lemma parseInt10_numberToString z :
  Z.abs z ≤ 2 ^ 53 → Js.parseInt10 (VString (Js.numberToString (Int z))) = Int z.
Proof.
  intros Hsafe. rewrite numberToString_safe by done. by apply parseInt10_pretty.
Qed.

(** X10.  Up to 2^53, an integer printed by [String] reads back as itself
    through [Number.parseInt], and so does the number itself; what
    [parseInteger] has returned it accepts again, under the same
    options. *)
Theorem parseInt_String z :
  Z.abs z ≤ 2 ^ 53 →
  Js.parseInt10 (VString (Js.numberToString (Int z))) = Int z
  ∧ Js.parseInt10 (VNumber (Int z)) = Int z
  ∧ (∀ v key o, parseInteger v key o = Normal (Int z) →
                parseInteger (VNumber (Int z)) key o = Normal (Int z)).
Proof.
  intros Hsafe.
  pose proof (parseInt10_numberToString z Hsafe) as Hz.
  split; [exact Hz|]. split; [exact Hz|].
  intros v key o (z' & [= <-] & _ & Hb)%parseInteger_returns.
  apply parseInteger_accepts; [exact Hz|done].
Qed.

Lemma parseInt_String_witness :
  Js.parseInt10 (VString (Js.numberToString (Int 65535))) = Int 65535
  ∧ parseInteger (VNumber (Int 65535)) "PORT"
      {| IntOpts.min := Some 1; IntOpts.max := Some 65535; IntOpts.allowZero := true |}
    = Normal (Int 65535).
Proof.
  destruct (parseInt_String 65535) as (Hs & _ & Hp); [by vm_compute|].
  split; [exact Hs|]. apply (Hp (VString "65535")). reflexivity.
Defined.

(** ** The numbers of a configuration *)

(** X6.  In a configuration that was built, [server.port] is an integer
    from 1 to 65535, [server.saveInterval] an integer that is not
    negative, and [public.maxUploadSize] an integer that is at least 1. *)
Theorem config_numbers_in_range `{URLParser} root st c st' :
  buildServerConfig root st = (Normal c, st') →
  ∃ port saveInterval maxUploadSize,
    readPath st' (VObject c) ["server"; "port"] = Some (VNumber (Int port))
    ∧ 1 ≤ port ≤ 65535
    ∧ readPath st' (VObject c) ["server"; "saveInterval"]
      = Some (VNumber (Int saveInterval))
    ∧ 0 ≤ saveInterval
    ∧ readPath st' (VObject c) ["public"; "maxUploadSize"]
      = Some (VNumber (Int maxUploadSize))
    ∧ 1 ≤ maxUploadSize.
Proof.
  intros (r & Hr & -> & ->)%buildServerConfig_Normal.
  destruct Hr as (_ & (vp & _ & Hp) & (vs & _ & Hs) & _ & _ & _ & _ & (vu & _ & Hu) & _).
  apply parseInteger_Normal in Hp as (p & Hp & _ & _ & Hpmin & Hpmax).
  apply parseInteger_Normal in Hs as (s & Hs & _ & _ & Hsmin & _).
  apply parseInteger_Normal in Hu as (u & Hu & _ & _ & Humin & _).
  exists p, s, u.
  split; [read_config; read_config; by rewrite Hp|].
  split; [split; [by apply Hpmin|by apply Hpmax]|].
  split; [read_config; read_config; by rewrite Hs|].
  split; [by apply Hsmin|].
  split; [read_config; read_config; by rewrite Hu|].
  by apply Humin.
Qed.

Lemma config_numbers_in_range_witness :
  let st := processWith [("WORLD", "town/main"); ("JWT_SECRET", "s3cret");
                         ("PORT", " 443 "); ("SAVE_INTERVAL", "0")] in
  let out := buildServerConfig "/srv/hyperfy" st in
  out.1 = Normal 6%nat
  ∧ ∃ port saveInterval maxUploadSize,
      readPath out.2 (VObject 6%nat) ["server"; "port"] = Some (VNumber (Int port))
      ∧ 1 ≤ port ≤ 65535
      ∧ readPath out.2 (VObject 6%nat) ["server"; "saveInterval"]
        = Some (VNumber (Int saveInterval))
      ∧ 0 ≤ saveInterval
      ∧ readPath out.2 (VObject 6%nat) ["public"; "maxUploadSize"]
        = Some (VNumber (Int maxUploadSize))
      ∧ 1 ≤ maxUploadSize.
Proof.
  intros st out.
  assert (out.1 = Normal 6%nat) as Hout by (vm_compute; reflexivity).
  split; [exact Hout|].
  apply (config_numbers_in_range (H := whatwg) "/srv/hyperfy" st 6%nat out.2).
  by apply run_eq.
Defined.

(** ** The optional values *)

Lemma readEnv_mayBeEmpty key st :
  (readEnv key mayBeEmpty st).1
  = Normal (let raw := default VUndefined (env st !! key) in
            if Js.nullish raw then VUndefined
            else VString (JsString.trim (Js.String_ raw))).
Proof.
  unfold readEnv, bind, Js.getEnv, ret. cbn [fst mayBeEmpty allowEmpty negb andb].
  cbv zeta. by destruct (Js.nullish _).
Qed.

Lemma or_null_mayBeEmpty key st v :
  (readEnv key mayBeEmpty st).1 = Normal v → Js.or v VNull = orNull st key.
Proof.
  rewrite readEnv_mayBeEmpty. intros [= <-]. unfold orNull. cbv zeta.
  destruct (Js.nullish _); [done|].
  unfold Js.or, Js.truthy. by case_bool_decide.
Qed.

Lemma hasAdminCode_mayBeEmpty key st v :
  (readEnv key mayBeEmpty st).1 = Normal v →
  Js.truthy v && bool_decide (0 < Js.length v)
  = bool_decide (orNull st key ≠ VNull).
Proof.
  rewrite readEnv_mayBeEmpty. intros [= <-]. unfold orNull. cbv zeta.
  destruct (Js.nullish _).
  { cbn [Js.truthy andb]. symmetry. apply bool_decide_eq_false_2.
    intros Hn. by destruct Hn. }
  unfold Js.truthy, Js.length.
  destruct (JsString.trim _) as [|a t].
  - rewrite (bool_decide_eq_true_2 ("" = "")) by done. cbn [negb andb].
    symmetry. apply bool_decide_eq_false_2. intros Hn. by destruct Hn.
  - rewrite (bool_decide_eq_false_2 (String a t = "")) by done. cbn [negb andb].
    rewrite !bool_decide_eq_true_2; [done|done|]. cbn [String.length]. lia.
Qed.

(** X7.  In a configuration that was built, [auth.adminCode],
    [commitHash] and the three fields of [livekit] hold their variable,
    trimmed, or [null] when the variable is absent or blank; so each is
    [null] or a string that is not empty and has no white space around
    it.  [auth.hasAdminCode] is true exactly when [auth.adminCode] is not
    [null]. *)
Theorem config_optional_values `{URLParser} root st c st' :
  buildServerConfig root st = (Normal c, st') →
  readPath st' (VObject c) ["auth"; "adminCode"] = Some (orNull st "ADMIN_CODE")
  ∧ readPath st' (VObject c) ["auth"; "hasAdminCode"]
    = Some (VBool (bool_decide (orNull st "ADMIN_CODE" ≠ VNull)))
  ∧ readPath st' (VObject c) ["commitHash"] = Some (orNull st "COMMIT_HASH")
  ∧ readPath st' (VObject c) ["livekit"; "wsUrl"] = Some (orNull st "LIVEKIT_WS_URL")
  ∧ readPath st' (VObject c) ["livekit"; "apiKey"] = Some (orNull st "LIVEKIT_API_KEY")
  ∧ readPath st' (VObject c) ["livekit"; "apiSecret"]
    = Some (orNull st "LIVEKIT_API_SECRET")
  ∧ (∀ key, orNull st key = VNull
            ∨ ∃ s, orNull st key = VString s ∧ s ≠ "" ∧ JsString.trim s = s).
Proof.
  intros (r & Hr & -> & ->)%buildServerConfig_Normal.
  destruct Hr as (_ & _ & _ & _ & _ & _ & _ & _ & Ha & Hc & Hw & Hk & Hs).
  split; [read_config; read_config; by rewrite (or_null_mayBeEmpty _ _ _ Ha)|].
  split; [read_config; read_config; by rewrite (hasAdminCode_mayBeEmpty _ _ _ Ha)|].
  split; [read_config; by rewrite (or_null_mayBeEmpty _ _ _ Hc)|].
  split; [read_config; read_config; by rewrite (or_null_mayBeEmpty _ _ _ Hw)|].
  split; [read_config; read_config; by rewrite (or_null_mayBeEmpty _ _ _ Hk)|].
  split; [read_config; read_config; by rewrite (or_null_mayBeEmpty _ _ _ Hs)|].
  intros key. unfold orNull. cbv zeta. destruct (Js.nullish _); [by left|].
  case_bool_decide as Ht; [by left|]. right. eexists. split; [done|].
  split; [done|]. apply trim_idemp.
Qed.

Lemma config_optional_values_witness :
  let st := processWith [("WORLD", "town/main"); ("JWT_SECRET", "s3cret");
                         ("ADMIN_CODE", "  "); ("COMMIT_HASH", " abc123 ")] in
  let out := buildServerConfig "/srv/hyperfy" st in
  out.1 = Normal 6%nat
  ∧ readPath out.2 (VObject 6%nat) ["auth"; "adminCode"] = Some VNull
  ∧ readPath out.2 (VObject 6%nat) ["auth"; "hasAdminCode"] = Some (VBool false)
  ∧ readPath out.2 (VObject 6%nat) ["commitHash"] = Some (VString "abc123")
  ∧ readPath out.2 (VObject 6%nat) ["livekit"; "wsUrl"] = Some VNull.
Proof.
  intros st out.
  assert (out.1 = Normal 6%nat) as Hout by (vm_compute; reflexivity).
  split; [exact Hout|].
  destruct (config_optional_values (H := whatwg) "/srv/hyperfy" st 6%nat out.2)
    as (Ha & Hh & Hc & Hw & _); [by apply run_eq|].
  rewrite Ha, Hh, Hc, Hw. repeat split; vm_compute; reflexivity.
Defined.

(** ** What construction does to the process *)


(** ** Blank required variables *)

Lemma readEnv_required_blank key st :
  ¬ absent st key →
  JsString.trim (Js.String_ (default VUndefined (env st !! key))) = "" →
  (readEnv key isRequired st).1
  = Throw (Error ("Environment variable " +:+ key +:+ " cannot be empty")).
Proof.
  intros Ha Ht. unfold absent in Ha. unfold readEnv, bind, Js.getEnv. cbn [fst].
  destruct (Js.nullish _); [done|]. by rewrite Ht.
Qed.

Lemma throws_bind_l {A B} (m : M A) (k : A → M B) st e :
  (m st).1 = Throw e → (bind m k st).1 = Throw e.
Proof.
  unfold bind. destruct (m st) as [[a|e'] st1]; cbn [fst]; [done|]. by intros [= ->].
Qed.

(** X9.  [WORLD] is the first thing construction looks at: without it, or
    with a blank one, the error thrown is the one of [readEnv] for
    [WORLD], whatever else is wrong.  A blank [JWT_SECRET] makes
    construction fail like an absent one. *)
Theorem build_needs_WORLD_and_JWT_SECRET `{URLParser} root st :
  (absent st "WORLD" →
   (buildServerConfig root st).1
   = Throw (Error "Environment variable WORLD is required"))
  ∧ (¬ absent st "WORLD" →
     JsString.trim (Js.String_ (default VUndefined (env st !! "WORLD"))) = "" →
     (buildServerConfig root st).1
     = Throw (Error "Environment variable WORLD cannot be empty"))
  ∧ (¬ absent st "JWT_SECRET" →
     JsString.trim (Js.String_ (default VUndefined (env st !! "JWT_SECRET"))) = "" →
     fails (buildServerConfig root) st).
Proof.
  split; [|split].
  - intros Ha. unfold buildServerConfig. apply throws_bind_l.
    by rewrite readEnv_required_absent.
  - intros Ha Ht. unfold buildServerConfig. apply throws_bind_l.
    by rewrite readEnv_required_blank.
  - intros Ha Ht. unfold buildServerConfig.
    walk_to ltac:(eapply fails_readEnv_Throw; by apply readEnv_required_blank).
Qed.

(** ** Construction that returns *)

Lemma bind_readEnv {B} key o (k : value → M B) st v :
  (readEnv key o st).1 = Normal v → bind (readEnv key o) k st = k v st.
Proof. intros Hv. unfold bind. by rewrite readEnv_run, Hv. Qed.

Lemma bind_lift {A B} (c : completion A) (k : A → M B) st a :
  c = Normal a → bind (lift c) k st = k a st.
Proof. by intros ->. Qed.

Section Returns.
Context `{URLParser}.

Lemma buildServerConfig_resolves root st r :
  resolves st r →
  buildServerConfig root st
  = (Normal (length (heap st) + 6)%nat,
     State (heap st ++ configObjects root (length (heap st)) (env st) r) (env st)).
Proof.
  intros ((vw & Hw1 & Hw2) & (vp & Hp1 & Hp2) & (vs & Hs1 & Hs2) & Hj
          & (va & Ha1 & Ha2) & (vi & Hi1 & Hi2) & (vx & Hx1 & Hx2)
          & (vu & Hu1 & Hu2) & Hadmin & Hcommit & Hlw & Hlk & Hls).
  unfold buildServerConfig.
  rewrite (bind_readEnv _ _ _ _ _ Hw1), (bind_lift _ _ _ _ Hw2). cbv zeta.
  rewrite (bind_readEnv _ _ _ _ _ Hp1), (bind_lift _ _ _ _ Hp2).
  rewrite (bind_readEnv _ _ _ _ _ Hs1), (bind_lift _ _ _ _ Hs2).
  rewrite (bind_readEnv _ _ _ _ _ Hj).
  rewrite (bind_readEnv _ _ _ _ _ Ha1), (bind_lift _ _ _ _ Ha2).
  rewrite (bind_readEnv _ _ _ _ _ Hi1), (bind_lift _ _ _ _ Hi2).
  rewrite (bind_readEnv _ _ _ _ _ Hx1), (bind_lift _ _ _ _ Hx2).
  rewrite (bind_readEnv _ _ _ _ _ Hu1), (bind_lift _ _ _ _ Hu2).
  rewrite (bind_readEnv _ _ _ _ _ Hadmin), (bind_readEnv _ _ _ _ _ Hcommit).
  rewrite (bind_readEnv _ _ _ _ _ Hlw), (bind_readEnv _ _ _ _ _ Hlk).
  rewrite (bind_readEnv _ _ _ _ _ Hls).
  unfold bind at 1. unfold Js.newObject at 1.
  unfold bind at 1. rewrite buildPublicEnv_run. cbn [heap env].
  do 4 (unfold bind at 1; rewrite frozenObject_run; cbn [heap env]).
  unfold bind at 1. rewrite <- !app_assoc. cbn [app]. rewrite freeze_run.
  rewrite frozenObject_run. cbn [heap env props].
  rewrite !length_app. cbn [length].
  rewrite ?Nat.add_succ_r, ?Nat.add_0_r.
  replace (length (heap st) + 6)%nat
    with (S (S (S (S (S (S (length (heap st)))))))) by lia.
  rewrite <- ?app_assoc. reflexivity.
Qed.

End Returns.

(** X2.  [buildServerConfig] returns exactly when the thirteen lookups and
    the validations of the world name, the three integers and the three
    URLs all return; nothing else in it can throw. *)
Theorem buildServerConfig_returns_iff `{URLParser} root st :
  returns (buildServerConfig root) st ↔ ∃ r, resolves st r.
Proof.
  split.
  - intros [c Hc]. apply run_eq in Hc.
    apply buildServerConfig_Normal in Hc as (r & Hr & _). by exists r.
  - intros [r Hr]. eexists. by rewrite (buildServerConfig_resolves root st r Hr).
Qed.

(** ** The defaults *)

(** X3.  With a [WORLD] that [ensureRelativePath] accepts, a [JWT_SECRET]
    that is not blank, and the port, the save interval, the three URLs
    and the upload size left out, construction returns (the default URLs
    going through the parser of the examples), with the port 3000, the
    interval 60, the upload size 12 and the three URLs of [localhost:3000];
    the secret is [JWT_SECRET] trimmed. *)
Theorem buildServerConfig_defaults root st w name s :
  env st !! "WORLD" = Some (VString w) →
  ensureRelativePath (VString (JsString.trim w)) "WORLD" = Normal name →
  JsString.trim w ≠ "" →
  env st !! "JWT_SECRET" = Some (VString s) →
  JsString.trim s ≠ "" →
  Forall (absent st)
    ["PORT"; "SAVE_INTERVAL"; "PUBLIC_ASSETS_URL"; "PUBLIC_API_URL";
     "PUBLIC_WS_URL"; "PUBLIC_MAX_UPLOAD_SIZE"] →
  ∃ c st',
    buildServerConfig (H := whatwg) root st = (Normal c, st')
    ∧ readPath st' (VObject c) ["world"; "name"] = Some (VString name)
    ∧ readPath st' (VObject c) ["server"; "port"] = Some (VNumber (Int 3000))
    ∧ readPath st' (VObject c) ["server"; "saveInterval"] = Some (VNumber (Int 60))
    ∧ readPath st' (VObject c) ["auth"; "jwtSecret"]
      = Some (VString (JsString.trim s))
    ∧ readPath st' (VObject c) ["public"; "assetsUrl"]
      = Some (VString "http://localhost:3000/assets")
    ∧ readPath st' (VObject c) ["public"; "apiUrl"]
      = Some (VString "http://localhost:3000/api")
    ∧ readPath st' (VObject c) ["public"; "wsUrl"]
      = Some (VString "ws://localhost:3000/ws")
    ∧ readPath st' (VObject c) ["public"; "maxUploadSize"]
      = Some (VNumber (Int 12)).
Proof.
  intros Hw Hname Hwne Hs Hsne Habs.
  apply Forall_cons in Habs as [Hport Habs]. apply Forall_cons in Habs as [Hsave Habs].
  apply Forall_cons in Habs as [Hassets Habs]. apply Forall_cons in Habs as [Hapi Habs].
  apply Forall_cons in Habs as [Hws Habs]. apply Forall_cons in Habs as [Hup _].
  destruct (readEnv "ADMIN_CODE" mayBeEmpty st).1 as [va|] eqn:Hva;
    [|by rewrite readEnv_mayBeEmpty in Hva].
  destruct (readEnv "COMMIT_HASH" mayBeEmpty st).1 as [vc|] eqn:Hvc;
    [|by rewrite readEnv_mayBeEmpty in Hvc].
  destruct (readEnv "LIVEKIT_WS_URL" mayBeEmpty st).1 as [v1|] eqn:Hv1;
    [|by rewrite readEnv_mayBeEmpty in Hv1].
  destruct (readEnv "LIVEKIT_API_KEY" mayBeEmpty st).1 as [v2|] eqn:Hv2;
    [|by rewrite readEnv_mayBeEmpty in Hv2].
  destruct (readEnv "LIVEKIT_API_SECRET" mayBeEmpty st).1 as [v3|] eqn:Hv3;
    [|by rewrite readEnv_mayBeEmpty in Hv3].
  set (r := {| r_worldName := name; r_port := Int 3000; r_saveInterval := Int 60;
               r_jwtSecret := VString (JsString.trim s);
               r_assetsUrl := "http://localhost:3000/assets";
               r_apiUrl := "http://localhost:3000/api";
               r_wsUrl := "ws://localhost:3000/ws";
               r_maxUploadSize := Int 12;
               r_adminCode := va; r_commitHash := vc; r_lkWsUrl := v1;
               r_lkApiKey := v2; r_lkApiSecret := v3 |}).
  assert (resolves (H := whatwg) st r) as Hr.
  { unfold resolves. cbn [r r_worldName r_port r_saveInterval r_jwtSecret
      r_assetsUrl r_apiUrl r_wsUrl r_maxUploadSize r_adminCode r_commitHash
      r_lkWsUrl r_lkApiKey r_lkApiSecret].
    split; [eexists; split; [by apply readEnv_present|done]|].
    split; [eexists; split; [by apply readEnv_default|reflexivity]|].
    split; [eexists; split; [by apply readEnv_default|reflexivity]|].
    split; [by apply readEnv_present|].
    split; [eexists; split; [by apply readEnv_default|reflexivity]|].
    split; [eexists; split; [by apply readEnv_default|reflexivity]|].
    split; [eexists; split; [by apply readEnv_default|reflexivity]|].
    split; [eexists; split; [by apply readEnv_default|reflexivity]|].
    done. }
  eexists _, _. split; [exact (buildServerConfig_resolves root st r Hr)|].
  repeat split; read_config; by read_config.
Qed.

Lemma buildServerConfig_defaults_witness :
  let st := processWith [("WORLD", " town/main "); ("JWT_SECRET", "s3cret")] in
  ∃ c st',
    buildServerConfig (H := whatwg) "/srv/hyperfy" st = (Normal c, st')
    ∧ readPath st' (VObject c) ["world"; "name"] = Some (VString "town/main")
    ∧ readPath st' (VObject c) ["server"; "port"] = Some (VNumber (Int 3000))
    ∧ readPath st' (VObject c) ["server"; "saveInterval"] = Some (VNumber (Int 60))
    ∧ readPath st' (VObject c) ["auth"; "jwtSecret"] = Some (VString "s3cret")
    ∧ readPath st' (VObject c) ["public"; "assetsUrl"]
      = Some (VString "http://localhost:3000/assets")
    ∧ readPath st' (VObject c) ["public"; "apiUrl"]
      = Some (VString "http://localhost:3000/api")
    ∧ readPath st' (VObject c) ["public"; "wsUrl"]
      = Some (VString "ws://localhost:3000/ws")
    ∧ readPath st' (VObject c) ["public"; "maxUploadSize"]
      = Some (VNumber (Int 12)).
Proof.
  intros st.
  apply (buildServerConfig_defaults "/srv/hyperfy" st " town/main " "town/main"
           "s3cret").
  - reflexivity.
  - reflexivity.
  - discriminate.
  - reflexivity.
  - discriminate.
  - repeat apply Forall_cons_2; try apply Forall_nil_2; reflexivity.
Defined.

(** ** Variables the configuration does not read *)

Lemma blind_ret {A} (a : A) : blind (ret a).
Proof. by intros st1 st2 Hal. Qed.

Lemma blind_lift {A} (c : completion A) : blind (lift c).
Proof. by intros st1 st2 Hal. Qed.

Lemma blind_bind {A B} (m : M A) (k : A → M B) :
  blind m → (∀ a, blind (k a)) → blind (bind m k).
Proof.
  intros Hm Hk st1 st2 Hal. unfold bind.
  destruct (Hm st1 st2 Hal) as [H1 H2].
  destruct (m st1) as [[a1|e1] st1'], (m st2) as [[a2|e2] st2'];
    cbn [fst snd] in *; try done.
  - injection H1 as <-. by apply Hk.
  - by injection H1 as <-.
Qed.

Lemma blind_readEnv key o : relevant key → blind (readEnv key o).
Proof.
  intros Hk st1 st2 Hal. rewrite !readEnv_state. split; [|done].
  destruct Hal as [_ He]. unfold readEnv, bind, Js.getEnv. cbn [fst snd].
  rewrite (He key Hk).
  repeat match goal with |- context [if ?b then _ else _] => destruct b end; done.
Qed.

Lemma blind_newObject p : blind (Js.newObject p).
Proof.
  intros [h1 e1] [h2 e2] [Hh He]. cbn [heap env] in *. subst h1.
  unfold Js.newObject. cbn [fst snd heap env]. split; [done|by split].
Qed.

Lemma blind_freeze l : blind (Js.freeze l).
Proof.
  intros [h1 e1] [h2 e2] [Hh He]. cbn [heap env] in *. subst h1.
  unfold Js.freeze, Js.deref. cbn [heap env].
  destruct (h2 !! l); cbn [fst snd]; (split; [done|by split]).
Qed.

Lemma publicRaw_alike st1 st2 : alike st1 st2 → publicRaw (env st1) = publicRaw (env st2).
Proof.
  intros [_ He]. apply map_eq. intros k. rewrite !publicRaw_lookup.
  destruct (JsString.startsWith k "PUBLIC_") eqn:Hk; [|done].
  rewrite (He k); [done|by right].
Qed.

Section Blind.
Context `{URLParser}.

Lemma blind_frozenObject p : blind (frozenObject p).
Proof.
  intros [h1 e1] [h2 e2] [Hh He]. cbn [heap env] in *. subst h1.
  rewrite !frozenObject_run. cbn [fst snd heap env]. split; [done|by split].
Qed.

Lemma blind_buildPublicEnv overrides : blind (buildPublicEnv overrides).
Proof.
  intros st1 st2 Hal. rewrite !buildPublicEnv_run. cbn [fst snd].
  rewrite (publicRaw_alike st1 st2 Hal). destruct Hal as [Hh He].
  rewrite Hh. split; [done|by split].
Qed.

Lemma blind_buildServerConfig root : blind (buildServerConfig root).
Proof.
  unfold buildServerConfig. cbv zeta.
  repeat lazymatch goal with
         | |- blind (readEnv _ _) =>
             apply blind_readEnv;
             first [by right | left; unfold namedVariables; set_solver]
         | |- blind (lift _) => apply blind_lift
         | |- blind (Js.newObject _) => apply blind_newObject
         | |- blind (Js.freeze _) => apply blind_freeze
         | |- blind (buildPublicEnv _) => apply blind_buildPublicEnv
         | |- blind (frozenObject _) => apply blind_frozenObject
         | |- blind (bind _ _) => apply blind_bind; [|intros ?]
         end.
Qed.
End Blind.

(** X4.  [buildServerConfig] reads nine variables by name and those whose
    name begins with [PUBLIC_]: on two environments that agree on these,
    over the same heap, it completes alike and leaves the same heap. *)
Theorem buildServerConfig_reads_only `{URLParser} root st1 st2 :
  heap st1 = heap st2 →
  (∀ k, relevant k → env st1 !! k = env st2 !! k) →
  (buildServerConfig root st1).1 = (buildServerConfig root st2).1
  ∧ heap (buildServerConfig root st1).2 = heap (buildServerConfig root st2).2.
Proof.
  intros Hh He.
  destruct (blind_buildServerConfig root st1 st2) as [H1 [H2 _]]; done.
Qed.

Lemma buildServerConfig_reads_only_witness :
  let st1 := processWith [("WORLD", "town/main"); ("JWT_SECRET", "s3cret");
                          ("HOME", "/root")] in
  let st2 := processWith [("WORLD", "town/main"); ("JWT_SECRET", "s3cret");
                          ("NODE_ENV", "production"); ("PUBLIC", "x")] in
  (buildServerConfig "/srv/hyperfy" st1).1 = (buildServerConfig "/srv/hyperfy" st2).1
  ∧ heap (buildServerConfig "/srv/hyperfy" st1).2
    = heap (buildServerConfig "/srv/hyperfy" st2).2.
Proof.
  intros st1 st2.
  apply (buildServerConfig_reads_only (H := whatwg) "/srv/hyperfy" st1 st2).
  - reflexivity.
  - intros k Hk.
    assert (k ∉ ["HOME"; "NODE_ENV"; "PUBLIC"]) as Hnot.
    { intros Hin. destruct Hk as [Hk|Hk].
      - unfold namedVariables in Hk.
        repeat (apply elem_of_cons in Hin as [->|Hin];
                [repeat (apply elem_of_cons in Hk as [[=]|Hk]); by apply elem_of_nil in Hk|]).
        by apply elem_of_nil in Hin.
      - repeat (apply elem_of_cons in Hin as [->|Hin]; [discriminate|]).
        by apply elem_of_nil in Hin. }
    unfold st1, st2, processWith. cbn [env fmap list_fmap prod_map fst snd id].
    rewrite !list_to_map_assoc. cbn [assoc].
    repeat match goal with
           | |- context [String.eqb ?a k] =>
               destruct (String.eqb_spec a k) as [<-|?]
           end; try done; destruct Hnot; set_solver.
Defined.

(** ** The world directory stays under the root *)

Lemma app_empty_r (s : string) : s +:+ "" = s.
Proof. induction s as [|c s IH]; [done|]. by rewrite app_cons, IH. Qed.

Lemma split_cat sep a b :
  JsString.split sep (a +:+ String sep b) = JsString.split sep a ++ JsString.split sep b.
Proof.
  induction a as [|c a IH].
  - rewrite app_empty_l. cbn [JsString.split]. by rewrite bool_decide_eq_true_2.
  - rewrite app_cons. cbn [JsString.split]. case_bool_decide; [by rewrite IH|].
    rewrite IH. destruct (JsString.split sep a) eqn:Ha; [|done].
    by destruct (split_not_nil sep a).
Qed.

Lemma proper_no_sep l :
  Forall properSegment l → Forall (λ x, JsString.includesChar x "/" = false) l.
Proof. intros Hl. eapply Forall_impl; [exact Hl|]. by intros x (_ & _ & _ & ?). Qed.

Lemma join_proper_head l :
  l ≠ [] → Forall properSegment l →
  ∃ c t, JsString.join "/" l = String c t ∧ c ≠ "/"%char.
Proof.
  intros Hl Hall. destruct l as [|x l]; [done|].
  apply Forall_cons in Hall as [Hx _].
  destruct (properSegment_head x Hx) as (c & u & -> & Hc).
  destruct l as [|y l]; [by exists c, u|].
  exists c, (u +:+ "/" +:+ JsString.join "/" (y :: l)). by split.
Qed.

(** The stack of [normalizeString] over a relative path whose normal form
    does not begin with [..] holds proper segments only. *)
Lemma accepted_stack s :
  path.isAbsolute s = false →
  JsString.startsWith (path.normalize s) ".." = false →
  s = "" ∨ Forall properSegment (foldl (path.normalizeStep true) [] (JsString.split "/" s)).
Proof.
  intros Hrel Hup. destruct (decide (s = "")) as [|Hs]; [by left|]. right.
  pose proof (foldl_normalizeStep_climbing (JsString.split "/" s) []
                (split_segments s)) as (n & reals & Hacc & Hreals).
  { by exists 0%nat, []. }
  destruct n as [|n]; [by rewrite Hacc, app_nil_r|].
  exfalso. unfold path.normalize in Hup.
  rewrite bool_decide_eq_false_2 in Hup by done. rewrite Hrel in Hup.
  cbn [negb] in Hup. unfold path.normalizeString in Hup.
  rewrite Hacc, reverse_app, reverse_replicate in Hup. cbn [replicate app] in Hup.
  assert (JsString.startsWith
            (JsString.join "/" (".." :: replicate n ".." ++ reverse reals)) ".." = true)
    as Hq.
  { by destruct (replicate n ".." ++ reverse reals). }
  rewrite bool_decide_eq_false_2 in Hup.
  - destruct (JsString.endsWithChar s "/"); [|congruence].
    apply (startsWith_app _ "/") in Hq. congruence.
  - intros Hnil. by rewrite Hnil in Hq.
Qed.

(** What [ensureRelativePath] accepts has the shape of [relativePath]. *)
Lemma accepted_shape s :
  path.isAbsolute s = false →
  JsString.startsWith (path.normalize s) ".." = false →
  ∃ ws trailing, Forall properSegment ws ∧ path.normalize s = relativePath ws trailing.
Proof.
  intros Hrel Hup. destruct (accepted_stack s Hrel Hup) as [->|Hst].
  { by exists [], false. }
  exists (reverse (foldl (path.normalizeStep true) [] (JsString.split "/" s))),
         (JsString.endsWithChar s "/").
  split; [by apply Forall_reverse|].
  unfold path.normalize. rewrite Hrel. cbn [negb].
  case_bool_decide as Hs.
  { subst s. by vm_compute. }
  unfold path.normalizeString.
  destruct (reverse _) as [|x l] eqn:Hl.
  - done.
  - apply Forall_reverse in Hst. rewrite Hl in Hst.
    destruct (join_proper_head (x :: l)) as (c & t & Hj & _); [done|done|].
    rewrite bool_decide_eq_false_2 by (by rewrite Hj).
    unfold relativePath. by destruct (JsString.endsWithChar s "/"); rewrite ?app_empty_r.
Qed.

Lemma foldl_skip allow acc l :
  Forall (λ x, x = "" ∨ x = ".") l → foldl (path.normalizeStep allow) acc l = acc.
Proof.
  intros Hl. revert acc. induction Hl as [|x l Hx _ IH]; intros acc; [done|].
  cbn [foldl]. rewrite <- (IH acc) at 2. f_equal.
  unfold path.normalizeStep. by destruct Hx as [->| ->].
Qed.

Lemma split_relativePath ws trailing :
  Forall properSegment ws →
  ∃ skip, Forall (λ x, x = "" ∨ x = ".") skip
          ∧ JsString.split "/" (relativePath ws trailing) = ws ++ skip.
Proof.
  intros Hws. destruct ws as [|x l].
  - destruct trailing.
    + exists ["."; ""]. split; [|done].
      repeat apply Forall_cons_2; try apply Forall_nil_2; auto.
    + exists ["."]. split; [|done].
      repeat apply Forall_cons_2; try apply Forall_nil_2; auto.
  - unfold relativePath. destruct trailing.
    + exists [""]. split; [apply Forall_cons_2; [by left|done]|].
      change "/" with (String "/"%char "") at 2.
      rewrite split_snoc.
      by rewrite (split_join "/"%char (x :: l)) by (done || by apply proper_no_sep).
    + exists []. split; [done|]. rewrite app_empty_r, app_nil_r.
      apply (split_join "/"%char (x :: l)); [done|by apply proper_no_sep].
Qed.

Lemma relativePath_nonempty ws trailing :
  Forall properSegment ws → relativePath ws trailing ≠ "".
Proof.
  intros Hws. destruct ws as [|x l]; [by destruct trailing|].
  destruct (join_proper_head (x :: l)) as (c & t & Hj & _); [done|done|].
  unfold relativePath. by rewrite Hj, app_cons.
Qed.

Lemma endsWithChar_relativePath ws trailing :
  Forall properSegment ws →
  JsString.endsWithChar (relativePath ws trailing) "/" = trailing.
Proof.
  intros Hws. destruct ws as [|x l]; [by destruct trailing|].
  unfold relativePath. destruct trailing.
  - by rewrite endsWithChar_app.
  - rewrite app_empty_r. by apply join_proper_end.
Qed.

(** Joining a relative path of proper segments to an absolute path of
    proper segments, whether that one ends on a separator or not. *)
Lemma join_segments segs ws (slash trailing : bool) :
  segs ≠ [] →
  Forall properSegment segs → Forall properSegment ws →
  path.join ["/" +:+ JsString.join "/" segs +:+ (if slash then "/" else "");
             relativePath ws trailing]
  = "/" +:+ JsString.join "/" (segs ++ ws) +:+ (if trailing then "/" else "").
Proof.
  intros Hne Hsegs Hws.
  assert (Forall properSegment (segs ++ ws)) as Hall by by apply Forall_app.
  destruct (join_proper_head (segs ++ ws)) as (c & t & Hj & _);
    [by destruct segs|done|].
  destruct (split_relativePath ws trailing Hws) as (skip & Hskip & Hsplit).
  pose proof (relativePath_nonempty ws trailing Hws) as Hrel.
  unfold path.join.
  rewrite filter_cons_True by done.
  rewrite filter_cons_True by done.
  rewrite filter_nil.
  change (JsString.join "/" [?a; ?b]) with (a +:+ "/" +:+ b).
  rewrite bool_decide_eq_false_2 by done.
  unfold path.normalize.
  rewrite bool_decide_eq_false_2 by done.
  replace (path.isAbsolute _) with true by reflexivity. cbn [negb].
  rewrite (endsWithChar_app _ ("/" +:+ relativePath ws trailing)) by done.
  rewrite (endsWithChar_app "/" (relativePath ws trailing)) by done.
  rewrite !app_assoc_string.
  rewrite endsWithChar_relativePath by done.
  unfold path.normalizeString.
  rewrite split_rooted.
  assert (JsString.split "/"
            (JsString.join "/" segs +:+ (if slash then "/" else "") +:+ "/"
               +:+ relativePath ws trailing)
          = segs ++ (if slash then [""] else []) ++ ws ++ skip) as ->.
  { rewrite <- Hsplit. destruct slash.
    - change ("/" +:+ "/" +:+ ?x) with (String "/" (String "/" x)).
      rewrite split_cat. cbn [JsString.split].
      rewrite bool_decide_eq_true_2 by done.
      by rewrite (split_join "/"%char segs) by (done || by apply proper_no_sep).
    - rewrite app_empty_l. change ("/" +:+ ?x) with (String "/" x).
      rewrite split_cat.
      by rewrite (split_join "/"%char segs) by (done || by apply proper_no_sep). }
  cbn [foldl]. replace (path.normalizeStep false [] "") with (@nil string)
    by reflexivity.
  rewrite !foldl_app.
  rewrite (foldl_normalizeStep_proper false segs) by done.
  rewrite (foldl_skip false _ (if slash then [""] else [])).
  2: { destruct slash; [|done]. apply Forall_cons_2; [by left|done]. }
  rewrite (foldl_normalizeStep_proper false ws) by done.
  rewrite foldl_skip by done.
  rewrite app_nil_r, reverse_app, !reverse_involutive.
  rewrite bool_decide_eq_false_2 by (by rewrite Hj).
  by destruct trailing; rewrite ?app_empty_r.
Qed.

Lemma startsWith_prefix x y : JsString.startsWith (x +:+ y) x = true.
Proof.
  unfold JsString.startsWith. induction x as [|c x IH]; [done|].
  rewrite app_cons. cbn [JsString.isPrefix].
  by rewrite bool_decide_eq_true_2, IH.
Qed.

Lemma under_segments segs ws (trailing : bool) :
  segs ≠ [] →
  under ("/" +:+ JsString.join "/" segs)
        ("/" +:+ JsString.join "/" (segs ++ ws) +:+ (if trailing then "/" else "")).
Proof.
  intros Hne. destruct ws as [|x l].
  - rewrite app_nil_r. destruct trailing.
    + right. rewrite <- app_assoc_string.
      rewrite <- (app_empty_r (_ +:+ "/")) at 1. apply startsWith_prefix.
    + left. by rewrite app_empty_r.
  - right. rewrite (join_app "/" segs (x :: l)) by done.
    replace ("/" +:+ (JsString.join "/" segs +:+ "/" +:+ JsString.join "/" (x :: l))
               +:+ (if trailing then "/" else ""))
      with ((("/" +:+ JsString.join "/" segs) +:+ "/")
              +:+ JsString.join "/" (x :: l) +:+ (if trailing then "/" else ""))
      by (by rewrite !app_assoc_string).
    apply startsWith_prefix.
Qed.

Lemma single_segment x : properSegment x → Forall properSegment [x].
Proof. intros Hx. by apply Forall_cons_2. Qed.

(** X1.  Under a normalised root other than the file system root, whatever
    [WORLD] holds, the three directories of a configuration that was built
    are the root or lie below it: [world.dir] is made of the segments of
    the root followed by the segments of the world name, none of them
    empty, [.] or [..], and [assetsDir] and [collectionsDir] add one
    segment to that. *)
Theorem world_under_root `{URLParser} root segs st c st' :
  segs ≠ [] → Forall properSegment segs →
  root = "/" +:+ JsString.join "/" segs →
  buildServerConfig root st = (Normal c, st') →
  ∃ ws trailing dir assetsDir collectionsDir,
    Forall properSegment ws
    ∧ readPath st' (VObject c) ["world"; "name"]
      = Some (VString (relativePath ws trailing))
    ∧ readPath st' (VObject c) ["world"; "dir"] = Some (VString dir)
    ∧ readPath st' (VObject c) ["world"; "assetsDir"] = Some (VString assetsDir)
    ∧ readPath st' (VObject c) ["world"; "collectionsDir"]
      = Some (VString collectionsDir)
    ∧ dir = "/" +:+ JsString.join "/" (segs ++ ws) +:+ (if trailing then "/" else "")
    ∧ assetsDir = "/" +:+ JsString.join "/" (segs ++ ws ++ ["assets"])
    ∧ collectionsDir = "/" +:+ JsString.join "/" (segs ++ ws ++ ["collections"])
    ∧ under root dir ∧ under root assetsDir ∧ under root collectionsDir.
Proof.
  intros Hne Hsegs -> (r & Hr & -> & ->)%buildServerConfig_Normal.
  destruct Hr as ((v & _ & Hname) & _).
  destruct v as [| | | |w|]; try done.
  rewrite ensureRelativePath_unfold in Hname.
  destruct (path.isAbsolute w) eqn:Hrel; [done|].
  destruct (JsString.startsWith (path.normalize w) "..") eqn:Hup; [done|].
  injection Hname as Hname.
  destruct (accepted_shape w Hrel Hup) as (ws & trailing & Hws & Hshape).
  rewrite Hshape in Hname.
  assert (Forall properSegment ["assets"]) as Hassets.
  { apply single_segment. by repeat split. }
  assert (Forall properSegment ["collections"]) as Hcollections.
  { apply single_segment. by repeat split. }
  assert (Forall properSegment (segs ++ ws)) as Hall by by apply Forall_app.
  assert (segs ++ ws ≠ []) as Hne' by by destruct segs.
  pose proof (join_segments segs ws false trailing Hne Hsegs Hws) as Hdir.
  rewrite app_empty_r in Hdir.
  pose proof (join_segments (segs ++ ws) ["assets"] trailing false Hne' Hall Hassets)
    as Ha.
  pose proof (join_segments (segs ++ ws) ["collections"] trailing false Hne' Hall
                Hcollections) as Hc.
  rewrite app_empty_r, <- app_assoc in Ha, Hc.
  change (relativePath ["assets"] false) with "assets" in Ha.
  change (relativePath ["collections"] false) with "collections" in Hc.
  exists ws, trailing,
    (path.join ["/" +:+ JsString.join "/" segs; r_worldName r]),
    (path.join [path.join ["/" +:+ JsString.join "/" segs; r_worldName r]; "assets"]),
    (path.join [path.join ["/" +:+ JsString.join "/" segs; r_worldName r];
                "collections"]).
  split; [exact Hws|].
  split; [read_config; read_config; by rewrite <- Hname|].
  split; [read_config; read_config; reflexivity|].
  split; [read_config; read_config; reflexivity|].
  split; [read_config; read_config; reflexivity|].
  rewrite <- Hname, Hdir, Ha, Hc.
  split; [reflexivity|]. split; [reflexivity|]. split; [reflexivity|].
  split; [by apply under_segments|].
  split.
  - pose proof (under_segments segs (ws ++ ["assets"]) false Hne) as Hu.
    by rewrite app_empty_r in Hu.
  - pose proof (under_segments segs (ws ++ ["collections"]) false Hne) as Hu.
    by rewrite app_empty_r in Hu.
Qed.

Lemma srv_hyperfy_segments : Forall properSegment ["srv"; "hyperfy"].
Proof. repeat apply Forall_cons_2; try apply Forall_nil_2; by repeat split. Qed.

Lemma world_under_root_witness :
  let st := processWith [("WORLD", "./worlds//demo/../main/");
                         ("JWT_SECRET", "s3cret")] in
  let out := buildServerConfig "/srv/hyperfy" st in
  out.1 = Normal 6%nat
  ∧ readPath out.2 (VObject 6%nat) ["world"; "dir"]
    = Some (VString "/srv/hyperfy/worlds/main/")
  ∧ readPath out.2 (VObject 6%nat) ["world"; "assetsDir"]
    = Some (VString "/srv/hyperfy/worlds/main/assets")
  ∧ ∃ dir, readPath out.2 (VObject 6%nat) ["world"; "dir"] = Some (VString dir)
           ∧ under "/srv/hyperfy" dir.
Proof.
  intros st out.
  assert (out.1 = Normal 6%nat) as Hout by (vm_compute; reflexivity).
  split; [exact Hout|].
  split; [vm_compute; reflexivity|]. split; [vm_compute; reflexivity|].
  destruct (world_under_root (H := whatwg) "/srv/hyperfy" ["srv"; "hyperfy"] st
              6%nat out.2)
    as (ws & trailing & dir & _ & _ & _ & _ & Hd & _ & _ & _ & _ & _ & Hu & _).
  - done.
  - apply srv_hyperfy_segments.
  - reflexivity.
  - by apply run_eq.
  - exists dir. split; [exact Hd|exact Hu].
Defined.

(** ** [buildPublicEnv] on its own *)



(** ** The upload size reads back *)

(** X11.  In a configuration that was built,
    [public.env.PUBLIC_MAX_UPLOAD_SIZE] is [String(public.maxUploadSize)],
    and up to 2^53 [Number.parseInt] reads the number back from it. *)
Theorem upload_size_reads_back `{URLParser} root st c st' :
  buildServerConfig root st = (Normal c, st') →
  ∃ n s,
    readPath st' (VObject c) ["public"; "maxUploadSize"] = Some (VNumber (Int n))
    ∧ readPath st' (VObject c) ["public"; "env"; "PUBLIC_MAX_UPLOAD_SIZE"]
      = Some (VString s)
    ∧ s = Js.numberToString (Int n)
    ∧ (n ≤ 2 ^ 53 → Js.parseInt10 (VString s) = Int n).
Proof.
  intros (r & Hr & -> & ->)%buildServerConfig_Normal.
  destruct Hr as (_ & _ & _ & _ & _ & _ & _ & (vu & _ & Hu) & _).
  apply parseInteger_Normal in Hu as (n & Hn & _ & _ & Hmin & _).
  specialize (Hmin 1 eq_refl).
  exists n, (Js.numberToString (Int n)).
  split; [read_config; read_config; by rewrite Hn|].
  split.
  { read_config. read_config.
    erewrite (deref_config _ _ (configObjects _ _ _ _) _ 1%nat); [|lia|reflexivity].
    cbn [props readPath]. rewrite lookup_fmap.
    erewrite lookup_union_Some_l.
    2: { unfold publicOverrides. rewrite list_to_map_assoc.
         cbn [assoc String.eqb Ascii.eqb Bool.eqb]. reflexivity. }
    by rewrite Hn. }
  split; [done|].
  intros Hsafe. apply parseInt10_numberToString. lia.
Qed.

Lemma upload_size_reads_back_witness :
  let st := processWith [("WORLD", "town/main"); ("JWT_SECRET", "s3cret");
                         ("PUBLIC_MAX_UPLOAD_SIZE", " 0064MB")] in
  let out := buildServerConfig "/srv/hyperfy" st in
  out.1 = Normal 6%nat
  ∧ readPath out.2 (VObject 6%nat) ["public"; "env"; "PUBLIC_MAX_UPLOAD_SIZE"]
    = Some (VString "64")
  ∧ Js.parseInt10 (VString "64") = Int 64.
Proof.
  intros st out.
  assert (out.1 = Normal 6%nat) as Hout by (vm_compute; reflexivity).
  split; [exact Hout|].
  destruct (upload_size_reads_back (H := whatwg) "/srv/hyperfy" st 6%nat out.2
              (run_eq _ _ _ Hout)) as (n & s & Hn & Hs & -> & Hback).
  assert (readPath out.2 (VObject 6%nat) ["public"; "maxUploadSize"]
          = Some (VNumber (Int 64))) as Hn' by (vm_compute; reflexivity).
  rewrite Hn' in Hn. injection Hn as <-.
  split; [exact Hs|]. apply Hback. lia.
Defined.

(** ** Making a token *)

Lemma createJWT_settles `{JsonWebToken} u data :
  createJWT u data
  = match jwt_sign data (jwtSecret u) with
    | Succeeded token => Fulfilled token
    | Failed err => Rejected (VObject err)
    end.
Proof.
  unfold createJWT, Promise.new, deliver.
  by destruct (jwt_sign data (jwtSecret u)).
Qed.

(** X13.  Once [config.js] has loaded, whatever the process does before
    [utils-server.js] loads, [createJWT] signs with [JWT_SECRET] as it
    was when the configuration was built, trimmed: its promise is
    fulfilled with the token when signing succeeds and rejected with the
    error of the library when it fails, and is never left pending.  A
    token it has made, if the library verifies it under that secret with
    the data signed, is read back by [readJWT] as that data. *)
Theorem createJWT_signs_with_secret `{URLParser} `{JsonWebToken}
    root st0 m st1 ops data :
  loadConfigModule root st0 = (Normal m, st1) →
  let st2 := (run m ops st1).2 in
  ∃ secret u,
    secret = JsString.trim (Js.String_ (default VUndefined (env st0 !! "JWT_SECRET")))
    ∧ loadUtilsModule m st2 = (Normal u, st2)
    ∧ createJWT u data
      = match jwt_sign data (VString secret) with
        | Succeeded token => Fulfilled token
        | Failed err => Rejected (VObject err)
        end
    ∧ createJWT u data ≠ Pending
    ∧ (∀ token,
         createJWT u data = Fulfilled token →
         jwt_sign data (VString secret) = Succeeded token
         ∧ (jwt_verify token (VString secret) = Succeeded data →
            readJWT u token = Fulfilled data)).
Proof.
  intros Hload st2.
  destruct (loadUtilsModule_after root st0 m st1 ops Hload) as (_ & _ & Hu).
  eexists _, {| jwtSecret := VString _ |}.
  split; [reflexivity|]. split; [exact Hu|].
  rewrite createJWT_settles. cbn [jwtSecret].
  split; [done|].
  split; [by destruct (jwt_sign _ _)|].
  intros token. destruct (jwt_sign _ _) as [t|e]; [|done].
  intros [= ->]. split; [done|].
  rewrite readJWT_settles. cbn [jwtSecret]. by intros ->.
Qed.

Lemma createJWT_signs_with_secret_witness :
  let st0 := processWith [("WORLD", "town/main"); ("JWT_SECRET", " s3cret ")] in
  let out := loadConfigModule "/srv/hyperfy" st0 in
  let m := {| serverConfig := 6%nat |} in
  let ops := [OpSetEnv "JWT_SECRET" (VString "other")] in
  let st2 := (run m ops out.2).2 in
  out.1 = Normal m
  ∧ ∃ u, loadUtilsModule m st2 = (Normal u, st2)
         ∧ createJWT (H := sampleJwt) u (VString "user-1")
           = Fulfilled (VString "good")
         ∧ readJWT (H := sampleJwt) u (VString "good") = Fulfilled (VString "user-1").
Proof.
  intros st0 out m ops st2.
  assert (out.1 = Normal m) as Hout by (vm_compute; reflexivity).
  split; [exact Hout|].
  destruct (createJWT_signs_with_secret (H := whatwg) (H0 := sampleJwt)
              "/srv/hyperfy" st0 m out.2 ops (VString "user-1") (run_eq _ _ _ Hout))
    as (secret & u & Hs & Hu & Hc & _ & Hround).
  assert (secret = "s3cret") as -> by (rewrite Hs; vm_compute; reflexivity).
  exists u. split; [exact Hu|]. split; [exact Hc|].
  apply (Hround (VString "good")); [exact Hc|reflexivity].
Defined.
